(** * On-disk blob storage: the disk blob manager and the disk device

    A shallow embedding of [src/3blob_manager/blob_manager_disk.cc] and of
    [src/2device/device_disk.h], followed by the properties of the storage
    layer that the specification states about them.

    Conventions of the embedding.
    - [uint32_t] and [uint64_t] values are integers of [Z]; every place where
      the source stores or computes at a fixed width applies [u32] or [u64].
    - A [Page *] is either null ([None]) or a page handle; the raw payload of
      the pages is one byte store addressed by file offset, so the pointer
      [&page->get_raw_payload()[i]] is the file offset [page address + i].
    - [ham_assert] and [ham_verify] are assertion macros of [1base/error.h];
      they are taken as no-ops, the behaviour of a build without
      assertions. *)

From Stdlib Require Import ZArith Lia Bool.
From Stdlib Require Import Strings.Byte.
From stdpp Require Import base list.

Local Open Scope Z_scope.

(** ** Fixed-width integers *)

Definition u32 (x : Z) : Z := x mod 2 ^ 32.
Definition u64 (x : Z) : Z := x mod 2 ^ 64.

Definition is_u32 (x : Z) : Prop := 0 <= x < 2 ^ 32.
Definition is_u64 (x : Z) : Prop := 0 <= x < 2 ^ 64.

(** [x & mask] used as a condition. *)
Definition has_flag (x mask : Z) : bool := negb (Z.land x mask =? 0).

(** ** Bytes and little-endian fields *)

Definition byte_of_Z (z : Z) : byte :=
  match Byte.of_N (Z.to_N (z mod 256)) with
  | Some b => b
  | None => x00
  end.

Definition Z_of_byte (b : byte) : Z := Z.of_N (Byte.to_N b).

Fixpoint le_encode (n : nat) (x : Z) : list byte :=
  match n with
  | O => []
  | S n' => byte_of_Z x :: le_encode n' (x / 256)
  end.

Fixpoint le_decode (bs : list byte) : Z :=
  match bs with
  | [] => 0
  | b :: bs' => Z_of_byte b + 256 * le_decode bs'
  end.

(** [memcpy] reads [n] bytes from a source buffer.  Reading past the end of
    the buffer is undefined in the source; the model reads zero bytes
    there. *)
Definition buffer_bytes (n : Z) (src : list byte) : list byte :=
  take (Z.to_nat n) src ++ replicate (Z.to_nat n - length src)%nat x00.

(** ** Status codes and outcomes *)

Inductive ham_status : Set :=
  | HAM_BLOB_NOT_FOUND
  | HAM_INV_PARAMETER
  | HAM_INTEGRITY_VIOLATED.

(** The result of a call: a returned value, a thrown [Exception], or no
    defined result: a loop of the model that ran out of its iteration
    budget, or an access that the source leaves undefined (through a null
    pointer, past the end of a buffer). *)
Inductive outcome (A : Type) : Type :=
  | Return (a : A)
  | Throw (e : ham_status)
  | Diverge.
Arguments Return {A} a.
Arguments Throw {A} e.
Arguments Diverge {A}.

(** ** PBlobPageHeader

    Modelled from the spec: [PBlobPageHeader] is declared in
    [3blob_manager/blob_manager_disk.h], which is not under src.  The spec
    gives its fields: the page count of the run, the free-byte counter
    (both [u32]) and a fixed-capacity freelist of [(offset, size)] slots
    (both [u32]).  The capacity returned by [get_freelist_entries] is the
    length of the slot array. *)

Record PBlobPageHeader : Type := mkPageHeader {
  m_num_pages : Z;
  m_free_bytes : Z;
  m_freelist : list (Z * Z)
}.

Definition get_num_pages (h : PBlobPageHeader) : Z := m_num_pages h.
Definition set_num_pages (h : PBlobPageHeader) (n : Z) : PBlobPageHeader :=
  mkPageHeader (u32 n) (m_free_bytes h) (m_freelist h).

Definition get_free_bytes (h : PBlobPageHeader) : Z := m_free_bytes h.
Definition set_free_bytes (h : PBlobPageHeader) (n : Z) : PBlobPageHeader :=
  mkPageHeader (m_num_pages h) (u32 n) (m_freelist h).

Definition get_freelist_entries (h : PBlobPageHeader) : nat :=
  length (m_freelist h).

(** Slot accessors.  An index outside the array is undefined in the source;
    the model reads zero and writes nothing there. *)
Definition get_freelist_offset (h : PBlobPageHeader) (i : nat) : Z :=
  match m_freelist h !! i with Some e => e.1 | None => 0 end.
Definition get_freelist_size (h : PBlobPageHeader) (i : nat) : Z :=
  match m_freelist h !! i with Some e => e.2 | None => 0 end.

Definition set_freelist_offset (h : PBlobPageHeader) (i : nat) (v : Z)
  : PBlobPageHeader :=
  mkPageHeader (m_num_pages h) (m_free_bytes h)
    (match m_freelist h !! i with
     | Some e => <[i := (u32 v, e.2)]> (m_freelist h)
     | None => m_freelist h
     end).
Definition set_freelist_size (h : PBlobPageHeader) (i : nat) (v : Z)
  : PBlobPageHeader :=
  mkPageHeader (m_num_pages h) (m_free_bytes h)
    (match m_freelist h !! i with
     | Some e => <[i := (e.1, u32 v)]> (m_freelist h)
     | None => m_freelist h
     end).

(** The header with slot [i] replaced by [e]. *)
Definition with_slot (h : PBlobPageHeader) (i : nat) (e : Z * Z)
  : PBlobPageHeader :=
  mkPageHeader (m_num_pages h) (m_free_bytes h) (<[i := e]> (m_freelist h)).

(** [initialize] zeroes the header in place ([memset]). *)
Definition initialize (h : PBlobPageHeader) : PBlobPageHeader :=
  mkPageHeader 0 0 (replicate (length (m_freelist h)) (0, 0)).

(** Every field of the header holds a 32-bit value. *)
Definition header_u32 (h : PBlobPageHeader) : Prop :=
  is_u32 (m_num_pages h) /\ is_u32 (m_free_bytes h) /\
  Forall (fun e => is_u32 e.1 /\ is_u32 e.2) (m_freelist h).

(** ** alloc_from_freelist *)

(** The [for] loop of [alloc_from_freelist]: [n] iterations remain, [i] is
    the loop index.  The result is the returned flag, the value of
    [*poffset] and the header. *)
Fixpoint alloc_from_freelist_loop (n : nat) (i : nat) (header : PBlobPageHeader)
    (size : Z) (poffset : Z) : bool * Z * PBlobPageHeader :=
  match n with
  | O => (false, poffset, header)
  | S n' =>
      if get_freelist_size header i =? size then
        let poffset := get_freelist_offset header i in
        let header := set_freelist_offset header i 0 in
        let header := set_freelist_size header i 0 in
        (true, poffset, header)
      else if size <? get_freelist_size header i then
        let poffset := get_freelist_offset header i in
        let header := set_freelist_offset header i (u32 (u64 (poffset + size))) in
        let header := set_freelist_size header i (get_freelist_size header i - size) in
        (true, poffset, header)
      else alloc_from_freelist_loop n' (S i) header size poffset
  end.

Definition alloc_from_freelist (header : PBlobPageHeader) (size : Z)
    (poffset : Z) : bool * Z * PBlobPageHeader :=
  if 1 <? get_num_pages header then (false, poffset, header)
  else alloc_from_freelist_loop (get_freelist_entries header) 0 header size poffset.

(** ** add_to_freelist *)

(** First loop: collapse the new region with an adjacent slot. *)
Fixpoint add_collapse_loop (n : nat) (i : nat) (header : PBlobPageHeader)
    (offset size : Z) : option PBlobPageHeader :=
  match n with
  | O => None
  | S n' =>
      if u32 (offset + size) =? get_freelist_offset header i then
        let header := set_freelist_offset header i offset in
        Some (set_freelist_size header i (get_freelist_size header i + size))
      else if u32 (get_freelist_offset header i + get_freelist_size header i)
                =? offset then
        Some (set_freelist_size header i (get_freelist_size header i + size))
      else add_collapse_loop n' (S i) header offset size
  end.

(** Second loop: take an empty slot, else remember the smallest one.  The
    result is the header when a slot was taken, else the index of the
    smallest slot. *)
Fixpoint add_store_loop (n : nat) (i : nat) (smallest : nat)
    (header : PBlobPageHeader) (offset size : Z) : PBlobPageHeader + nat :=
  match n with
  | O => inr smallest
  | S n' =>
      if get_freelist_size header i =? 0 then
        let header := set_freelist_offset header i offset in
        inl (set_freelist_size header i size)
      else if get_freelist_size header i <? get_freelist_size header smallest then
        add_store_loop n' (S i) i header offset size
      else add_store_loop n' (S i) smallest header offset size
  end.

Definition add_to_freelist (header : PBlobPageHeader) (offset size : Z)
  : PBlobPageHeader :=
  if 1 <? get_num_pages header then header
  else
    let count := get_freelist_entries header in
    match add_collapse_loop count 0 header offset size with
    | Some header' => header'
    | None =>
        match add_store_loop count 0 0 header offset size with
        | inl header' => header'
        | inr smallest =>
            if get_freelist_size header smallest <? size then
              let header := set_freelist_offset header smallest offset in
              set_freelist_size header smallest size
            else header
        end
    end.

(** ** The disk device ([src/2device/device_disk.h]) *)

Module DiskDevice.

Inductive ups_status : Set :=
  | UPS_IO_ERROR
  | UPS_LIMITS_REACHED.

(** The operating-system side of the device: [File] of [1os/file.h], the
    AES cipher of [2aes/aes.h], the allocator of [1mem/mem.h] and the flag
    constants of the public header are not under src and are parameters of
    the model.  A [File] operation that throws returns [inl]; [file_mmap]
    returns the mapped bytes; [uninitialized i] is the byte that the
    allocator leaves at index [i] of a buffer it hands out (the source
    does not initialise a new buffer). *)
Class Platform : Type := {
  File : Type;
  uninitialized : nat -> byte;
  file_open : File -> bool -> ups_status + File;
  get_file_size : File -> Z;
  get_granularity : Z;
  file_mmap : File -> Z -> Z -> bool -> ups_status + list byte;
  file_pread : File -> Z -> Z -> ups_status + list byte;
  aes_decrypt : list byte -> Z -> list byte -> list byte;
  UPS_READ_ONLY : Z;
  UPS_DISABLE_MMAP : Z
}.

(** The fields of [EnvironmentConfiguration] that the device reads. *)
Record Config : Type := mkConfig {
  page_size_bytes : Z;
  flags : Z;
  is_encryption_enabled : bool;
  encryption_key : list byte
}.

Section Device.
Context {platform : Platform}.
Variable m_config : Config.

(** [struct State].  [mmapptr] is [None] for the null pointer and
    otherwise carries the bytes of the mapped region. *)
Record State : Type := mkState {
  file : File;
  mmapptr : option (list byte);
  mapped_size : Z;
  file_size : Z;
  excess_at_end : Z
}.

(** Modelled from the spec: [Page] is declared in [2page/page.h], which
    is not under src.  Its buffer is either absent, an exclusive heap
    allocation, or a borrow into the mmap region of the device (given
    by its offset in the region); [free_buffer] releases a heap buffer
    and is a no-op on a borrow. *)
Inductive PageBuffer : Type :=
  | NoBuffer
  | Allocated (bytes : list byte)
  | Mapped (offset : Z).

Record Page : Type := mkPage {
  get_data : PageBuffer;
  get_address : Z
}.

Definition free_buffer (page : Page) : Page :=
  match get_data page with
  | Allocated _ => mkPage NoBuffer (get_address page)
  | _ => page
  end.

Definition assign_mapped_buffer (page : Page) (offset address : Z) : Page :=
  mkPage (Mapped offset) address.

Definition assign_allocated_buffer (page : Page) (p : list byte)
    (address : Z) : Page :=
  mkPage (Allocated p) address.

(** [Memory::allocate<uint8_t>(n)]: a fresh buffer of [n] bytes, with
    whatever content the allocator left in it. *)
Definition Memory_allocate (n : Z) : list byte :=
  map uninitialized (seq 0 (Z.to_nat n)).

(** Storing [src] at the start of a buffer ([pread] and [decrypt] write
    into [page->get_data()]). *)
Definition fill (src dst : list byte) : list byte :=
  src ++ drop (length src) dst.

Definition fill_at (offset : Z) (src dst : list byte) : list byte :=
  take (Z.to_nat offset) dst ++ fill src (drop (Z.to_nat offset) dst).

(** The bytes behind [page->get_data()]. *)
Definition page_bytes (m_state : State) (page : Page) : list byte :=
  match get_data page with
  | NoBuffer => []
  | Allocated bytes => bytes
  | Mapped offset =>
      match mmapptr m_state with
      | Some region => drop (Z.to_nat offset) region
      | None => []
      end
  end.

(** Writing through [page->get_data()].  Writing through a borrow while
    nothing is mapped is undefined in the source; the model leaves the
    state as it is. *)
Definition store_page_bytes (m_state : State) (page : Page)
    (src : list byte) : State * Page :=
  match get_data page with
  | NoBuffer => (m_state, page)
  | Allocated bytes =>
      (m_state, mkPage (Allocated (fill src bytes)) (get_address page))
  | Mapped offset =>
      match mmapptr m_state with
      | Some region =>
          (mkState (file m_state) (Some (fill_at offset src region))
             (mapped_size m_state) (file_size m_state)
             (excess_at_end m_state), page)
      | None => (m_state, page)
      end
  end.

(** [open]: tries to map the file; if that fails the device continues
    with read/write. *)
Definition open (m_state : State) : ups_status + State :=
  let read_only := negb (Z.land (flags m_config) UPS_READ_ONLY =? 0) in
  match file_open (file m_state) read_only with
  | inl e => inl e
  | inr f =>
      let state := mkState f (mmapptr m_state) (mapped_size m_state)
                     (get_file_size f) (excess_at_end m_state) in
      if negb (Z.land (flags m_config) UPS_DISABLE_MMAP =? 0) then inr state
      else if (file_size state =? 0)
              || negb (file_size state mod get_granularity =? 0) then inr state
      else
        let state := mkState (file state) (mmapptr state) (file_size state)
                       (file_size state) (excess_at_end state) in
        match file_mmap (file state) 0 (mapped_size state) read_only with
        | inr region =>
            inr (mkState (file state) (Some region) (mapped_size state)
                   (file_size state) (excess_at_end state))
        | inl _ => inr state
        end
  end.

(** [read_page]: the page after the call, the state, and whether the
    call returned or threw. *)
Definition read_page (m_state : State) (page : Page) (address : Z)
  : (ups_status + unit) * Page * State :=
  if (address <? mapped_size m_state)
     && match mmapptr m_state with Some _ => true | None => false end
  then
    let page := free_buffer page in
    let page := assign_mapped_buffer page address address in
    (inr tt, page, m_state)
  else
    let page :=
      match get_data page with
      | NoBuffer =>
          let p := Memory_allocate (page_size_bytes m_config) in
          assign_allocated_buffer page p address
      | _ => page
      end in
    match file_pread (file m_state) address (page_size_bytes m_config) with
    | inl e => (inl e, page, m_state)
    | inr bytes =>
        let '(m_state, page) := store_page_bytes m_state page bytes in
        if is_encryption_enabled m_config then
          let plain := aes_decrypt (encryption_key m_config)
                         (get_address page)
                         (take (Z.to_nat (page_size_bytes m_config))
                            (page_bytes m_state page)) in
          let '(m_state, page) := store_page_bytes m_state page plain in
          (inr tt, page, m_state)
        else (inr tt, page, m_state)
    end.

(** [is_mapped]: true if the range lies in mapped memory. *)
Definition is_mapped (m_state : State) (file_offset size : Z) : bool :=
  u64 (file_offset + size) <=? mapped_size m_state.

(** The constructor: no mapping and no sizes; [f] is the [File] member as
    it is constructed. *)
Definition construct (f : File) : State := mkState f None 0 0 0.

(** [read]: reads from the device without the mapping.  The result is the
    content of [buffer] after the call. *)
Definition read (m_state : State) (offset : Z) (buffer : list byte) (len : Z)
  : ups_status + list byte :=
  match file_pread (file m_state) offset len with
  | inl e => inl e
  | inr bytes =>
      let buffer := fill bytes buffer in
      if is_encryption_enabled m_config then
        inr (fill (aes_decrypt (encryption_key m_config) offset
                     (take (Z.to_nat len) buffer))
               buffer)
      else inr buffer
  end.

(** [free_page]: plays counterpoint to [alloc_page]. *)
Definition free_page (page : Page) : Page := free_buffer page.

(** *** Storage at the end of the file

    [File::truncate] of [1os/file.h] and the [file_size_limit_bytes] field
    of the configuration are not under src.  [size_t] has 64 bits, and the
    build is not one for Win32, so [allocate_excess] stays true. *)
Variable file_truncate : File -> Z -> ups_status + File.
Variable file_size_limit_bytes : Z.

(** [truncate_nolock]: truncate/resize the device, sans locking. *)
Definition truncate_nolock (m_state : State) (new_file_size : Z)
  : (ups_status + unit) * State :=
  if file_size_limit_bytes <? new_file_size
  then (inl UPS_LIMITS_REACHED, m_state)
  else
    match file_truncate (file m_state) new_file_size with
    | inl e => (inl e, m_state)
    | inr f =>
        (inr tt,
         mkState f (mmapptr m_state) (mapped_size m_state) new_file_size
           (excess_at_end m_state))
    end.

Definition truncate (m_state : State) (new_file_size : Z)
  : (ups_status + unit) * State :=
  truncate_nolock m_state new_file_size.

(** [alloc]: allocate storage from this device; the result is the address
    of the storage. *)
Definition alloc (m_state : State) (requested_length : Z)
  : (ups_status + Z) * State :=
  if requested_length <=? excess_at_end m_state then
    let address := u64 (file_size m_state - excess_at_end m_state) in
    (inr address,
     mkState (file m_state) (mmapptr m_state) (mapped_size m_state)
       (file_size m_state) (u64 (excess_at_end m_state - requested_length)))
  else
    let excess := 0 in
    let allocate_excess := true in
    (* If the file is large enough then allocate more space to avoid
       frequent calls to ftruncate() *)
    let excess :=
      if allocate_excess then
        if file_size m_state <? u64 (requested_length * 100) then 0
        else if file_size m_state <? u64 (requested_length * 250)
        then u64 (requested_length * 100)
        else if file_size m_state <? u64 (requested_length * 1000)
        then u64 (requested_length * 250)
        else u64 (requested_length * 1000)
      else excess in
    let address := file_size m_state in
    match truncate_nolock m_state (u64 (address + requested_length + excess)) with
    | (inl e, m_state) => (inl e, m_state)
    | (inr _, m_state) =>
        (inr address,
         mkState (file m_state) (mmapptr m_state) (mapped_size m_state)
           (file_size m_state) excess)
    end.

(** [alloc_page]: allocates storage for a page from this device. *)
Definition alloc_page (m_state : State) (page : Page)
  : (ups_status + unit) * Page * State :=
  match alloc m_state (page_size_bytes m_config) with
  | (inl e, m_state) => (inl e, page, m_state)
  | (inr address, m_state) =>
      let page := mkPage (get_data page) address in
      (* allocate a memory buffer *)
      let p := Memory_allocate (page_size_bytes m_config) in
      (inr tt, assign_allocated_buffer page p address, m_state)
  end.

(** [reclaim_space]: removes unused space at the end of the file. *)
Definition reclaim_space (m_state : State) : (ups_status + unit) * State :=
  if 0 <? excess_at_end m_state then
    match
      truncate_nolock m_state (u64 (file_size m_state - excess_at_end m_state))
    with
    | (inl e, m_state) => (inl e, m_state)
    | (inr _, m_state) =>
        (inr tt,
         mkState (file m_state) (mmapptr m_state) (mapped_size m_state)
           (file_size m_state) 0)
    end
  else (inr tt, m_state).

End Device.
End DiskDevice.

(** ** The environment of the blob manager *)

(** [ham_record_t] of the public header: [data] is the caller's buffer
    ([None] for a null pointer). *)
Record ham_record_t : Type := mkRecord {
  rec_size : Z;
  rec_data : option (list byte);
  rec_flags : Z;
  rec_partial_offset : Z;
  rec_partial_size : Z
}.

(** The bytes behind [record->data]. *)
Definition data_bytes (data : option (list byte)) : list byte :=
  match data with Some bs => bs | None => [] end.

(** The [Compressor] interface of [2compressor/compressor.h]: [compress]
    yields the output buffer, whose length is the returned [len];
    [decompress] takes the compressed bytes and the expected length. *)
Record Compressor : Type := mkCompressor {
  compress : list byte -> list byte;
  decompress : list byte -> Z -> list byte
}.

(** A [Page *] of the blob manager: the handle of the page at a file
    address. *)
Record Page : Type := mkPage { get_address : Z }.

(** Modelled from the spec: the [PageManager] ([3page_manager/page_manager.h])
    is not under src.  It allocates contiguous page runs, fetches pages by
    address, takes runs back ([del]) and records the last-blob-page hint.
    The model keeps the hint and the runs handed out and taken back. *)
Record PageManager : Type := mkPageManager {
  m_last_blob_page : option Page;
  m_allocated_runs : list (Z * Z);
  m_deleted_runs : list (Z * Z)
}.

(** What the blob manager takes from its surroundings: the configuration of
    the environment, the constants of headers that are not under src, the
    record compressor of the database, the hash of [3rdparty/murmurhash3]
    and the placement policy of the page manager (the address it chooses
    for a new run of [n] pages). *)
Class Environment : Type := {
  page_size_bytes : Z;
  env_flags : Z;
  kPageOverhead : Z;
  HAM_PARTIAL : Z;
  HAM_FORCE_DEEP_COPY : Z;
  HAM_RECORD_USER_ALLOC : Z;
  HAM_ENABLE_CRC32 : Z;
  kDisableCompression : Z;
  kReadOnly : Z;
  kNoHeader : Z;
  get_record_compressor : option Compressor;
  MurmurHash3_x86_32 : list byte -> Z -> Z;
  place_run : PageManager -> Z -> Z
}.

(** ** PBlobHeader

    Modelled from the spec: [PBlobHeader] is declared in
    [3blob_manager/blob_manager.h], which is not under src.  The spec gives
    its persisted layout: [self] (u64), [size] (u64), [alloc_size] (u32) and
    [flags] (u32, bit 0 = compressed), little-endian, 24 bytes. *)
Record PBlobHeader : Type := mkBlobHeader {
  get_self : Z;
  get_size : Z;
  get_alloc_size : Z;
  get_flags : Z
}.

Definition sizeof_PBlobHeader : Z := 24.
Definition kIsCompressed : Z := 1.

Definition set_self (h : PBlobHeader) (v : Z) : PBlobHeader :=
  mkBlobHeader (u64 v) (get_size h) (get_alloc_size h) (get_flags h).
Definition set_size (h : PBlobHeader) (v : Z) : PBlobHeader :=
  mkBlobHeader (get_self h) (u64 v) (get_alloc_size h) (get_flags h).
Definition set_alloc_size (h : PBlobHeader) (v : Z) : PBlobHeader :=
  mkBlobHeader (get_self h) (get_size h) (u32 v) (get_flags h).
Definition set_flags (h : PBlobHeader) (v : Z) : PBlobHeader :=
  mkBlobHeader (get_self h) (get_size h) (get_alloc_size h) (u32 v).

(** The bytes of the struct, as [write_chunks] copies them. *)
Definition blob_header_bytes (h : PBlobHeader) : list byte :=
  le_encode 8 (get_self h) ++ le_encode 8 (get_size h) ++
  le_encode 4 (get_alloc_size h) ++ le_encode 4 (get_flags h).

(** ** The state of the store *)

(** What the blob manager reads and writes.  [raw_payload] holds the bytes
    of the file by file offset, as the pages' raw payloads expose them;
    blob headers live there, in the layout of [blob_header_bytes], and are
    read again through their address at every access.  [page_header] holds
    the [PBlobPageHeader] of the page at a page address as a typed value.
    In the source it lies in the bytes of the page, within its first
    [kPageOverhead] bytes, and the blob manager places blobs behind them.
    The model keeps the two stores apart: an update of a header leaves
    [raw_payload] as it is, and bytes written at an offset inside the
    header of a page leave [page_header] as it is; what is proved of page
    headers is proved for blobs and writes behind the page overhead.
    [dirty_pages] lists the addresses passed to [set_dirty], [record] is
    the caller's [ham_record_t], and [device] the state of the disk
    device. *)
Record World {platform : DiskDevice.Platform} : Type := mkWorld {
  raw_payload : Z -> byte;
  page_header : Z -> PBlobPageHeader;
  dirty_pages : list Z;
  page_manager : PageManager;
  device : DiskDevice.State;
  m_metric_before_compression : Z;
  m_metric_after_compression : Z;
  record : ham_record_t
}.

Section BlobManager.
Context {platform : DiskDevice.Platform} {environment : Environment}.

(** *** State and exceptions *)

Definition M (A : Type) : Type := World -> outcome A * World.

Definition ret {A} (a : A) : M A := fun w => (Return a, w).
Definition throw {A} (e : ham_status) : M A := fun w => (Throw e, w).
Definition diverge {A} : M A := fun w => (Diverge, w).
Definition bind {A B} (m : M A) (k : A -> M B) : M B :=
  fun w =>
    match m w with
    | (Return a, w') => k a w'
    | (Throw e, w') => (Throw e, w')
    | (Diverge, w') => (Diverge, w')
    end.

Local Notation "'let*' x ':=' m 'in' k" := (bind m (fun x => k))
  (at level 10, x pattern, m at level 200, k at level 200).

Definition gets {A} (f : World -> A) : M A := fun w => (Return (f w), w).
Definition modify (f : World -> World) : M unit := fun w => (Return tt, f w).

(** *** Memory *)

(** [n] bytes of the raw payload from file offset [a]. *)
Definition load_bytes (raw : Z -> byte) (a : Z) (n : nat) : list byte :=
  map (fun i => raw (a + Z.of_nat i)) (seq 0 n).

(** [memcpy] of [bs] to file offset [a]. *)
Definition store_bytes (raw : Z -> byte) (a : Z) (bs : list byte) : Z -> byte :=
  fun x =>
    if (a <=? x) && (x <? a + Z.of_nat (length bs))
    then nth (Z.to_nat (x - a)) bs x00
    else raw x.

Definition memcpy_to_page (a : Z) (bs : list byte) : M unit :=
  modify (fun w =>
    mkWorld _ (store_bytes (raw_payload w) a bs) (page_header w)
      (dirty_pages w) (page_manager w) (device w)
      (m_metric_before_compression w) (m_metric_after_compression w)
      (record w)).

Definition set_dirty (page : Page) : M unit :=
  modify (fun w =>
    mkWorld _ (raw_payload w) (page_header w)
      (get_address page :: dirty_pages w) (page_manager w) (device w)
      (m_metric_before_compression w) (m_metric_after_compression w)
      (record w)).

(** A [PBlobHeader *] into a page: each access reads the bytes that are
    in the page at that moment. *)
Definition blob_header_at (raw : Z -> byte) (p : Z) : PBlobHeader :=
  mkBlobHeader (le_decode (load_bytes raw p 8))
               (le_decode (load_bytes raw (p + 8) 8))
               (le_decode (load_bytes raw (p + 16) 4))
               (le_decode (load_bytes raw (p + 20) 4)).

Definition deref (p : Z) : M PBlobHeader :=
  gets (fun w => blob_header_at (raw_payload w) p).

(** [PBlobPageHeader::from_page(page)] and the accesses through it. *)
Definition from_page (page : Page) : Z := get_address page.

Definition header_get (header : Z) : M PBlobPageHeader :=
  gets (fun w => page_header w header).

Definition header_update (header : Z)
    (f : PBlobPageHeader -> PBlobPageHeader) : M unit :=
  modify (fun w =>
    mkWorld _ (raw_payload w)
      (fun a => if a =? header then f (page_header w a) else page_header w a)
      (dirty_pages w) (page_manager w) (device w)
      (m_metric_before_compression w) (m_metric_after_compression w)
      (record w)).

Definition get_record : M ham_record_t := gets record.

Definition update_record (f : ham_record_t -> ham_record_t) : M unit :=
  modify (fun w =>
    mkWorld _ (raw_payload w) (page_header w) (dirty_pages w)
      (page_manager w) (device w)
      (m_metric_before_compression w) (m_metric_after_compression w)
      (f (record w))).

(** *** The page manager *)

Definition update_page_manager (f : PageManager -> PageManager) : M unit :=
  modify (fun w =>
    mkWorld _ (raw_payload w) (page_header w) (dirty_pages w)
      (f (page_manager w)) (device w)
      (m_metric_before_compression w) (m_metric_after_compression w)
      (record w)).

Definition fetch (pageid : Z) (flags : Z) : M Page := ret (mkPage pageid).

Definition get_last_blob_page : M (option Page) :=
  gets (fun w => m_last_blob_page (page_manager w)).

Definition set_last_blob_page (page : option Page) : M unit :=
  update_page_manager (fun pm =>
    mkPageManager page (m_allocated_runs pm) (m_deleted_runs pm)).

Definition alloc_multiple_blob_pages (num_pages : Z) : M Page :=
  let* pm := gets page_manager in
  let address := place_run pm num_pages in
  let* _ := update_page_manager (fun pm =>
    mkPageManager (m_last_blob_page pm)
      ((address, num_pages) :: m_allocated_runs pm) (m_deleted_runs pm)) in
  ret (mkPage address).

Definition del (page : Page) (num_pages : Z) : M unit :=
  update_page_manager (fun pm =>
    mkPageManager (m_last_blob_page pm) (m_allocated_runs pm)
      ((get_address page, num_pages) :: m_deleted_runs pm)).

(** *** read_chunk, write_chunks, copy_chunk *)

(** [read_chunk]: the returned pointer, and the value of [*ppage] after
    the call ([ppage] is the value before it; a null [ppage] is a caller
    that ignores the second component). *)
Definition read_chunk (page : option Page) (ppage : option Page)
    (address : Z) (fetch_read_only : bool) : M (Z * option Page) :=
  let page_size := page_size_bytes in
  let pageid := u64 (address - address mod page_size) in
  let page :=
    match page with
    | Some p => if get_address p =? pageid then page else None
    | None => None
    end in
  let* (page, ppage) :=
    match page with
    | Some p => ret (p, ppage)
    | None =>
        let flags := 0 in
        let flags := if fetch_read_only then Z.lor flags kReadOnly else flags in
        let* p := fetch pageid flags in
        ret (p, Some p)
    end in
  let read_start := u32 (address - get_address page) in
  ret (get_address page + read_start, ppage).

(** The [while (size)] loop of [write_chunks] for one chunk.  Every
    iteration writes at least one byte when the page size is positive, so
    [size] iterations are enough. *)
Fixpoint write_chunk_loop (fuel : nat) (page : option Page) (address : Z)
    (data : list byte) (size : Z) : M (option Page * Z) :=
  if size =? 0 then ret (page, address)
  else
    match fuel with
    | O => diverge
    | S fuel' =>
        let page_size := page_size_bytes in
        let pageid := u64 (address - address mod page_size) in
        let page :=
          match page with
          | Some p => if get_address p =? pageid then page else None
          | None => None
          end in
        let* page :=
          match page with
          | Some p => ret p
          | None => fetch pageid kNoHeader
          end in
        let write_start := u32 (address - get_address page) in
        let write_size := u32 (page_size - write_start) in
        let write_size := if size <? write_size then size else write_size in
        let* _ := memcpy_to_page (get_address page + write_start)
                    (buffer_bytes write_size data) in
        let* _ := set_dirty page in
        write_chunk_loop fuel' (Some page) (u64 (address + write_size))
          (drop (Z.to_nat write_size) data) (u32 (size - write_size))
    end.

(** The [for] loop over the chunks. *)
Fixpoint write_chunks_loop (page : option Page) (address : Z)
    (chunks : list (list byte * Z)) : M unit :=
  match chunks with
  | [] => ret tt
  | (data, size) :: chunks' =>
      let* (page, address) :=
        write_chunk_loop (Z.to_nat size) page address data size in
      write_chunks_loop page address chunks'
  end.

Definition write_chunks (page : option Page) (address : Z)
    (chunks : list (list byte * Z)) : M unit :=
  write_chunks_loop page address chunks.

(** The [while (size)] loop of [copy_chunk]; [copied] are the bytes
    already stored to [data]. *)
Fixpoint copy_chunk_loop (fuel : nat) (page : option Page) (address : Z)
    (copied : list byte) (size : Z) (fetch_read_only first_page : bool)
  : M (list byte * option Page) :=
  if size =? 0 then ret (copied, page)
  else
    match fuel with
    | O => diverge
    | S fuel' =>
        let page_size := page_size_bytes in
        let pageid := u64 (address - address mod page_size) in
        let page :=
          match page with
          | Some p => if get_address p =? pageid then page else None
          | None => None
          end in
        let* page :=
          match page with
          | Some p => ret p
          | None =>
              let flags := 0 in
              let flags :=
                if fetch_read_only then Z.lor flags kReadOnly else flags in
              let flags :=
                if negb first_page then Z.lor flags kNoHeader else flags in
              fetch pageid flags
          end in
        let read_start := u32 (address - get_address page) in
        let read_size := u32 (page_size - read_start) in
        let read_size := if size <? read_size then size else read_size in
        let* bytes := gets (fun w =>
          load_bytes (raw_payload w) (get_address page + read_start)
            (Z.to_nat read_size)) in
        copy_chunk_loop fuel' (Some page) (u64 (address + read_size))
          (copied ++ bytes) (u32 (size - read_size)) fetch_read_only false
    end.

(** [copy_chunk]: the bytes stored to [data], and the value of [*ppage]
    after the call. *)
Definition copy_chunk (page : option Page) (address : Z) (size : Z)
    (fetch_read_only : bool) : M (list byte * option Page) :=
  copy_chunk_loop (Z.to_nat size) page address [] size fetch_read_only true.

(** *** check_integrity *)

(** [operator<] of [std::pair<uint32_t, uint32_t>] and [std::sort]. *)
Definition range_ltb (a b : Z * Z) : bool :=
  (a.1 <? b.1) || ((a.1 =? b.1) && (a.2 <? b.2)).

Fixpoint sort_insert (r : Z * Z) (ranges : list (Z * Z)) : list (Z * Z) :=
  match ranges with
  | [] => [r]
  | r' :: rest =>
      if range_ltb r' r then r' :: sort_insert r rest else r :: ranges
  end.

Definition sort_ranges (ranges : list (Z * Z)) : list (Z * Z) :=
  foldr sort_insert [] ranges.

(** The first loop: [n] iterations remain, [i] is the loop index. *)
Fixpoint collect_ranges (n : nat) (i : nat) (header : PBlobPageHeader)
    (total_sizes : Z) (ranges : list (Z * Z)) : Z * list (Z * Z) :=
  match n with
  | O => (total_sizes, ranges)
  | S n' =>
      if get_freelist_size header i =? 0 then
        collect_ranges n' (S i) header total_sizes ranges
      else
        collect_ranges n' (S i) header
          (u32 (total_sizes + get_freelist_size header i))
          (ranges ++ [(get_freelist_offset header i,
                       get_freelist_size header i)])
  end.

(** The second loop, over [ranges[i]] and [ranges[i + 1]]. *)
Fixpoint check_ranges (header : PBlobPageHeader) (ranges : list (Z * Z))
  : outcome bool :=
  match ranges with
  | r :: ((r' :: _) as rest) =>
      if u32 (page_size_bytes * get_num_pages header) <? u32 (r.1 + r.2)
      then Return false
      else if r'.1 <? u32 (r.1 + r.2) then Throw HAM_INTEGRITY_VIOLATED
      else check_ranges header rest
  | _ => Return true
  end.

Definition check_integrity (header : PBlobPageHeader) : outcome bool :=
  if u32 (page_size_bytes * get_num_pages header)
       <? u32 (get_free_bytes header + kPageOverhead)
  then Return false
  else if 1 <? get_num_pages header then Return true
  else
    let count := Z.of_nat (get_freelist_entries header) in
    let '(total_sizes, ranges) :=
      collect_ranges (Z.to_nat (u32 (count - 1))) 0 header 0 [] in
    if get_free_bytes header <? total_sizes then Return false
    else check_ranges header (sort_ranges ranges).

(** *** do_allocate *)

(** The zero-filling [while (gapsize)] loops of [do_allocate]; [strict]
    tells the two comparisons of the source apart ([gapsize >= page_size]
    in the first loop, [gapsize > page_size] in the second). *)
Fixpoint fill_gap_loop (fuel : nat) (strict : bool) (page : Page)
    (address : Z) (gapsize : Z) : M Z :=
  if gapsize =? 0 then ret address
  else
    match fuel with
    | O => diverge
    | S fuel' =>
        let page_size := page_size_bytes in
        let size :=
          if (if strict then page_size <? gapsize else page_size <=? gapsize)
          then page_size else gapsize in
        let zeroes := replicate (Z.to_nat size) x00 in
        let* _ := write_chunks (Some page) address [(zeroes, size)] in
        fill_gap_loop fuel' strict page (u64 (address + size))
          (u32 (gapsize - size))
    end.

Definition add_metric_before_compression (n : Z) : M unit :=
  modify (fun w =>
    mkWorld _ (raw_payload w) (page_header w) (dirty_pages w)
      (page_manager w) (device w)
      (u64 (m_metric_before_compression w + n))
      (m_metric_after_compression w) (record w)).

Definition add_metric_after_compression (n : Z) : M unit :=
  modify (fun w =>
    mkWorld _ (raw_payload w) (page_header w) (dirty_pages w)
      (page_manager w) (device w)
      (m_metric_before_compression w)
      (u64 (m_metric_after_compression w + n)) (record w)).

(** [do_allocate] is given in parts, in the order of the source: the
    compression of the record, the choice of the space (the freelist of
    the last blob page, else a new page run, then the update of the
    free-bytes counter and of the last-blob-page hint), and the writing
    of the header and of the data. *)

(** [record_data] and [record_size]. *)
Definition do_allocate_compress (flags : Z) (record : ham_record_t)
  : M (list byte * Z) :=
  let record_data := data_bytes (rec_data record) in
  let record_size := rec_size record in
  (* compression enabled? then try to compress the data *)
  match get_record_compressor with
  | Some compressor =>
      if negb (has_flag flags kDisableCompression) then
        let* _ := add_metric_before_compression record_size in
        let output :=
          compress compressor
            (buffer_bytes (rec_size record) (data_bytes (rec_data record))) in
        let len := u32 (Z.of_nat (length output)) in
        let (record_data, record_size) :=
          if len <? rec_size record then (output, len)
          else (record_data, record_size) in
        let* _ := add_metric_after_compression record_size in
        ret (record_data, record_size)
      else ret (record_data, record_size)
  | None => ret (record_data, record_size)
  end.

(** The attempt to add the blob to the last used page: [page] and
    [address] after it. *)
Definition do_allocate_from_freelist (alloc_size : Z)
  : M (option Page * Z) :=
  (* first check if we can add another blob to the last used page *)
  let* page := get_last_blob_page in
  let address := 0 in
  match page with
  | Some p =>
      let header := from_page p in
      let* h := header_get header in
      let '(found, address, h) := alloc_from_freelist h alloc_size address in
      let* _ := header_update header (fun _ => h) in
      if negb found then ret (None, address)
      else ret (Some p, u64 (address + get_address p))
  | None => ret (None, address)
  end.

(** The allocation of a new page run (the body of [if (!address)]). *)
Definition do_allocate_new_run (flags : Z) (record : ham_record_t)
    (alloc_size : Z) : M (Page * Z) :=
  let page_size := page_size_bytes in
  let required_size := u32 (alloc_size + kPageOverhead) in
  let num_pages := required_size / page_size in
  let num_pages :=
    if u32 (num_pages * page_size) <? required_size
    then u32 (num_pages + 1) else num_pages in
  let* page := alloc_multiple_blob_pages num_pages in
  (* initialize the PBlobPageHeader *)
  let header := from_page page in
  let* _ := header_update header initialize in
  let* _ := header_update header (fun h => set_num_pages h num_pages) in
  let* _ := header_update header (fun h =>
    set_free_bytes h (u32 (num_pages * page_size) - kPageOverhead)) in
  (* and move the remaining space to the freelist *)
  let* h := header_get header in
  let* _ :=
    if (num_pages =? 1)
       && (0 <? u32 (kPageOverhead + alloc_size))
       && (0 <? u32 (get_free_bytes h - alloc_size))
    then
      let* _ := header_update header (fun h =>
        set_freelist_offset h 0 (kPageOverhead + alloc_size)) in
      header_update header (fun h =>
        set_freelist_size h 0 (get_free_bytes h - alloc_size))
    else ret tt in
  (* multi-page blobs store their CRC in the first freelist offset *)
  let* _ :=
    if (1 <? num_pages) && has_flag env_flags HAM_ENABLE_CRC32 then
      let crc32 :=
        if negb (has_flag flags HAM_PARTIAL)
        then u32 (MurmurHash3_x86_32
                    (buffer_bytes (rec_size record)
                       (data_bytes (rec_data record)))
                    0)
        else 0 in
      header_update header (fun h => set_freelist_offset h 0 crc32)
    else ret tt in
  ret (page, u64 (get_address page + kPageOverhead)).

(** The update of the free-bytes counter and of the last-blob-page
    hint. *)
Definition do_allocate_account (page : Page) (alloc_size : Z) : M unit :=
  let header := from_page page in
  (* adjust the "free bytes" counter *)
  let* _ := header_update header (fun h =>
    set_free_bytes h (get_free_bytes h - alloc_size)) in
  (* store the page id if it still has space left *)
  let* h := header_get header in
  if negb (get_free_bytes h =? 0) then set_last_blob_page (Some page)
  else set_last_blob_page None.

(** [page] and [address]. *)
Definition do_allocate_space (flags : Z) (record : ham_record_t)
    (alloc_size : Z) : M (Page * Z) :=
  let* (page, address) := do_allocate_from_freelist alloc_size in
  let* (page, address) :=
    match page, address =? 0 with
    | Some p, false => ret (p, address)
    | _, _ => do_allocate_new_run flags record alloc_size
    end in
  let* _ := do_allocate_account page alloc_size in
  ret (page, address).

(** The writes of the blob header, of the data and of the zero gaps of a
    partial write. *)
Definition do_allocate_write (flags : Z) (record : ham_record_t)
    (record_data : list byte) (record_size : Z) (page : Page) (address : Z)
    (blob_header : PBlobHeader) : M unit :=
  let* address :=
    if has_flag flags HAM_PARTIAL && (0 <? rec_partial_offset record) then
      let gapsize := rec_partial_offset record in
      (* first: write the header *)
      let* _ := write_chunks (Some page) address
                  [(blob_header_bytes blob_header, sizeof_PBlobHeader)] in
      let address := u64 (address + sizeof_PBlobHeader) in
      (* now fill the gap *)
      let* address :=
        fill_gap_loop (Z.to_nat gapsize) false page address gapsize in
      (* now write the "real" data *)
      let* _ := write_chunks (Some page) address
                  [(data_bytes (rec_data record), rec_partial_size record)] in
      ret (u64 (address + rec_partial_size record))
    else
      (* not writing partially: write header and data, then we're done *)
      let chunk_size_1 :=
        if has_flag flags HAM_PARTIAL then rec_partial_size record
        else record_size in
      let* _ := write_chunks (Some page) address
                  [(blob_header_bytes blob_header, sizeof_PBlobHeader);
                   (record_data, chunk_size_1)] in
      ret (u64 (address + u32 (sizeof_PBlobHeader + chunk_size_1))) in
  (* gaps at the end of the blob *)
  if has_flag flags HAM_PARTIAL then
    if u32 (rec_partial_offset record + rec_partial_size record)
         <? rec_size record
    then
      let gapsize :=
        u32 (rec_size record
             - u32 (rec_partial_offset record + rec_partial_size record)) in
      let* _ :=
        fill_gap_loop (Z.to_nat gapsize) true page address gapsize in
      ret tt
    else ret tt
  else ret tt.

Definition do_allocate (flags : Z) : M Z :=
  let* record := get_record in
  let original_size := rec_size record in
  let* (record_data, record_size) := do_allocate_compress flags record in
  let blob_header := mkBlobHeader 0 0 0 0 in
  let alloc_size := u32 (sizeof_PBlobHeader + record_size) in
  let* (page, address) := do_allocate_space flags record alloc_size in
  (* initialize the blob header *)
  let blob_header := set_alloc_size blob_header alloc_size in
  let blob_header := set_size blob_header original_size in
  let blob_header := set_self blob_header address in
  let blob_header :=
    set_flags blob_header
      (if negb (original_size =? record_size) then kIsCompressed else 0) in
  let* _ := do_allocate_write flags record record_data record_size page
              address blob_header in
  (* store the blobid; it will be returned to the caller *)
  let blobid := get_self blob_header in
  ret blobid.

(** *** do_read *)

Definition set_rec_size (v : Z) (r : ham_record_t) : ham_record_t :=
  mkRecord (u32 v) (rec_data r) (rec_flags r) (rec_partial_offset r)
    (rec_partial_size r).
Definition set_rec_data (v : option (list byte)) (r : ham_record_t)
  : ham_record_t :=
  mkRecord (rec_size r) v (rec_flags r) (rec_partial_offset r)
    (rec_partial_size r).
Definition set_rec_partial_size (v : Z) (r : ham_record_t) : ham_record_t :=
  mkRecord (rec_size r) (rec_data r) (rec_flags r) (rec_partial_offset r)
    (u32 v).

(** Storing [bytes] at the start of the caller's buffer. *)
Definition store_to_buffer (bytes : list byte) (buffer : option (list byte))
  : option (list byte) :=
  Some (bytes ++ drop (length bytes) (data_bytes buffer)).

(** [do_read] is given in three parts, in the order of the source: the
    header and the effective size (up to the clamping of partial reads),
    the transfer of the data, and the CRC check. *)

(** The pointer to the blob header, the page, and [blobsize]. *)
Definition do_read_blobsize (blobid : Z) (flags : Z)
  : M (Z * option Page * Z) :=
  (* first step: read the blob header *)
  let* (blob_header, page) := read_chunk None None blobid true in
  (* sanity check *)
  let* hdr := deref blob_header in
  if negb (get_self hdr =? blobid) then throw HAM_BLOB_NOT_FOUND
  else
  let* hdr := deref blob_header in
  let blobsize := u32 (get_size hdr) in
  let* _ := update_record (set_rec_size blobsize) in
  let* record := get_record in
  let* blobsize :=
    if has_flag flags HAM_PARTIAL then
      if blobsize <? rec_partial_offset record then throw HAM_INV_PARAMETER
      else if blobsize
                <? u32 (rec_partial_offset record + rec_partial_size record)
      then
        let blobsize := u32 (blobsize - rec_partial_offset record) in
        let* _ := update_record (set_rec_partial_size blobsize) in
        ret blobsize
      else ret (rec_partial_size record)
    else ret blobsize in
  ret (blob_header, page, blobsize).

(** The end of the buffer of the page at [pageid].  Modelled from the
    spec: the [PageManager] is not under src; its pages get their buffers
    from [DiskDevice::read_page], which hands out a borrow into the mapping
    (the [mapped_size] bytes from file offset 0) for a page below
    [mapped_size] of a device that holds a mapping, and a heap buffer of
    one page otherwise. *)
Definition buffer_end (dev : DiskDevice.State) (pageid : Z) : Z :=
  if (pageid <? DiskDevice.mapped_size dev)
     && match DiskDevice.mmapptr dev with Some _ => true | None => false end
  then DiskDevice.mapped_size dev
  else pageid + page_size_bytes.

(** The transfer of [blobsize] bytes to [record->data].  On the zero-copy
    path [record->data] is a pointer into the buffer of one page; the
    [blobsize] bytes behind it are the data of the record as long as they
    lie in that buffer, and reading past its end is undefined.  The source
    reads a compressed blob with a call [read_chunk(page, 0, address, db,
    data, size, true)], for which the file has no definition; the call is
    taken as the [copy_chunk] of that address and size. *)
Definition do_read_data (blobid : Z) (flags : Z) (blob_header : Z)
    (page : option Page) (blobsize : Z) : M unit :=
  let* record := get_record in
  let* hdr := deref blob_header in
  let* dev := gets device in
  if negb (has_flag flags HAM_FORCE_DEEP_COPY)
     && DiskDevice.is_mapped dev blobid blobsize
     && negb (has_flag (get_flags hdr) kIsCompressed)
     && negb (has_flag (rec_flags record) HAM_RECORD_USER_ALLOC)
  then
    (* the blob is in memory-mapped storage: simply return a pointer *)
    let address :=
      u64 (blobid + sizeof_PBlobHeader
           + (if has_flag flags HAM_PARTIAL
              then rec_partial_offset record else 0)) in
    let* (p, _) := read_chunk page None address true in
    (* the pointer lies in the buffer of the page of [address] *)
    let pageid := u64 (address - address mod page_size_bytes) in
    if p + blobsize <=? buffer_end dev pageid then
      let* bytes := gets (fun w =>
        load_bytes (raw_payload w) p (Z.to_nat blobsize)) in
      update_record (set_rec_data (Some bytes))
    else diverge
  else
    (* otherwise copy the blob data into the buffer *)
    if has_flag (get_flags hdr) kIsCompressed then
      match get_record_compressor with
      | None => diverge
      | Some compressor =>
          (* read into the compressor's arena *)
          let* (dest, _) :=
            copy_chunk page (u64 (blobid + sizeof_PBlobHeader))
              (u32 (u64 (get_alloc_size hdr - sizeof_PBlobHeader))) true in
          (* now uncompress into the caller's memory arena *)
          let plain := decompress compressor dest blobsize in
          if has_flag (rec_flags record) HAM_RECORD_USER_ALLOC then
            update_record (fun r =>
              set_rec_data (store_to_buffer plain (rec_data r)) r)
          else update_record (set_rec_data (Some plain))
      end
    else
      (* uncompressed: read into the allocated buffer *)
      let* (bytes, _) :=
        copy_chunk page
          (u64 (blobid + sizeof_PBlobHeader
                + (if has_flag flags HAM_PARTIAL
                   then rec_partial_offset record else 0)))
          blobsize true in
      if negb (has_flag (rec_flags record) HAM_RECORD_USER_ALLOC) then
        update_record (set_rec_data (Some bytes))
      else
        update_record (fun r =>
          set_rec_data (store_to_buffer bytes (rec_data r)) r).

(** Multi-page blobs store their CRC in the first freelist offset. *)
Definition do_read_verify (flags : Z) (page : option Page) : M unit :=
  match page with
  | None => diverge
  | Some page =>
      let header := from_page page in
      let* h := header_get header in
      if (1 <? get_num_pages h) && has_flag env_flags HAM_ENABLE_CRC32
         && negb (has_flag flags HAM_PARTIAL)
      then
        let old_crc32 := u32 (get_freelist_offset h 0) in
        let* record := get_record in
        let new_crc32 :=
          u32 (MurmurHash3_x86_32
                 (buffer_bytes (rec_size record)
                    (data_bytes (rec_data record)))
                 0) in
        if negb (old_crc32 =? new_crc32) then throw HAM_INTEGRITY_VIOLATED
        else ret tt
      else ret tt
  end.

Definition do_read (blobid : Z) (flags : Z) : M unit :=
  let* (blob_header, page, blobsize) := do_read_blobsize blobid flags in
  (* empty blob? *)
  if blobsize =? 0 then
    let* _ := update_record (set_rec_data None) in
    update_record (set_rec_size 0)
  else
    let* _ := do_read_data blobid flags blob_header page blobsize in
    do_read_verify flags page.

(** *** do_get_blob_size *)

Definition do_get_blob_size (blobid : Z) : M Z :=
  let* (blob_header, _) := read_chunk None None blobid true in
  let* hdr := deref blob_header in
  if negb (get_self hdr =? blobid) then throw HAM_BLOB_NOT_FOUND
  else
    let* hdr := deref blob_header in
    ret (get_size hdr).

(** *** do_erase *)

Definition do_erase (blobid : Z) (page : option Page) (flags : Z) : M unit :=
  (* fetch the blob header *)
  let* (blob_header, page) := read_chunk None page blobid false in
  (* sanity check *)
  let* hdr := deref blob_header in
  if negb (get_self hdr =? blobid) then throw HAM_BLOB_NOT_FOUND
  else
  match page with
  | None => diverge
  | Some page =>
      (* update the "free bytes" counter in the blob page header *)
      let header := from_page page in
      let* hdr := deref blob_header in
      let* _ := header_update header (fun h =>
        set_free_bytes h (get_free_bytes h + get_alloc_size hdr)) in
      (* if the page is now completely empty then move it to the freelist *)
      let* h := header_get header in
      if get_free_bytes h
           =? u32 (u32 (get_num_pages h * page_size_bytes) - kPageOverhead)
      then
        let* _ := set_last_blob_page None in
        let* h := header_get header in
        let* _ := del page (get_num_pages h) in
        header_update header initialize
      else
        (* otherwise move the blob to the freelist *)
        let* hdr := deref blob_header in
        header_update header (fun h =>
          add_to_freelist h (u32 (blobid - get_address page))
            (u32 (get_alloc_size hdr)))
  end.

(** *** do_overwrite *)

(** Modelled from the spec: [allocate] and [erase] are the entry points of
    the [BlobManager] base class ([3blob_manager/blob_manager.h], not
    under src); they hand over to [do_allocate] and [do_erase]. *)
Definition allocate (flags : Z) : M Z := do_allocate flags.
Definition erase (blobid : Z) (page : option Page) (flags : Z) : M unit :=
  do_erase blobid page flags.

Definition do_overwrite (old_blobid : Z) (flags : Z) : M Z :=
  let* record := get_record in
  let alloc_size := u32 (sizeof_PBlobHeader + rec_size record) in
  (* first, read the blob header *)
  let* (old_blob_header, page) := read_chunk None None old_blobid false in
  (* sanity check *)
  let* old := deref old_blob_header in
  if negb (get_self old =? old_blobid) then throw HAM_BLOB_NOT_FOUND
  else
  (* does the new data fit in the old allocated space? *)
  let* old := deref old_blob_header in
  if alloc_size <=? get_alloc_size old then
    match page with
    | None => diverge
    | Some page =>
        (* setup the new blob header *)
        let new_blob_header := mkBlobHeader 0 0 0 0 in
        let* old := deref old_blob_header in
        let new_blob_header := set_self new_blob_header (get_self old) in
        let new_blob_header := set_size new_blob_header (rec_size record) in
        let new_blob_header := set_alloc_size new_blob_header alloc_size in
        let new_blob_header := set_flags new_blob_header 0 in
        let* _ :=
          if has_flag flags HAM_PARTIAL
             && negb (rec_partial_offset record =? 0)
          then
            let* _ := write_chunks (Some page) (get_self new_blob_header)
                        [(blob_header_bytes new_blob_header,
                          sizeof_PBlobHeader)] in
            write_chunks (Some page)
              (u64 (get_self new_blob_header + sizeof_PBlobHeader
                    + rec_partial_offset record))
              [(data_bytes (rec_data record), rec_partial_size record)]
          else
            write_chunks (Some page) (get_self new_blob_header)
              [(blob_header_bytes new_blob_header, sizeof_PBlobHeader);
               (data_bytes (rec_data record),
                if has_flag flags HAM_PARTIAL then rec_partial_size record
                else rec_size record)] in
        let header := from_page page in
        (* move remaining data to the freelist *)
        let* old := deref old_blob_header in
        let* _ :=
          if alloc_size <? get_alloc_size old then
            let* old := deref old_blob_header in
            let* _ := header_update header (fun h =>
              set_free_bytes h
                (get_free_bytes h + u32 (get_alloc_size old - alloc_size))) in
            let* old := deref old_blob_header in
            header_update header (fun h =>
              add_to_freelist h
                (u32 (u32 (old_blobid + alloc_size) - get_address page))
                (u32 (u32 (get_alloc_size old) - alloc_size)))
          else ret tt in
        (* multi-page blobs store their CRC in the first freelist offset *)
        let* h := header_get header in
        let* _ :=
          if (1 <? get_num_pages h) && has_flag env_flags HAM_ENABLE_CRC32
          then
            let crc32 :=
              if negb (has_flag flags HAM_PARTIAL)
              then u32 (MurmurHash3_x86_32
                          (buffer_bytes (rec_size record)
                             (data_bytes (rec_data record)))
                          0)
              else 0 in
            header_update header (fun h => set_freelist_offset h 0 crc32)
          else ret tt in
        (* the old rid is the new rid *)
        ret (get_self new_blob_header)
    end
  else
    (* allocate a fresh space and discard the old *)
    let* new_blobid := allocate flags in
    let* _ := erase old_blobid None 0 in
    ret new_blobid.

End BlobManager.

(** ** Relations between states *)

(** [w'] differs from [w] at most in the raw payload of the pages and in
    their dirty marks. *)
Definition same_but_payload {platform : DiskDevice.Platform} (w w' : World)
  : Prop :=
  page_header w' = page_header w
  /\ page_manager w' = page_manager w
  /\ device w' = device w
  /\ m_metric_before_compression w' = m_metric_before_compression w
  /\ m_metric_after_compression w' = m_metric_after_compression w
  /\ record w' = record w.

(** [w] with the caller's record replaced. *)
Definition with_record {platform : DiskDevice.Platform} (w : World)
    (r : ham_record_t) : World :=
  mkWorld _ (raw_payload w) (page_header w) (dirty_pages w) (page_manager w)
    (device w) (m_metric_before_compression w) (m_metric_after_compression w)
    r.

(** The blob header that the page bytes hold at file offset [b]. *)
Definition stored_header {platform : DiskDevice.Platform} (w : World) (b : Z)
  : PBlobHeader :=
  blob_header_at (raw_payload w) b.

(** The zero-copy path of [do_read] stays inside a buffer: when the device
    reports the [size] bytes of the blob at [blobid] as mapped, the [size]
    bytes at [start] lie in the buffer of the page of [start]. *)
Definition zero_copy_in_bounds {platform : DiskDevice.Platform}
    {environment : Environment} (dev : DiskDevice.State)
    (blobid start size : Z) : Prop :=
  DiskDevice.is_mapped dev blobid size = true ->
  start + size <= buffer_end dev (start - start mod page_size_bytes).

(** A header whose fields fit their widths. *)
Definition blob_header_fits (h : PBlobHeader) : Prop :=
  is_u64 (get_self h) /\ is_u64 (get_size h)
  /\ is_u32 (get_alloc_size h) /\ is_u32 (get_flags h).

(** What [do_allocate] stores as the payload of a record: the compressed
    bytes when a compressor is in use and makes the record shorter, else
    the bytes of the record. *)
Definition stored_payload {environment : Environment} (flags : Z)
    (r : ham_record_t) : list byte * Z :=
  let plain := (data_bytes (rec_data r), rec_size r) in
  match get_record_compressor with
  | Some compressor =>
      if negb (has_flag flags kDisableCompression) then
        let output :=
          compress compressor
            (buffer_bytes (rec_size r) (data_bytes (rec_data r))) in
        let len := u32 (Z.of_nat (length output)) in
        if len <? rec_size r then (output, len) else plain
      else plain
  | None => plain
  end.

(** The number of bytes that [do_allocate] writes behind the blob header:
    the data (behind the leading gap of a partial write) and the trailing
    gap of a partial write. *)
Definition written_extent {environment : Environment} (flags : Z)
    (r : ham_record_t) (record_size : Z) : Z :=
  let partial := has_flag flags HAM_PARTIAL in
  let lead :=
    if partial && (0 <? rec_partial_offset r)
    then rec_partial_offset r + rec_partial_size r
    else if partial then rec_partial_size r else record_size in
  let trail :=
    if partial
       && (u32 (rec_partial_offset r + rec_partial_size r) <? rec_size r)
    then u32 (rec_size r - u32 (rec_partial_offset r + rec_partial_size r))
    else 0 in
  lead + trail.

(** The number of pages of the run that [do_allocate] requests for a blob
    of [alloc_size] bytes. *)
Definition run_pages {environment : Environment} (alloc_size : Z) : Z :=
  let required_size := u32 (alloc_size + kPageOverhead) in
  let num_pages := required_size / page_size_bytes in
  if u32 (num_pages * page_size_bytes) <? required_size
  then u32 (num_pages + 1) else num_pages.

(** The state is ready for an allocation of [alloc_size] bytes: the header
    overhead lies inside a page; the last blob page, if there is one, is
    page-aligned, has a header of 32-bit fields and freelist slots inside
    the page; and the run that the page manager would hand out is
    page-aligned and has a header with a freelist. *)
Definition allocation_ready {platform : DiskDevice.Platform}
    {environment : Environment} (w : World) (alloc_size : Z) : Prop :=
  0 <= kPageOverhead < page_size_bytes
  /\ (forall p, m_last_blob_page (page_manager w) = Some p ->
        0 <= get_address p < 2 ^ 62
        /\ get_address p mod page_size_bytes = 0
        /\ header_u32 (page_header w (get_address p))
        /\ Forall (fun e => e.1 + e.2 <= page_size_bytes)
             (m_freelist (page_header w (get_address p))))
  /\ (let a := place_run (page_manager w) (run_pages alloc_size) in
      0 <= a < 2 ^ 62
      /\ a mod page_size_bytes = 0
      /\ (0 < length (m_freelist (page_header w a)))%nat).

(** The fields of the record are 32-bit values, and the sizes that
    [do_allocate] adds to the size of the blob header stay below [2^32]. *)
Definition record_fits (r : ham_record_t) : Prop :=
  is_u32 (rec_size r) /\ is_u32 (rec_partial_offset r)
  /\ is_u32 (rec_partial_size r)
  /\ sizeof_PBlobHeader + rec_size r < 2 ^ 32
  /\ sizeof_PBlobHeader + rec_partial_size r < 2 ^ 32.

(** The first [size] bytes behind [record->data]. *)
Definition record_bytes (r : ham_record_t) : list byte :=
  buffer_bytes (rec_size r) (data_bytes (rec_data r)).

(** The compressor handles [data]: the length of its output fits 32 bits,
    and [decompress] restores [data] when [compress] made it shorter. *)
Definition compressor_round_trip (c : Compressor) (data : list byte) : Prop :=
  is_u32 (Z.of_nat (length (compress c data)))
  /\ ((length (compress c data) < length data)%nat ->
      decompress c (compress c data) (Z.of_nat (length data)) = data).

(** The blob at [blobid], of [alloc_size] bytes, is in [w2] as it was in
    [w1]: its bytes are the same, and so are, in the header of its page,
    the page count and, for a multi-page run, the first freelist offset
    (the CRC). *)
Definition blob_preserved {platform : DiskDevice.Platform}
    {environment : Environment} (w1 w2 : World) (blobid alloc_size : Z)
  : Prop :=
  let page := blobid - blobid mod page_size_bytes in
  (forall x, blobid <= x < blobid + alloc_size ->
             raw_payload w2 x = raw_payload w1 x)
  /\ get_num_pages (page_header w2 page) = get_num_pages (page_header w1 page)
  /\ (1 < get_num_pages (page_header w1 page) ->
      get_freelist_offset (page_header w2 page) 0
      = get_freelist_offset (page_header w1 page) 0).

(** The header of the blob at [b] lies in no free space that an allocation
    of [alloc_size] bytes could use: in no non-empty freelist slot of the
    last blob page, and not in the run that the page manager would hand
    out. *)
Definition outside_free_space {platform : DiskDevice.Platform}
    {environment : Environment} (w : World) (b alloc_size : Z) : Prop :=
  (forall p,
     m_last_blob_page (page_manager w) = Some p ->
     Forall (fun e => 0 < e.2 ->
               get_address p + e.1 + e.2 <= b
               \/ b + sizeof_PBlobHeader <= get_address p + e.1)
       (m_freelist (page_header w (get_address p))))
  /\ (let n := run_pages alloc_size in
      let a := place_run (page_manager w) n in
      a + n * page_size_bytes <= b \/ b + sizeof_PBlobHeader <= a).

(** A partial write stays inside the record and is not compressed. *)
Definition partial_write_plain {environment : Environment} (flags : Z)
    (r : ham_record_t) : Prop :=
  has_flag flags HAM_PARTIAL = true ->
  rec_partial_offset r + rec_partial_size r <= rec_size r
  /\ (stored_payload flags r).2 = rec_size r.

(** The bytes and the total size of the chunks of one [write_chunks]. *)
Definition chunks_bytes (chunks : list (list byte * Z)) : list byte :=
  flat_map (fun c => buffer_bytes c.2 c.1) chunks.

Definition chunks_size (chunks : list (list byte * Z)) : Z :=
  foldr (fun c acc => c.2 + acc) 0 chunks.

(** The configuration is sound: the page size is a positive 32-bit number
    and the overhead of a header page leaves room for a blob header. *)
Definition page_size_ok {environment : Environment} : Prop :=
  0 < page_size_bytes < 2 ^ 32.

(** ** What the specification says of a page-run header *)

(** The freelist slots in use. *)
Definition nonempty_slots (h : PBlobPageHeader) : list (Z * Z) :=
  filter (fun e => e.2 <> 0) (m_freelist h).

Definition sum_of_sizes (slots : list (Z * Z)) : Z :=
  foldr (fun e acc => e.2 + acc) 0 slots.

(** The words of the spec for a single-page run: the sum of the non-empty
    freelist sizes is at most [free_bytes], no two slots overlap, and no
    slot extends past [num_pages * page_size]. *)
Definition spec_single_page_integrity (page_size : Z) (h : PBlobPageHeader)
  : Prop :=
  sum_of_sizes (nonempty_slots h) <= get_free_bytes h
  /\ (forall i j a b, i <> j ->
        nonempty_slots h !! i = Some a -> nonempty_slots h !! j = Some b ->
        a.1 + a.2 <= b.1 \/ b.1 + b.2 <= a.1)
  /\ (forall e, e ∈ nonempty_slots h ->
        e.1 + e.2 <= get_num_pages h * page_size).

(** ** A sample configuration

    Concrete collaborators, used to run the model: a file held in memory,
    a compressor that strips trailing zero bytes, a byte sum in place of
    the hash, and a page manager that places every new run behind the runs
    it has handed out. *)

Module Sample.

Definition pread (f : list byte) (offset len : Z)
  : DiskDevice.ups_status + list byte :=
  if offset + len <=? Z.of_nat (length f)
  then inr (take (Z.to_nat len) (drop (Z.to_nat offset) f))
  else inl DiskDevice.UPS_IO_ERROR.

(** A platform whose [mmap] works. *)
Definition mapping_platform : DiskDevice.Platform :=
  {| DiskDevice.File := list byte;
     DiskDevice.uninitialized := fun _ => xcd;
     DiskDevice.file_open := fun f _ => inr f;
     DiskDevice.get_file_size := fun f => Z.of_nat (length f);
     DiskDevice.get_granularity := 4096;
     DiskDevice.file_mmap := fun f _ size _ => inr (take (Z.to_nat size) f);
     DiskDevice.file_pread := pread;
     DiskDevice.aes_decrypt := fun _ _ bytes => bytes;
     DiskDevice.UPS_READ_ONLY := 4;
     DiskDevice.UPS_DISABLE_MMAP := 512 |}.

(** A platform whose [mmap] fails. *)
Definition failing_mmap_platform : DiskDevice.Platform :=
  {| DiskDevice.File := list byte;
     DiskDevice.uninitialized := fun _ => xcd;
     DiskDevice.file_open := fun f _ => inr f;
     DiskDevice.get_file_size := fun f => Z.of_nat (length f);
     DiskDevice.get_granularity := 4096;
     DiskDevice.file_mmap := fun _ _ _ _ => inl DiskDevice.UPS_IO_ERROR;
     DiskDevice.file_pread := pread;
     DiskDevice.aes_decrypt := fun _ _ bytes => bytes;
     DiskDevice.UPS_READ_ONLY := 4;
     DiskDevice.UPS_DISABLE_MMAP := 512 |}.

Definition device_config : DiskDevice.Config :=
  DiskDevice.mkConfig 4096 0 false [].

(** A file of two pages. *)
Definition two_pages : list byte := replicate (Z.to_nat 8192) x2a.

Definition closed_device (platform : DiskDevice.Platform)
    (f : @DiskDevice.File platform) : DiskDevice.State :=
  DiskDevice.mkState f None 0 0 0.

(** The device after [open] of the two-page file, when [mmap] failed and
    when it worked. *)
Definition unmapped_device : @DiskDevice.State failing_mmap_platform :=
  @DiskDevice.mkState failing_mmap_platform two_pages None 8192 8192 0.

Definition mapped_device : @DiskDevice.State mapping_platform :=
  @DiskDevice.mkState mapping_platform two_pages (Some two_pages) 8192 8192 0.

(** A page object that has no buffer yet. *)
Definition fresh_page : DiskDevice.Page := DiskDevice.mkPage DiskDevice.NoBuffer 0.

(** Strips the zero bytes at the end. *)
Fixpoint strip_zeros (bs : list byte) : list byte :=
  match bs with
  | [] => []
  | b :: bs' =>
      match strip_zeros bs' with
      | [] => if Byte.eqb b x00 then [] else [b]
      | rest => b :: rest
      end
  end.

Definition zero_stripper : Compressor :=
  mkCompressor strip_zeros
    (fun bs n => bs ++ replicate (Z.to_nat n - length bs) x00).

Definition byte_sum (bs : list byte) (seed : Z) : Z :=
  u32 (foldr (fun b acc => Z_of_byte b + acc) seed bs).

Definition pages_handed_out (pm : PageManager) : Z :=
  foldr (fun run acc => run.2 + acc) 0 (m_allocated_runs pm).

Definition environment (compressor : option Compressor) (flags : Z)
  : Environment :=
  {| page_size_bytes := 1024;
     env_flags := flags;
     kPageOverhead := 281;
     HAM_PARTIAL := 128;
     HAM_FORCE_DEEP_COPY := 1048576;
     HAM_RECORD_USER_ALLOC := 1;
     HAM_ENABLE_CRC32 := 33554432;
     kDisableCompression := 268435456;
     kReadOnly := 1;
     kNoHeader := 4;
     get_record_compressor := compressor;
     MurmurHash3_x86_32 := byte_sum;
     place_run := fun pm _ => 1024 * (1 + pages_handed_out pm) |}.

(** A header of 32 slots whose only slot in use is the last one. *)
Definition last_slot_header : PBlobPageHeader :=
  mkPageHeader 1 100 (replicate 31 (0, 0) ++ [(900, 400)]).

(** A header of 32 slots whose only slot in use is the first one. *)
Definition past_end_header : PBlobPageHeader :=
  mkPageHeader 1 100 ((1000, 50) :: replicate 31 (0, 0)).

(** A header with three slots in use. *)
Definition three_slot_header : PBlobPageHeader :=
  mkPageHeader 1 300
    ((300, 40) :: (400, 100) :: (600, 160) :: replicate 29 (0, 0)).

(** A store without blobs, over the mapped two-page file, with the
    caller's record [r]. *)
Definition blank_header : PBlobPageHeader :=
  mkPageHeader 0 0 (replicate 32 (0, 0)).

Definition blank_world (r : ham_record_t) : @World mapping_platform :=
  @mkWorld mapping_platform (fun _ => x00) (fun _ => blank_header) []
    (mkPageManager None [] []) mapped_device 0 0 r.

(** No compressor and no CRC; the zero stripper with CRC enabled. *)
Definition plain_env : Environment := environment None 0.
Definition packing_env : Environment :=
  environment (Some zero_stripper) 33554432.

(** A record of five bytes, and the store after its allocation; the blob
    lies at 1305, behind the header overhead of the page at 1024. *)
Definition hello : ham_record_t :=
  mkRecord 5 (Some [x68; x65; x6c; x6c; x6f]) 0 0 0.

Definition hello_world : @World mapping_platform :=
  (@do_allocate mapping_platform plain_env 0 (blank_world hello)).2.

(** A record for a partial read of ten bytes from offset 2. *)
Definition partial_request : ham_record_t := mkRecord 0 None 0 2 10.

(** A record of 1500 bytes that ends in 100 zero bytes: the zero stripper
    makes it shorter, and the blob spans two pages. *)
Definition long_record : ham_record_t :=
  mkRecord 1500
    (Some (replicate (Z.to_nat 1400) x41 ++ replicate (Z.to_nat 100) x00))
    0 0 0.

(** An empty record to read into. *)
Definition empty_record : ham_record_t := mkRecord 0 None 0 0 0.

(** A record of eight bytes that the zero stripper packs into one, the
    store after its allocation, and a record of one byte. *)
Definition padded_record : ham_record_t :=
  mkRecord 8 (Some [x41; x00; x00; x00; x00; x00; x00; x00]) 0 0 0.

Definition packed_world : @World mapping_platform :=
  (@do_allocate mapping_platform packing_env 0 (blank_world padded_record)).2.

Definition one_byte_record : ham_record_t := mkRecord 1 (Some [x42]) 0 0 0.

(** A record of 500 bytes. *)
Definition wide_record : ham_record_t :=
  mkRecord 500 (Some (replicate (Z.to_nat 500) x2e)) 0 0 0.

End Sample.

(** ** Notions used in the further properties *)

(** The free space that the freelist of a header records. *)
Definition freelist_total (h : PBlobPageHeader) : Z :=
  sum_of_sizes (m_freelist h).

(** Two [(offset, size)] ranges that share no byte. *)
Definition ranges_disjoint (a b : Z * Z) : Prop :=
  a.1 + a.2 <= b.1 \/ b.1 + b.2 <= a.1.

(** The slots that the first loop of [check_integrity] visits: all but the
    last one. *)
Definition checked_slots (h : PBlobPageHeader) : list (Z * Z) :=
  take (length (m_freelist h) - 1) (m_freelist h).

(** A header of a single-page run whose freelist is empty. *)
Definition empty_freelist_header (free_bytes : Z) (slots : nat)
  : PBlobPageHeader :=
  mkPageHeader 1 free_bytes (replicate slots (0, 0)).

(** The part of the file of a device that is in use: what lies in front
    of the excess storage at its end. *)
Definition used_size {platform : DiskDevice.Platform} (s : DiskDevice.State)
  : Z :=
  DiskDevice.file_size s - DiskDevice.excess_at_end s.

(** The sizes of a device state are sound: the excess storage is a part
    of the file. *)
Definition sizes_sound {platform : DiskDevice.Platform} (s : DiskDevice.State)
  : Prop :=
  0 <= DiskDevice.excess_at_end s <= DiskDevice.file_size s.


(** ** Further sample values *)

Module Scenario.

(** [File::truncate] for a file held in memory. *)
Definition resize (f : list byte) (n : Z)
  : DiskDevice.ups_status + list byte :=
  inr (take (Z.to_nat n) f ++ replicate (Z.to_nat n - length f) x00).

(** A device over the two-page file of which the second page is excess
    storage. *)
Definition roomy_device : @DiskDevice.State Sample.mapping_platform :=
  @DiskDevice.mkState Sample.mapping_platform Sample.two_pages None 0 8192 4096.

(** A device over the two-page file without excess storage. *)
Definition tight_device : @DiskDevice.State Sample.mapping_platform :=
  @DiskDevice.mkState Sample.mapping_platform Sample.two_pages None 0 8192 0.

(** The store after the allocation of the long record with CRC enabled,
    with an empty record to read into, and the same store after the CRC
    slot in the header of the run was cleared. *)
Definition long_world : @World Sample.mapping_platform :=
  with_record
    (@do_allocate Sample.mapping_platform Sample.packing_env 0
       (Sample.blank_world Sample.long_record)).2
    Sample.empty_record.

Definition spoiled_world : @World Sample.mapping_platform :=
  @mkWorld Sample.mapping_platform (raw_payload long_world)
    (fun x => set_freelist_offset (page_header long_world x) 0 0)
    (dirty_pages long_world) (page_manager long_world) (device long_world)
    (m_metric_before_compression long_world)
    (m_metric_after_compression long_world) (record long_world).

End Scenario.

(** ** The states at which the code leaves the specification *)

Module Incident.

(** The configuration of a device with pages of 1024 bytes. *)
Definition small_page_config : DiskDevice.Config :=
  DiskDevice.mkConfig 1024 0 false [].

(** A store without blobs over the device that [open] leaves when [mmap]
    failed: [mapped_size] is set and [mmapptr] is null. *)
Definition unmapped_world (r : ham_record_t)
  : @World Sample.failing_mmap_platform :=
  @mkWorld Sample.failing_mmap_platform (fun _ => x00)
    (fun _ => Sample.blank_header) [] (mkPageManager None [] [])
    Sample.unmapped_device 0 0 r.

(** A record of [2^32 - 1] bytes, and a request for a partial read of
    [2^32 - 1] bytes from offset 2. *)
Definition huge_record : ham_record_t :=
  mkRecord 4294967295 (Some [x42]) 0 0 0.

Definition wrapping_request : ham_record_t :=
  mkRecord 0 None 0 2 4294967295.





End Incident.

(** * Properties *)

(** ** Fixed-width arithmetic *)

Lemma u32_small (x : Z) : is_u32 x -> u32 x = x.
Proof. unfold is_u32, u32. intros H. apply Z.mod_small. lia. Qed.

Lemma u64_small (x : Z) : is_u64 x -> u64 x = x.
Proof. unfold is_u64, u64. intros H. apply Z.mod_small. lia. Qed.

Lemma u32_range (x : Z) : is_u32 (u32 x).
Proof. unfold is_u32, u32. apply Z.mod_pos_bound. lia. Qed.

Lemma u64_range (x : Z) : is_u64 (u64 x).
Proof. unfold is_u64, u64. apply Z.mod_pos_bound. lia. Qed.

Lemma u32_u64 (x : Z) : u32 (u64 x) = u32 x.
Proof.
  unfold u32, u64.
  replace (2 ^ 64) with (2 ^ 32 * 2 ^ 32) by reflexivity.
  rewrite Z.rem_mul_r by lia.
  rewrite Z.add_mod by lia.
  rewrite Z.mul_comm, Z.mod_mul by lia.
  rewrite Z.add_0_r, Z.mod_mod by lia.
  apply Z.mod_mod. lia.
Qed.

Lemma u32_idem (x : Z) : u32 (u32 x) = u32 x.
Proof. apply u32_small, u32_range. Qed.

Lemma u32_le (x : Z) : 0 <= x -> u32 x <= x.
Proof. intros H. unfold u32. apply Z.mod_le; lia. Qed.

(** ** The freelist *)

Section Freelist.

Implicit Types (header : PBlobPageHeader) (fl : list (Z * Z)).

Lemma set_slot_both header i off sz a b :
  m_freelist header !! i = Some (off, sz) ->
  set_freelist_size (set_freelist_offset header i a) i b
  = with_slot header i (u32 a, u32 b).
Proof.
  intros Hi. unfold set_freelist_size, set_freelist_offset, with_slot. simpl.
  rewrite Hi. simpl.
  rewrite list_lookup_insert_eq by (eapply lookup_lt_Some; eauto).
  simpl. by rewrite list_insert_insert_eq.
Qed.

Lemma get_size_after_set_offset header i a :
  get_freelist_size (set_freelist_offset header i a) i
  = get_freelist_size header i.
Proof.
  unfold get_freelist_size, set_freelist_offset. simpl.
  destruct (m_freelist header !! i) as [[off sz]|] eqn:Hi; simpl.
  - rewrite list_lookup_insert_eq by (eapply lookup_lt_Some; eauto). done.
  - by rewrite Hi.
Qed.

(** Slots that are too small are passed over. *)
Lemma alloc_loop_skip header size poffset n i :
  (i + n <= length (m_freelist header))%nat ->
  (forall j e, (i <= j < i + n)%nat ->
               m_freelist header !! j = Some e -> e.2 < size) ->
  alloc_from_freelist_loop n i header size poffset = (false, poffset, header).
Proof.
  revert i. induction n as [|n IH]; intros i Hlen Hsmall; simpl; [done|].
  destruct (lookup_lt_is_Some_2 (m_freelist header) i) as [e He]; [lia|].
  assert (Hi : get_freelist_size header i < size).
  { unfold get_freelist_size. rewrite He. apply (Hsmall i e); [lia | done]. }
  destruct (Z.eqb_spec (get_freelist_size header i) size); [lia|].
  destruct (Z.ltb_spec size (get_freelist_size header i)); [lia|].
  apply IH; [lia|]. intros j e' Hj. apply Hsmall. lia.
Qed.

(** The loop stops at the first slot that is large enough. *)
Lemma alloc_loop_first_fit header size poffset k : forall n i off sz,
  (k < n)%nat ->
  m_freelist header !! (i + k)%nat = Some (off, sz) ->
  size <= sz ->
  (forall j e, (i <= j < i + k)%nat ->
               m_freelist header !! j = Some e -> e.2 < size) ->
  alloc_from_freelist_loop n i header size poffset
  = (true, off,
     if sz =? size then with_slot header (i + k) (0, 0)
     else with_slot header (i + k) (u32 (off + size), u32 (sz - size))).
Proof.
  induction k as [|k IH]; intros n i off sz Hn Hslot Hfit Hsmall.
  - destruct n as [|n]; [lia|]. simpl.
    rewrite Nat.add_0_r in *.
    unfold get_freelist_size at 1, get_freelist_offset. rewrite Hslot. simpl.
    destruct (Z.eqb_spec sz size) as [->|Hne].
    + erewrite set_slot_both by eauto. done.
    + rewrite get_size_after_set_offset.
      unfold get_freelist_size. rewrite Hslot. simpl.
      destruct (Z.ltb_spec size sz); [|lia].
      erewrite set_slot_both by eauto.
      by rewrite u32_idem, u32_u64.
  - destruct n as [|n]; [lia|]. simpl.
    destruct (lookup_lt_is_Some_2 (m_freelist header) i) as [e He].
    { apply lookup_lt_Some in Hslot. lia. }
    assert (Hi : get_freelist_size header i < size).
    { unfold get_freelist_size. rewrite He. apply (Hsmall i e); [lia | done]. }
    destruct (Z.eqb_spec (get_freelist_size header i) size); [lia|].
    destruct (Z.ltb_spec size (get_freelist_size header i)); [lia|].
    replace (i + S k)%nat with (S i + k)%nat in * by lia.
    apply IH; [lia | done | done |].
    intros j e' Hj. apply Hsmall. lia.
Qed.

End Freelist.

(** C6.  [alloc_from_freelist] on a header of 32-bit fields and a 32-bit
    request.  It returns false and leaves the header and [*poffset] as they
    were when the run has more than one page or when every slot is smaller
    than the request.  Otherwise, at the first slot in index order that is
    at least as large as the request, it returns true and that slot's
    offset: a slot of exactly the requested size is zeroed; a larger slot
    is shrunk from the front (its offset grows by the request, its size
    shrinks by it).  The slot that results never lies below zero and never
    ends beyond a bound that the slot respected before, such as the end of
    the page run. *)
Theorem alloc_from_freelist_first_fit
    (header : PBlobPageHeader) (size poffset : Z) :
  header_u32 header -> is_u32 size ->
  ((1 < get_num_pages header \/
    (forall i e, m_freelist header !! i = Some e -> e.2 < size)) ->
   alloc_from_freelist header size poffset = (false, poffset, header))
  /\
  (get_num_pages header <= 1 ->
   forall (i : nat) (off sz : Z),
     m_freelist header !! i = Some (off, sz) ->
     size <= sz ->
     (forall j e, (j < i)%nat -> m_freelist header !! j = Some e -> e.2 < size) ->
     (sz = size ->
      alloc_from_freelist header size poffset
      = (true, off, with_slot header i (0, 0)))
     /\
     (size < sz ->
      alloc_from_freelist header size poffset
      = (true, off, with_slot header i (u32 (off + size), sz - size))
      /\ 0 <= u32 (off + size) /\ 0 <= sz - size
      /\ (off + size < 2 ^ 32 -> u32 (off + size) = off + size)
      /\ (forall bound, off + sz <= bound ->
            u32 (off + size) + (sz - size) <= bound))).
Proof.
  intros (Hnp & Hfb & Hfl) Hsize. split.
  - intros [Hmulti | Hsmall]; unfold alloc_from_freelist.
    + destruct (Z.ltb_spec 1 (get_num_pages header)); [done | lia].
    + destruct (1 <? get_num_pages header); [done|].
      apply alloc_loop_skip; [done|]. intros j e _. apply Hsmall.
  - intros Hsingle i off sz Hslot Hfit Hsmall.
    assert (Hsz : is_u32 off /\ is_u32 sz).
    { rewrite Forall_lookup in Hfl. apply (Hfl i (off, sz) Hslot). }
    destruct Hsz as [Hoff Hsz]. unfold is_u32 in *.
    assert (Hrun : alloc_from_freelist header size poffset
                   = (true, off,
                      if sz =? size then with_slot header i (0, 0)
                      else with_slot header i (u32 (off + size), u32 (sz - size)))).
    { unfold alloc_from_freelist.
      destruct (Z.ltb_spec 1 (get_num_pages header)); [lia|].
      apply (alloc_loop_first_fit header size poffset i
               (get_freelist_entries header) 0%nat off sz).
      - apply lookup_lt_Some in Hslot. done.
      - done.
      - done.
      - intros j e Hj. apply Hsmall. lia. }
    split.
    + intros ->. by rewrite Z.eqb_refl in Hrun.
    + intros Hlt.
      destruct (Z.eqb_spec sz size); [lia|].
      rewrite (u32_small (sz - size)) in Hrun by (unfold is_u32; lia).
      split; [done|].
      pose proof (u32_range (off + size)) as Hr. unfold is_u32 in Hr.
      pose proof (u32_le (off + size)).
      split; [lia|]. split; [lia|]. split.
      * intros Hlt32. apply u32_small. unfold is_u32. lia.
      * intros bound Hb. lia.
Qed.

Lemma alloc_from_freelist_first_fit_witness :
  alloc_from_freelist Sample.three_slot_header 100 0
  = (true, 400, with_slot Sample.three_slot_header 1 (0, 0))
  /\ alloc_from_freelist Sample.three_slot_header 60 0
     = (true, 400, with_slot Sample.three_slot_header 1 (460, 40))
  /\ 460 + 40 <= 1024.
Proof.
  assert (Hwf : header_u32 Sample.three_slot_header).
  { unfold header_u32, is_u32. simpl. repeat split; try lia.
    repeat (constructor; [simpl; lia|]). constructor. }
  assert (Hsmall : forall size, 40 < size -> forall j e, (j < 1)%nat ->
            m_freelist Sample.three_slot_header !! j = Some e -> e.2 < size).
  { intros size Hs j e Hj. assert (j = 0%nat) as -> by lia.
    intros [= <-]. simpl. lia. }
  pose proof (alloc_from_freelist_first_fit Sample.three_slot_header 100 0
                Hwf ltac:(unfold is_u32; lia)) as [_ Hexact].
  pose proof (alloc_from_freelist_first_fit Sample.three_slot_header 60 0
                Hwf ltac:(unfold is_u32; lia)) as [_ Hlarger].
  specialize (Hexact ltac:(simpl; lia) 1%nat 400 100 eq_refl ltac:(lia)
                (Hsmall 100 ltac:(lia))).
  specialize (Hlarger ltac:(simpl; lia) 1%nat 400 100 eq_refl ltac:(lia)
                (Hsmall 60 ltac:(lia))).
  destruct Hexact as [Hexact _]. destruct Hlarger as [_ Hlarger].
  split; [exact (Hexact eq_refl)|]. split; [|lia].
  destruct (Hlarger ltac:(lia)) as [Hrun _]. exact Hrun.
Defined.

(** ** check_integrity *)

(** C7.  [check_integrity] accepts single-page headers that the spec
    rejects.  Its first loop stops one slot before the end of the freelist,
    so the last slot is neither summed nor checked: [last_slot_header] has
    100 free bytes and a last slot of 400 bytes that ends at 1300 on a page
    of 1024 bytes.  Its second loop never checks the end of the range with
    the largest offset: [past_end_header] has one slot, which ends at 1050.
    Both headers pass. *)
Theorem check_integrity_misses_slots :
  let env := Sample.environment None 0 in
  (get_num_pages Sample.last_slot_header = 1
   /\ @check_integrity env Sample.last_slot_header = Return true
   /\ ~ sum_of_sizes (nonempty_slots Sample.last_slot_header)
        <= get_free_bytes Sample.last_slot_header
   /\ ~ spec_single_page_integrity (@page_size_bytes env)
          Sample.last_slot_header)
  /\
  (get_num_pages Sample.past_end_header = 1
   /\ @check_integrity env Sample.past_end_header = Return true
   /\ ~ (forall e, e ∈ nonempty_slots Sample.past_end_header ->
           e.1 + e.2
           <= get_num_pages Sample.past_end_header * @page_size_bytes env)
   /\ ~ spec_single_page_integrity (@page_size_bytes env)
          Sample.past_end_header).
Proof.
  intros env.
  assert (Hlast : nonempty_slots Sample.last_slot_header = [(900, 400)])
    by reflexivity.
  assert (Hpast : nonempty_slots Sample.past_end_header = [(1000, 50)])
    by reflexivity.
  split.
  - split; [reflexivity|]. split; [vm_compute; reflexivity|].
    assert (Hsum : ~ sum_of_sizes (nonempty_slots Sample.last_slot_header)
                     <= get_free_bytes Sample.last_slot_header).
    { rewrite Hlast. simpl. lia. }
    split; [exact Hsum|]. intros (H & _). exact (Hsum H).
  - split; [reflexivity|]. split; [vm_compute; reflexivity|].
    assert (Hend : ~ (forall e, e ∈ nonempty_slots Sample.past_end_header ->
                        e.1 + e.2
                        <= get_num_pages Sample.past_end_header
                           * @page_size_bytes env)).
    { rewrite Hpast. intros H.
      specialize (H (1000, 50) ltac:(apply list_elem_of_here)).
      simpl in H. lia. }
    split; [exact Hend|]. intros (_ & _ & H). exact (Hend H).
Qed.

(** ** The disk device *)

Section DeviceProperties.
Context {platform : DiskDevice.Platform}.
Variable m_config : DiskDevice.Config.

Import DiskDevice.

(** C8, with the test that [read_page] makes.  [read_page] hands the page a borrow into
    the mapped region at [address], dropping a heap buffer it had, exactly
    when [address] lies below [mapped_size] and the device holds a mapping
    (a non-null [mmapptr]).  Otherwise a page without a buffer gets a heap
    buffer of [page_size_bytes] bytes, and the buffer of the page is
    filled with what [pread] reads at [address] (and decrypted when
    encryption is enabled); when [pread] throws, the page keeps the
    buffer.  For a page that did not hold a borrow before the call, the
    page holds a borrow afterwards if and only if the first case
    applied. *)
Theorem read_page_borrows_iff_below_mapped_size
    (m_state : State) (page : Page) (address : Z) :
  let in_mapped_area :=
    address < mapped_size m_state /\ mmapptr m_state <> None in
  let buffered :=
    match get_data page with
    | NoBuffer =>
        assign_allocated_buffer page
          (Memory_allocate (page_size_bytes m_config)) address
    | _ => page
    end in
  (in_mapped_area ->
   read_page m_config m_state page address
   = (inr tt, mkPage (Mapped address) address, m_state))
  /\
  (~ in_mapped_area ->
   forall old, get_data buffered = Allocated old ->
     (forall e,
        file_pread (file m_state) address (page_size_bytes m_config) = inl e ->
        read_page m_config m_state page address = (inl e, buffered, m_state))
     /\
     (forall bytes,
        file_pread (file m_state) address (page_size_bytes m_config)
        = inr bytes ->
        read_page m_config m_state page address
        = (inr tt,
           mkPage
             (Allocated
                (if is_encryption_enabled m_config
                 then fill (aes_decrypt (encryption_key m_config)
                              (get_address buffered)
                              (take (Z.to_nat (page_size_bytes m_config))
                                 (fill bytes old)))
                        (fill bytes old)
                 else fill bytes old))
             (get_address buffered),
           m_state)))
  /\
  ((forall offset, get_data page <> Mapped offset) ->
   ((exists offset,
       get_data (read_page m_config m_state page address).1.2 = Mapped offset)
    <-> in_mapped_area)).
Proof.
  intros in_mapped_area buffered.
  assert (Hcond : in_mapped_area <->
            (address <? mapped_size m_state)
            && match mmapptr m_state with Some _ => true | None => false end
            = true).
  { unfold in_mapped_area. rewrite andb_true_iff, Z.ltb_lt.
    destruct (mmapptr m_state); split; intros [? ?]; split;
      congruence || done. }
  assert (Hdec : in_mapped_area \/ ~ in_mapped_area).
  { rewrite Hcond. destruct (_ && _); [by left | by right]. }
  assert (Helse : ~ in_mapped_area ->
            (address <? mapped_size m_state)
            && match mmapptr m_state with Some _ => true | None => false end
            = false).
  { intros Hn. apply not_true_is_false. by rewrite <- Hcond. }
  assert (Hbuffered : forall old, get_data buffered = Allocated old ->
            forall src, store_page_bytes m_state buffered src
                        = (m_state, mkPage (Allocated (fill src old))
                                      (get_address buffered))).
  { intros old Hold src. unfold store_page_bytes. by rewrite Hold. }
  split; [|split].
  - intros Hin. unfold read_page. apply Hcond in Hin. rewrite Hin.
    unfold assign_mapped_buffer. done.
  - intros Hout old Hold. unfold read_page. rewrite (Helse Hout).
    fold buffered. split.
    + intros e ->. done.
    + intros bytes ->. rewrite (Hbuffered old Hold).
      destruct (is_encryption_enabled m_config); [|done].
      unfold page_bytes, store_page_bytes. simpl. done.
  - intros Hheap. split.
    + intros [offset Hres].
      destruct Hdec as [Hin|Hout]; [done|].
      exfalso. revert Hres. unfold read_page. rewrite (Helse Hout).
      fold buffered.
      assert (Hb : exists old, get_data buffered = Allocated old).
      { unfold buffered. destruct (get_data page) eqn:Hd; simpl; eauto.
        by destruct (Hheap offset0). }
      destruct Hb as [old Hold].
      destruct (file_pread _ _ _) as [e|bytes].
      * cbn [fst snd]. rewrite Hold. done.
      * rewrite (Hbuffered old Hold).
        destruct (is_encryption_enabled m_config); simpl; [|done].
        unfold page_bytes, store_page_bytes. simpl. done.
    + intros Hin. exists address. unfold read_page.
      apply Hcond in Hin. by rewrite Hin.
Qed.

End DeviceProperties.

(** C8, counterexample to the range test [addr + page_size <=
    mapped_size].  The two-page file is opened on a
    platform whose [mmap] fails: [open] has stored [mapped_size] before the
    attempt and keeps it, with a null [mmapptr].  For the page at address 0
    the range [0 + page_size <= mapped_size] holds, yet [read_page] gives
    the page a heap buffer and reads the file. *)
Lemma read_page_range_without_mapping :
  DiskDevice.open Sample.device_config
    (Sample.closed_device Sample.failing_mmap_platform Sample.two_pages)
  = inr Sample.unmapped_device
  /\ ~ ((exists offset,
           DiskDevice.get_data
             (DiskDevice.read_page Sample.device_config Sample.unmapped_device
                Sample.fresh_page 0).1.2
           = DiskDevice.Mapped offset)
        <-> 0 + DiskDevice.page_size_bytes Sample.device_config
            <= DiskDevice.mapped_size Sample.unmapped_device).
Proof.
  split; [reflexivity|].
  intros [_ Hback].
  destruct Hback as [offset Hmapped]; [simpl; lia|].
  vm_compute in Hmapped. discriminate Hmapped.
Qed.

Lemma read_page_borrows_iff_below_mapped_size_witness :
  DiskDevice.read_page Sample.device_config Sample.mapped_device
    Sample.fresh_page 4096
  = (inr tt, DiskDevice.mkPage (DiskDevice.Mapped 4096) 4096,
     Sample.mapped_device)
  /\ DiskDevice.read_page Sample.device_config Sample.unmapped_device
       Sample.fresh_page 4096
     = (inr tt,
        DiskDevice.mkPage
          (DiskDevice.Allocated (replicate (Z.to_nat 4096) x2a)) 4096,
        Sample.unmapped_device)
  /\ ~ (exists offset,
          DiskDevice.get_data
            (DiskDevice.read_page Sample.device_config Sample.unmapped_device
               Sample.fresh_page 4096).1.2
          = DiskDevice.Mapped offset).
Proof.
  pose proof (read_page_borrows_iff_below_mapped_size Sample.device_config
                Sample.mapped_device Sample.fresh_page 4096) as (Hin & _ & _).
  pose proof (read_page_borrows_iff_below_mapped_size Sample.device_config
                Sample.unmapped_device Sample.fresh_page 4096)
    as (_ & Hout & Hiff).
  assert (Hno : ~ (4096 < DiskDevice.mapped_size Sample.unmapped_device
                   /\ DiskDevice.mmapptr Sample.unmapped_device <> None)).
  { intros [_ Hptr]. apply Hptr. reflexivity. }
  split; [|split].
  - apply Hin. split; [simpl; lia | discriminate].
  - destruct (Hout Hno
                (@DiskDevice.Memory_allocate Sample.failing_mmap_platform 4096)
                eq_refl) as [_ Hread].
    rewrite (Hread (replicate (Z.to_nat 4096) x2a)); [|vm_compute; reflexivity].
    vm_compute. reflexivity.
  - rewrite Hiff; [exact Hno | discriminate].
Defined.

(** ** Bytes *)

Lemma Z_of_byte_of_Z (z : Z) : Z_of_byte (byte_of_Z z) = z mod 256.
Proof.
  unfold Z_of_byte, byte_of_Z.
  assert (Hr : 0 <= z mod 256 < 256) by (apply Z.mod_pos_bound; lia).
  destruct (Byte.of_N (Z.to_N (z mod 256))) as [b|] eqn:Hb.
  - apply Byte.to_of_N in Hb. rewrite Hb. lia.
  - apply Byte.of_N_None_iff in Hb. lia.
Qed.

Lemma length_le_encode (n : nat) (x : Z) : length (le_encode n x) = n.
Proof. revert x. induction n as [|n IH]; intros x; simpl; [done | by rewrite IH]. Qed.

Lemma le_decode_encode (n : nat) (x : Z) :
  le_decode (le_encode n x) = x mod 256 ^ Z.of_nat n.
Proof.
  revert x. induction n as [|n IH]; intros x.
  - simpl. by rewrite Z.mod_1_r.
  - cbn [le_encode le_decode]. rewrite IH, Z_of_byte_of_Z.
    rewrite Nat2Z.inj_succ, Z.pow_succ_r by lia.
    rewrite (Z.rem_mul_r x 256 (256 ^ Z.of_nat n)) by lia. reflexivity.
Qed.

Lemma length_buffer_bytes (n : Z) (src : list byte) :
  length (buffer_bytes n src) = Z.to_nat n.
Proof.
  unfold buffer_bytes. rewrite length_app, length_take, length_replicate. lia.
Qed.

Lemma nth_replicate_default {A} (k i : nat) (x : A) : nth i (replicate k x) x = x.
Proof.
  revert i. induction k as [|k IH]; intros [|i]; simpl; auto.
Qed.

Lemma nth_buffer_bytes (n : Z) (src : list byte) (i : nat) :
  (i < Z.to_nat n)%nat -> nth i (buffer_bytes n src) x00 = nth i src x00.
Proof.
  intros Hi. unfold buffer_bytes.
  destruct (Nat.lt_ge_cases i (length src)) as [Hlt|Hge].
  - rewrite app_nth1 by (rewrite length_take; lia).
    rewrite <- (take_drop (Z.to_nat n) src) at 2.
    rewrite app_nth1 by (rewrite length_take; lia). done.
  - rewrite (nth_overflow src) by lia.
    destruct (Nat.lt_ge_cases i (length (take (Z.to_nat n) src))) as [Hlt'|Hge'].
    + rewrite length_take in Hlt'. lia.
    + rewrite app_nth2 by lia.
      apply nth_replicate_default.
Qed.

(** ** The byte store *)

Lemma length_load_bytes raw a n : length (load_bytes raw a n) = n.
Proof. unfold load_bytes. by rewrite length_map, length_seq. Qed.

Lemma nth_load_bytes raw a n i :
  (i < n)%nat -> nth i (load_bytes raw a n) x00 = raw (a + Z.of_nat i).
Proof.
  intros Hi. unfold load_bytes.
  rewrite (nth_indep _ x00 (raw (a + Z.of_nat 0)))
    by (rewrite length_map, length_seq; lia).
  rewrite (map_nth (fun i => raw (a + Z.of_nat i)) (seq 0 n) 0%nat i).
  rewrite seq_nth by lia. done.
Qed.

Lemma load_bytes_ext raw1 raw2 a n :
  (forall x, a <= x < a + Z.of_nat n -> raw1 x = raw2 x) ->
  load_bytes raw1 a n = load_bytes raw2 a n.
Proof.
  intros Hext. unfold load_bytes. apply map_ext_in.
  intros i Hi. apply in_seq in Hi. apply Hext. lia.
Qed.

Lemma load_bytes_app raw a n m :
  load_bytes raw a (n + m)
  = load_bytes raw a n ++ load_bytes raw (a + Z.of_nat n) m.
Proof.
  apply (nth_ext _ _ x00 x00).
  - rewrite length_app, !length_load_bytes. done.
  - rewrite length_load_bytes. intros i Hi.
    rewrite nth_load_bytes by done.
    destruct (Nat.lt_ge_cases i n) as [Hlt|Hge].
    + rewrite app_nth1 by (by rewrite length_load_bytes).
      by rewrite nth_load_bytes.
    + rewrite app_nth2 by (rewrite length_load_bytes; lia).
      rewrite length_load_bytes, nth_load_bytes by lia.
      f_equal. lia.
Qed.

Lemma store_bytes_inside raw a bs x :
  a <= x < a + Z.of_nat (length bs) ->
  store_bytes raw a bs x = nth (Z.to_nat (x - a)) bs x00.
Proof.
  intros Hx. unfold store_bytes.
  destruct (Z.leb_spec a x); [|lia].
  destruct (Z.ltb_spec x (a + Z.of_nat (length bs))); [done | lia].
Qed.

Lemma store_bytes_outside raw a bs x :
  x < a \/ a + Z.of_nat (length bs) <= x ->
  store_bytes raw a bs x = raw x.
Proof.
  intros Hx. unfold store_bytes.
  destruct (Z.leb_spec a x); [|done].
  destruct (Z.ltb_spec x (a + Z.of_nat (length bs))); [lia | done].
Qed.

Lemma load_store_bytes raw a bs :
  load_bytes (store_bytes raw a bs) a (length bs) = bs.
Proof.
  apply (nth_ext _ _ x00 x00).
  - by rewrite length_load_bytes.
  - rewrite length_load_bytes. intros i Hi.
    rewrite nth_load_bytes by done.
    rewrite store_bytes_inside by lia. f_equal. lia.
Qed.

(** Two adjacent copies are one copy of the concatenation. *)
Lemma store_bytes_app raw a xs ys x :
  store_bytes (store_bytes raw a xs) (a + Z.of_nat (length xs)) ys x
  = store_bytes raw a (xs ++ ys) x.
Proof.
  destruct (Z.lt_ge_cases x a) as [H1|H1].
  - rewrite !store_bytes_outside by lia. done.
  - destruct (Z.lt_ge_cases x (a + Z.of_nat (length xs))) as [H2|H2].
    + rewrite (store_bytes_outside _ (a + _)) by lia.
      rewrite !store_bytes_inside by (rewrite ?length_app; lia).
      rewrite app_nth1 by lia. done.
    + destruct (Z.lt_ge_cases x (a + Z.of_nat (length xs) + Z.of_nat (length ys)))
        as [H3|H3].
      * rewrite !store_bytes_inside by (rewrite ?length_app; lia).
        rewrite app_nth2 by lia. f_equal. lia.
      * rewrite !store_bytes_outside by (rewrite ?length_app; lia). done.
Qed.

Lemma store_bytes_ext raw1 raw2 a bs :
  (forall x, raw1 x = raw2 x) ->
  forall x, store_bytes raw1 a bs x = store_bytes raw2 a bs x.
Proof.
  intros Hext x. unfold store_bytes. destruct (_ && _); [done | apply Hext].
Qed.

(** Copying [n] bytes of a buffer in two steps. *)
Lemma buffer_bytes_split (k n : Z) (src : list byte) :
  0 <= k <= n ->
  buffer_bytes n src
  = buffer_bytes k src ++ buffer_bytes (n - k) (drop (Z.to_nat k) src).
Proof.
  intros Hk. apply (nth_ext _ _ x00 x00).
  - rewrite length_app, !length_buffer_bytes. lia.
  - rewrite length_buffer_bytes. intros i Hi.
    rewrite nth_buffer_bytes by done.
    destruct (Nat.lt_ge_cases i (Z.to_nat k)) as [Hlt|Hge].
    + rewrite app_nth1 by (by rewrite length_buffer_bytes).
      by rewrite nth_buffer_bytes.
    + rewrite app_nth2 by (rewrite length_buffer_bytes; lia).
      rewrite length_buffer_bytes, nth_buffer_bytes by lia.
      rewrite !nth_lookup, lookup_drop. f_equal. f_equal. lia.
Qed.

(** ** Chunked access to the pages *)

Section Chunks.
Context {platform : DiskDevice.Platform} {environment : Environment}.
Hypothesis Hpage_size : page_size_ok.

Lemma page_of_address (address : Z) :
  is_u64 address ->
  u64 (address - address mod page_size_bytes)
  = address - address mod page_size_bytes
  /\ 0 <= address mod page_size_bytes < page_size_bytes.
Proof.
  unfold is_u64, page_size_ok in *. intros Ha.
  assert (Hm : 0 <= address mod page_size_bytes < page_size_bytes)
    by (apply Z.mod_pos_bound; lia).
  assert (Hle : address mod page_size_bytes <= address)
    by (apply Z.mod_le; lia).
  split; [|done]. apply u64_small. unfold is_u64. lia.
Qed.

(** Whatever page the caller passed, the loop continues with the page
    that holds [address]. *)
Lemma current_page (page : option Page) (pageid flags : Z) (w : World) :
  match
    match page with
    | Some p => if get_address p =? pageid then page else None
    | None => None
    end
  with
  | Some p => ret p
  | None => fetch pageid flags
  end w = (Return (mkPage pageid), w).
Proof.
  destruct page as [[a]|]; simpl; [|done].
  destruct (Z.eqb_spec a pageid); by subst.
Qed.

Lemma read_chunk_pointer (ppage : option Page) (address : Z)
    (fetch_read_only : bool) (w : World) :
  is_u64 address ->
  read_chunk None ppage address fetch_read_only w
  = (Return (address,
             Some (mkPage (address - address mod page_size_bytes))), w).
Proof.
  intros Ha. destruct (page_of_address address Ha) as [Hid Hm].
  unfold read_chunk, bind, fetch, ret. rewrite Hid. simpl.
  replace (address - (address - address mod page_size_bytes))
    with (address mod page_size_bytes) by lia.
  rewrite u32_small by (unfold is_u32, page_size_ok in *; lia).
  do 3 f_equal. lia.
Qed.

Lemma copy_chunk_loop_spec (fetch_read_only : bool) (w : World) :
  forall (fuel : nat) (page : option Page) (address : Z)
         (copied : list byte) (size : Z) (first_page : bool),
    0 <= address -> is_u32 size -> address + size < 2 ^ 64 ->
    (Z.to_nat size <= fuel)%nat ->
    exists page',
      copy_chunk_loop fuel page address copied size fetch_read_only
        first_page w
      = (Return (copied ++ load_bytes (raw_payload w) address (Z.to_nat size),
                 page'), w).
Proof.
  induction fuel as [|fuel IH];
    intros page address copied size first_page Ha Hs Hend Hfuel;
    unfold is_u32 in Hs.
  - assert (size = 0) as -> by lia. simpl. exists page.
    unfold ret. by rewrite app_nil_r.
  - cbn [copy_chunk_loop].
    destruct (Z.eqb_spec size 0) as [->|Hnz].
    { exists page. unfold ret. simpl. by rewrite app_nil_r. }
    destruct (page_of_address address) as [Hid Hm]; [unfold is_u64; lia|].
    rewrite Hid. unfold bind at 1. rewrite current_page.
    cbn [get_address].
    replace (address - (address - address mod page_size_bytes))
      with (address mod page_size_bytes) by lia.
    rewrite (u32_small (address mod page_size_bytes))
      by (unfold is_u32, page_size_ok in *; lia).
    rewrite (u32_small (page_size_bytes - address mod page_size_bytes))
      by (unfold is_u32, page_size_ok in *; lia).
    set (read_size :=
           if size <? page_size_bytes - address mod page_size_bytes
           then size else page_size_bytes - address mod page_size_bytes).
    assert (Hrs : 0 < read_size <= size).
    { unfold read_size. destruct (Z.ltb_spec size
        (page_size_bytes - address mod page_size_bytes)); lia. }
    unfold bind at 1, gets at 1.
    replace (address - address mod page_size_bytes
             + address mod page_size_bytes) with address by lia.
    rewrite (u64_small (address + read_size)) by (unfold is_u64; lia).
    rewrite (u32_small (size - read_size)) by (unfold is_u32; lia).
    destruct (IH (Some (mkPage (address - address mod page_size_bytes)))
                (address + read_size)
                (copied ++ load_bytes (raw_payload w) address
                              (Z.to_nat read_size))
                (size - read_size) false) as [page' Hrec];
      [lia | unfold is_u32; lia | lia | lia |].
    exists page'. rewrite Hrec. do 2 f_equal.
    rewrite <- app_assoc. f_equal. f_equal.
    replace (Z.to_nat size)
      with (Z.to_nat read_size + Z.to_nat (size - read_size))%nat by lia.
    rewrite load_bytes_app. do 2 f_equal. lia.
Qed.

Lemma copy_chunk_spec (page : option Page) (address size : Z)
    (fetch_read_only : bool) (w : World) :
  0 <= address -> is_u32 size -> address + size < 2 ^ 64 ->
  exists page',
    copy_chunk page address size fetch_read_only w
    = (Return (load_bytes (raw_payload w) address (Z.to_nat size), page'), w).
Proof.
  intros Ha Hs Hend. unfold copy_chunk.
  destruct (copy_chunk_loop_spec fetch_read_only w (Z.to_nat size) page
              address [] size true) as [page' H]; auto.
  exists page'. exact H.
Qed.

Lemma same_but_payload_refl (w : World) : same_but_payload w w.
Proof. by repeat split. Qed.

Lemma same_but_payload_trans (w1 w2 w3 : World) :
  same_but_payload w1 w2 -> same_but_payload w2 w3 -> same_but_payload w1 w3.
Proof.
  unfold same_but_payload. intros (?&?&?&?&?&?) (?&?&?&?&?&?).
  repeat split; congruence.
Qed.

Lemma write_chunk_loop_spec :
  forall (fuel : nat) (page : option Page) (address : Z) (data : list byte)
         (size : Z) (w : World),
    0 <= address -> is_u32 size -> address + size < 2 ^ 64 ->
    (Z.to_nat size <= fuel)%nat ->
    exists page' w',
      write_chunk_loop fuel page address data size w
      = (Return (page', address + size), w')
      /\ same_but_payload w w'
      /\ forall x, raw_payload w' x
                   = store_bytes (raw_payload w) address
                       (buffer_bytes size data) x.
Proof.
  induction fuel as [|fuel IH];
    intros page address data size w Ha Hs Hend Hfuel; unfold is_u32 in Hs.
  - assert (size = 0) as -> by lia. simpl. exists page, w.
    rewrite Z.add_0_r. split; [done|]. split; [apply same_but_payload_refl|].
    intros x. rewrite store_bytes_outside; [done|].
    rewrite length_buffer_bytes. lia.
  - cbn [write_chunk_loop].
    destruct (Z.eqb_spec size 0) as [->|Hnz].
    { exists page, w. rewrite Z.add_0_r. split; [done|].
      split; [apply same_but_payload_refl|].
      intros x. rewrite store_bytes_outside; [done|].
      rewrite length_buffer_bytes. lia. }
    destruct (page_of_address address) as [Hid Hm]; [unfold is_u64; lia|].
    rewrite Hid. unfold bind at 1. rewrite current_page.
    cbn [get_address].
    replace (address - (address - address mod page_size_bytes))
      with (address mod page_size_bytes) by lia.
    rewrite (u32_small (address mod page_size_bytes))
      by (unfold is_u32, page_size_ok in *; lia).
    rewrite (u32_small (page_size_bytes - address mod page_size_bytes))
      by (unfold is_u32, page_size_ok in *; lia).
    set (write_size :=
           if size <? page_size_bytes - address mod page_size_bytes
           then size else page_size_bytes - address mod page_size_bytes).
    assert (Hws : 0 < write_size <= size).
    { unfold write_size. destruct (Z.ltb_spec size
        (page_size_bytes - address mod page_size_bytes)); lia. }
    replace (address - address mod page_size_bytes
             + address mod page_size_bytes) with address by lia.
    rewrite (u64_small (address + write_size)) by (unfold is_u64; lia).
    rewrite (u32_small (size - write_size)) by (unfold is_u32; lia).
    unfold bind at 1, memcpy_to_page at 1, modify at 1.
    unfold bind at 1, set_dirty at 1, modify at 1. cbn [get_address].
    match goal with
    | |- context [write_chunk_loop fuel ?p ?a ?d ?s ?w1] =>
        destruct (IH p a d s w1) as (page' & w' & Hrun & Hsame & Hraw);
          [lia | unfold is_u32; lia | lia | lia |]
    end.
    exists page', w'. rewrite Hrun. split; [do 3 f_equal; lia|].
    split.
    + eapply same_but_payload_trans; [|exact Hsame]. by repeat split.
    + intros x. rewrite Hraw. cbn [raw_payload].
      rewrite (buffer_bytes_split write_size size data) by lia.
      rewrite <- store_bytes_app, length_buffer_bytes.
      rewrite Z2Nat.id by lia. done.
Qed.

Lemma write_chunks_spec :
  forall (chunks : list (list byte * Z)) (page : option Page) (address : Z)
         (w : World),
    0 <= address -> Forall (fun c => is_u32 c.2) chunks ->
    address + chunks_size chunks < 2 ^ 64 ->
    exists w',
      write_chunks page address chunks w = (Return tt, w')
      /\ same_but_payload w w'
      /\ forall x, raw_payload w' x
                   = store_bytes (raw_payload w) address
                       (chunks_bytes chunks) x.
Proof.
  unfold write_chunks.
  induction chunks as [|[data size] chunks IH];
    intros page address w Ha Hsizes Hend.
  - exists w. split; [done|]. split; [apply same_but_payload_refl|].
    intros x. by rewrite store_bytes_outside by (simpl; lia).
  - apply Forall_cons in Hsizes as [Hsize Hsizes]. cbn [snd] in Hsize.
    assert (Hrest : 0 <= chunks_size chunks).
    { clear -Hsizes. induction Hsizes as [|c cs Hc _ IHcs]; simpl; [lia|].
      unfold is_u32 in Hc. lia. }
    cbn [chunks_size foldr snd] in Hend. fold (chunks_size chunks) in Hend.
    cbn [write_chunks_loop]. unfold bind at 1.
    destruct (write_chunk_loop_spec (Z.to_nat size) page address data size w)
      as (page' & w1 & Hrun & Hsame1 & Hraw1);
      [lia | done | unfold is_u32 in Hsize; lia | lia |].
    rewrite Hrun.
    destruct (IH page' (address + size) w1)
      as (w' & Hrun' & Hsame' & Hraw');
      [unfold is_u32 in Hsize; lia | done | lia |].
    exists w'. split; [exact Hrun'|].
    split; [eapply same_but_payload_trans; eauto|].
    intros x. rewrite Hraw'. cbn [chunks_bytes flat_map fst snd].
    fold (chunks_bytes chunks).
    rewrite <- store_bytes_app, length_buffer_bytes.
    rewrite Z2Nat.id by (unfold is_u32 in Hsize; lia).
    apply store_bytes_ext. exact Hraw1.
Qed.

Lemma replicate_add {A} (n m : nat) (x : A) :
  replicate (n + m) x = replicate n x ++ replicate m x.
Proof. induction n as [|n IH]; simpl; [done | by rewrite IH]. Qed.

Lemma buffer_bytes_exact (n : Z) (bs : list byte) :
  length bs = Z.to_nat n -> buffer_bytes n bs = bs.
Proof.
  intros Hlen. unfold buffer_bytes.
  rewrite take_ge by lia. rewrite Hlen, Nat.sub_diag. simpl.
  by rewrite app_nil_r.
Qed.

Lemma fill_gap_loop_spec (strict : bool) (page : Page) :
  forall (fuel : nat) (address gapsize : Z) (w : World),
    0 <= address -> is_u32 gapsize -> address + gapsize < 2 ^ 64 ->
    (Z.to_nat gapsize <= fuel)%nat ->
    exists w',
      fill_gap_loop fuel strict page address gapsize w
      = (Return (address + gapsize), w')
      /\ same_but_payload w w'
      /\ forall x, raw_payload w' x
                   = store_bytes (raw_payload w) address
                       (replicate (Z.to_nat gapsize) x00) x.
Proof.
  induction fuel as [|fuel IH];
    intros address gapsize w Ha Hg Hend Hfuel; unfold is_u32 in Hg.
  - assert (gapsize = 0) as -> by lia. simpl. exists w.
    rewrite Z.add_0_r. split; [done|]. split; [apply same_but_payload_refl|].
    intros x. by rewrite store_bytes_outside by (simpl; lia).
  - cbn [fill_gap_loop].
    destruct (Z.eqb_spec gapsize 0) as [->|Hnz].
    { exists w. rewrite Z.add_0_r. split; [done|].
      split; [apply same_but_payload_refl|].
      intros x. by rewrite store_bytes_outside by (simpl; lia). }
    set (size := if (if strict then page_size_bytes <? gapsize
                     else page_size_bytes <=? gapsize)
                 then page_size_bytes else gapsize).
    assert (Hsz : 0 < size <= gapsize).
    { unfold size, page_size_ok in *. destruct strict.
      - destruct (Z.ltb_spec page_size_bytes gapsize); lia.
      - destruct (Z.leb_spec page_size_bytes gapsize); lia. }
    unfold bind at 1.
    destruct (write_chunks_spec [(replicate (Z.to_nat size) x00, size)]
                (Some page) address w)
      as (w1 & Hrun1 & Hsame1 & Hraw1);
      [lia | repeat constructor; simpl; unfold is_u32; lia | simpl; lia |].
    rewrite Hrun1.
    rewrite (u64_small (address + size)) by (unfold is_u64; lia).
    rewrite (u32_small (gapsize - size)) by (unfold is_u32; lia).
    destruct (IH (address + size) (gapsize - size) w1)
      as (w' & Hrun' & Hsame' & Hraw');
      [lia | unfold is_u32; lia | lia | lia |].
    exists w'. rewrite Hrun'. split; [do 2 f_equal; lia|].
    split; [eapply same_but_payload_trans; eauto|].
    intros x. rewrite Hraw'.
    replace (Z.to_nat gapsize)
      with (Z.to_nat size + Z.to_nat (gapsize - size))%nat by lia.
    rewrite replicate_add, <- store_bytes_app, length_replicate.
    rewrite Z2Nat.id by lia.
    apply store_bytes_ext. intros y. rewrite Hraw1.
    cbn [chunks_bytes flat_map fst snd]. rewrite app_nil_r.
    rewrite buffer_bytes_exact by (by rewrite length_replicate). done.
Qed.

End Chunks.

(** ** Reading *)

Section Reading.
Context {platform : DiskDevice.Platform} {environment : Environment}.
Hypothesis Hpage_size : page_size_ok.

(** The first part of [do_read], case by case. *)
Lemma do_read_blobsize_spec (blobid flags : Z) (w : World) :
  is_u64 blobid ->
  let hdr := stored_header w blobid in
  let S := u32 (get_size hdr) in
  let r := record w in
  let page := Some (mkPage (blobid - blobid mod page_size_bytes)) in
  let w1 := with_record w (set_rec_size S r) in
  do_read_blobsize blobid flags w
  = if negb (get_self hdr =? blobid) then (Throw HAM_BLOB_NOT_FOUND, w)
    else if has_flag flags HAM_PARTIAL then
      if S <? rec_partial_offset r then (Throw HAM_INV_PARAMETER, w1)
      else if S <? u32 (rec_partial_offset r + rec_partial_size r) then
        (Return (blobid, page, u32 (S - rec_partial_offset r)),
         with_record w
           (set_rec_partial_size (u32 (S - rec_partial_offset r))
              (set_rec_size S r)))
      else (Return (blobid, page, rec_partial_size r), w1)
    else (Return (blobid, page, S), w1).
Proof.
  intros Hb hdr S r page w1.
  unfold do_read_blobsize. unfold bind at 1.
  rewrite (read_chunk_pointer Hpage_size) by done.
  unfold bind at 1, deref at 1, gets at 1.
  fold (stored_header w blobid). fold hdr.
  destruct (negb (get_self hdr =? blobid)); [done|].
  unfold bind at 1, deref at 1, gets at 1.
  fold (stored_header w blobid). fold hdr. fold S.
  unfold bind at 1, update_record at 1, modify at 1.
  unfold bind at 1, get_record at 1, gets at 1. cbn [record].
  fold r. change (rec_partial_offset (set_rec_size S r))
    with (rec_partial_offset r).
  change (rec_partial_size (set_rec_size S r)) with (rec_partial_size r).
  destruct (has_flag flags HAM_PARTIAL); [|done].
  destruct (S <? rec_partial_offset r); [done|].
  destruct (S <? u32 (rec_partial_offset r + rec_partial_size r)); done.
Qed.

Lemma read_chunk_total (page ppage : option Page) (address : Z)
    (fetch_read_only : bool) (w : World) :
  exists p pg,
    read_chunk page ppage address fetch_read_only w = (Return (p, pg), w).
Proof.
  unfold read_chunk, bind, fetch, ret.
  destruct page as [[a]|]; simpl; [|eauto].
  destruct (a =? _); simpl; eauto.
Qed.

Lemma copy_chunk_loop_pure (fetch_read_only : bool) (w : World) :
  forall (fuel : nat) (page : option Page) (address : Z)
         (copied : list byte) (size : Z) (first_page : bool),
    exists o,
      copy_chunk_loop fuel page address copied size fetch_read_only
        first_page w = (o, w)
      /\ forall e, o <> Throw e.
Proof.
  induction fuel as [|fuel IH]; intros page address copied size first_page;
    cbn [copy_chunk_loop]; destruct (size =? 0);
    try (eexists; split; [reflexivity | discriminate]).
  unfold bind at 1. rewrite (current_page page). unfold bind at 1, gets at 1.
  apply IH.
Qed.

(** The second part of [do_read] changes nothing but [record->data], and
    it does not throw. *)
Lemma do_read_data_record (blobid flags blob_header : Z)
    (page : option Page) (blobsize : Z) (w : World) :
  exists o w',
    do_read_data blobid flags blob_header page blobsize w = (o, w')
    /\ (forall e, o <> Throw e)
    /\ (w' = w \/ exists d, w' = with_record w (set_rec_data d (record w))).
Proof.
  unfold do_read_data.
  unfold bind at 1, get_record at 1, gets at 1.
  unfold bind at 1, deref at 1, gets at 1.
  unfold bind at 1, gets at 1.
  destruct (_ && _).
  - unfold bind at 1.
    destruct (read_chunk_total page None
                (u64 (blobid + sizeof_PBlobHeader
                      + (if has_flag flags HAM_PARTIAL
                         then rec_partial_offset (record w) else 0)))
                true w) as (p & pg & ->).
    destruct (_ <=? _).
    + unfold bind at 1, gets at 1.
      eexists _, _. split; [reflexivity|]. split; [discriminate|].
      right. eexists. reflexivity.
    + eexists _, _. split; [reflexivity|]. split; [discriminate|]. by left.
  - destruct (has_flag (get_flags _) kIsCompressed).
    + destruct get_record_compressor as [compressor|].
      * unfold bind at 1, copy_chunk.
        match goal with
        | |- context [copy_chunk_loop ?f ?pg ?a ?c ?s ?ro ?fp w] =>
            destruct (copy_chunk_loop_pure ro w f pg a c s fp)
              as (o & -> & Ho)
        end.
        destruct o as [[dest pg]|e|].
        -- destruct (has_flag (rec_flags (record w)) HAM_RECORD_USER_ALLOC);
             (eexists _, _; split; [reflexivity|]; split; [discriminate|];
              right; eexists; reflexivity).
        -- by destruct (Ho e).
        -- eexists _, _. split; [reflexivity|]. split; [discriminate|].
           by left.
      * eexists _, _. split; [reflexivity|]. split; [discriminate|]. by left.
    + unfold bind at 1, copy_chunk.
      match goal with
      | |- context [copy_chunk_loop ?f ?pg ?a ?c ?s ?ro ?fp w] =>
          destruct (copy_chunk_loop_pure ro w f pg a c s fp)
            as (o & -> & Ho)
      end.
      destruct o as [[bytes pg]|e|].
      * destruct (negb (has_flag (rec_flags (record w)) HAM_RECORD_USER_ALLOC));
          (eexists _, _; split; [reflexivity|]; split; [discriminate|];
           right; eexists; reflexivity).
      * by destruct (Ho e).
      * eexists _, _. split; [reflexivity|]. split; [discriminate|]. by left.
Qed.

(** The third part changes nothing; a partial read skips the check. *)
Lemma do_read_verify_pure (flags : Z) (page : option Page) (w : World) :
  exists o,
    do_read_verify flags page w = (o, w)
    /\ (forall e, o = Throw e -> e = HAM_INTEGRITY_VIOLATED)
    /\ (has_flag flags HAM_PARTIAL = true -> page <> None -> o = Return tt).
Proof.
  unfold do_read_verify. destruct page as [page|].
  - unfold bind at 1, header_get at 1, gets at 1.
    destruct (has_flag flags HAM_PARTIAL).
    + rewrite andb_false_r. eexists. split; [reflexivity|].
      split; [discriminate | done].
    + destruct (_ && _ && _).
      * unfold bind at 1, get_record at 1, gets at 1.
        destruct (negb _); eexists; (split; [reflexivity|]);
          (split; [intros e [= <-]; done || discriminate | discriminate]).
      * eexists. split; [reflexivity|]. split; [discriminate | discriminate].
  - eexists. split; [reflexivity|]. split; [discriminate | done].
Qed.

Lemma read_chunk_address (page ppage : option Page) (address : Z)
    (fetch_read_only : bool) (w : World) :
  is_u64 address ->
  exists pg,
    read_chunk page ppage address fetch_read_only w
    = (Return (address, pg), w).
Proof.
  intros Ha. destruct (page_of_address Hpage_size address Ha) as [Hid Hm].
  unfold read_chunk. rewrite Hid.
  assert (Hptr : forall p : Page,
            get_address p = address - address mod page_size_bytes ->
            get_address p + u32 (address - get_address p) = address).
  { intros p ->.
    replace (address - (address - address mod page_size_bytes))
      with (address mod page_size_bytes) by lia.
    rewrite u32_small by (unfold is_u32, page_size_ok in *; lia). lia. }
  destruct page as [[a]|]; cbn [get_address].
  - destruct (Z.eqb_spec a (address - address mod page_size_bytes)) as [->|].
    + unfold bind, ret. rewrite Hptr by done. eauto.
    + unfold bind, fetch, ret. rewrite Hptr by done. eauto.
  - unfold bind, fetch, ret. rewrite Hptr by done. eauto.
Qed.

(** The transfer of an uncompressed blob: the bytes behind the header
    (behind the partial offset for a partial read) reach [record->data],
    by pointer or by copy. *)
Lemma do_read_data_uncompressed (blobid flags : Z) (page : option Page)
    (blobsize : Z) (w : World) :
  let r := record w in
  let start :=
    blobid + sizeof_PBlobHeader
    + (if has_flag flags HAM_PARTIAL then rec_partial_offset r else 0) in
  let bytes := load_bytes (raw_payload w) start (Z.to_nat blobsize) in
  has_flag (get_flags (stored_header w blobid)) kIsCompressed = false ->
  0 <= start -> is_u32 blobsize -> start + blobsize < 2 ^ 64 ->
  zero_copy_in_bounds (device w) blobid start blobsize ->
  do_read_data blobid flags blobid page blobsize w
  = (Return tt,
     with_record w
       (set_rec_data
          (if has_flag (rec_flags r) HAM_RECORD_USER_ALLOC
           then store_to_buffer bytes (rec_data r) else Some bytes) r)).
Proof.
  intros r start bytes Hplain Hstart Hsize Hend Hbounds.
  assert (Hu : u64 start = start).
  { apply u64_small. unfold is_u64, is_u32 in *. lia. }
  unfold do_read_data.
  unfold bind at 1, get_record at 1, gets at 1.
  unfold bind at 1, deref at 1, gets at 1.
  unfold bind at 1, gets at 1.
  fold (stored_header w blobid). rewrite Hplain. fold r. fold start.
  rewrite Hu. cbn [negb]. rewrite andb_true_r.
  destruct (negb (has_flag flags HAM_FORCE_DEEP_COPY)
            && DiskDevice.is_mapped (device w) blobid blobsize
            && negb (has_flag (rec_flags r) HAM_RECORD_USER_ALLOC)) eqn:Hzero.
  - apply andb_true_iff in Hzero as [Hzero Huser].
    apply andb_true_iff in Hzero as [_ Hmapped].
    apply negb_true_iff in Huser. rewrite Huser.
    unfold bind at 1.
    destruct (read_chunk_address page None start true w) as [pg ->].
    { unfold is_u64, is_u32 in *. lia. }
    assert (Hstart64 : is_u64 start) by (unfold is_u64, is_u32 in *; lia).
    destruct (page_of_address Hpage_size start Hstart64) as [-> _].
    specialize (Hbounds Hmapped).
    destruct (Z.leb_spec (start + blobsize)
                (buffer_end (device w) (start - start mod page_size_bytes)));
      [reflexivity | lia].
  - unfold bind at 1.
    destruct (copy_chunk_spec Hpage_size page start blobsize true w)
      as [pg ->]; try done.
    destruct (has_flag (rec_flags r) HAM_RECORD_USER_ALLOC); reflexivity.
Qed.

(** The transfer of a compressed blob: the stored bytes are read and
    decompressed to the logical size. *)
Lemma do_read_data_compressed (blobid flags : Z) (page : option Page)
    (blobsize : Z) (compressor : Compressor) (w : World) :
  let r := record w in
  let hdr := stored_header w blobid in
  let stored_size := u32 (get_alloc_size hdr - sizeof_PBlobHeader) in
  let plain :=
    decompress compressor
      (load_bytes (raw_payload w) (blobid + sizeof_PBlobHeader)
         (Z.to_nat stored_size)) blobsize in
  has_flag (get_flags hdr) kIsCompressed = true ->
  get_record_compressor = Some compressor ->
  0 <= blobid -> blobid + sizeof_PBlobHeader + stored_size < 2 ^ 64 ->
  do_read_data blobid flags blobid page blobsize w
  = (Return tt,
     with_record w
       (set_rec_data
          (if has_flag (rec_flags r) HAM_RECORD_USER_ALLOC
           then store_to_buffer plain (rec_data r) else Some plain) r)).
Proof.
  intros r hdr stored_size plain Hcompressed Hcompressor Hb Hend.
  pose proof (u32_range (get_alloc_size hdr - sizeof_PBlobHeader)) as Hss.
  fold stored_size in Hss. unfold is_u32 in Hss.
  assert (Hu : u64 (blobid + sizeof_PBlobHeader) = blobid + sizeof_PBlobHeader).
  { apply u64_small. unfold is_u64, sizeof_PBlobHeader in *. lia. }
  unfold do_read_data.
  unfold bind at 1, get_record at 1, gets at 1.
  unfold bind at 1, deref at 1, gets at 1.
  unfold bind at 1, gets at 1.
  fold (stored_header w blobid). fold hdr. rewrite Hcompressed, Hcompressor.
  cbn [negb]. rewrite andb_false_r. cbn [andb].
  rewrite Hu, u32_u64. fold stored_size.
  unfold bind at 1.
  destruct (copy_chunk_spec Hpage_size page (blobid + sizeof_PBlobHeader)
              stored_size true w) as [pg ->];
    [unfold sizeof_PBlobHeader; lia | done | lia |].
  fold r. destruct (has_flag (rec_flags r) HAM_RECORD_USER_ALLOC); reflexivity.
Qed.

(** [do_read] after its first part. *)
Lemma do_read_throws_early (blobid flags : Z) (w w1 : World) (e : ham_status) :
  do_read_blobsize blobid flags w = (Throw e, w1) ->
  do_read blobid flags w = (Throw e, w1).
Proof. intros H. unfold do_read, bind. by rewrite H. Qed.

Lemma do_read_empty (blobid flags ptr : Z) (page : option Page) (w w1 : World) :
  do_read_blobsize blobid flags w = (Return (ptr, page, 0), w1) ->
  do_read blobid flags w
  = (Return tt,
     with_record w1 (set_rec_size 0 (set_rec_data None (record w1)))).
Proof. intros H. unfold do_read. unfold bind at 1. by rewrite H. Qed.

Lemma do_read_nonempty (blobid flags ptr : Z) (page : option Page)
    (blobsize : Z) (w w1 : World) :
  do_read_blobsize blobid flags w = (Return (ptr, page, blobsize), w1) ->
  blobsize <> 0 ->
  exists o w',
    do_read blobid flags w = (o, w')
    /\ (w' = w1 \/ exists d, w' = with_record w1 (set_rec_data d (record w1)))
    /\ (forall e, o = Throw e -> e = HAM_INTEGRITY_VIOLATED).
Proof.
  intros H Hnz. unfold do_read. unfold bind at 1. rewrite H.
  destruct (Z.eqb_spec blobsize 0); [done|].
  unfold bind at 1.
  destruct (do_read_data_record blobid flags ptr page blobsize w1)
    as (o & w' & -> & Hthrow & Hw').
  destruct o as [[]|e|].
  - destruct (do_read_verify_pure flags page w') as (o2 & -> & He & _).
    eauto.
  - by destruct (Hthrow e).
  - exists Diverge, w'. split; [done|]. split; [done | discriminate].
Qed.

End Reading.

(** C4.  [do_read], [do_get_blob_size] and [do_erase] throw
    [HAM_BLOB_NOT_FOUND] if and only if the blob header stored at the
    blob-id carries another [self]; when they do, the state is the state
    before the call, so no page header and no freelist has changed. *)
Theorem blob_not_found_iff_self_mismatch
    {platform : DiskDevice.Platform} {environment : Environment}
    (blobid flags : Z) (page : option Page) (w : World) :
  page_size_ok -> is_u64 blobid ->
  let mismatch := get_self (stored_header w blobid) <> blobid in
  ((do_read blobid flags w).1 = Throw HAM_BLOB_NOT_FOUND <-> mismatch)
  /\ ((do_get_blob_size blobid w).1 = Throw HAM_BLOB_NOT_FOUND <-> mismatch)
  /\ ((do_erase blobid page flags w).1 = Throw HAM_BLOB_NOT_FOUND <-> mismatch)
  /\ (mismatch ->
      (do_read blobid flags w).2 = w
      /\ (do_get_blob_size blobid w).2 = w
      /\ (do_erase blobid page flags w).2 = w).
Proof.
  intros Hps Hb mismatch.
  assert (Hdec : mismatch <->
            negb (get_self (stored_header w blobid) =? blobid) = true).
  { unfold mismatch. rewrite negb_true_iff, Z.eqb_neq. done. }
  (* do_read *)
  assert (Hread :
    if negb (get_self (stored_header w blobid) =? blobid)
    then do_read blobid flags w = (Throw HAM_BLOB_NOT_FOUND, w)
    else (do_read blobid flags w).1 <> Throw HAM_BLOB_NOT_FOUND).
  { pose proof (do_read_blobsize_spec Hps blobid flags w Hb) as Hfirst.
    cbv zeta in Hfirst.
    destruct (negb (get_self (stored_header w blobid) =? blobid)).
    - by apply do_read_throws_early.
    - assert (Hcases :
        (exists w1, do_read_blobsize blobid flags w
                    = (Throw HAM_INV_PARAMETER, w1))
        \/ exists ptr pg bs w1,
             do_read_blobsize blobid flags w = (Return (ptr, pg, bs), w1)).
      { rewrite Hfirst. destruct (has_flag flags HAM_PARTIAL); [|eauto 10].
        destruct (_ <? _); [eauto|]. destruct (_ <? _); eauto 10. }
      destruct Hcases as [[w1 H]|(ptr & pg & bs & w1 & H)].
      + by rewrite (do_read_throws_early _ _ _ _ _ H).
      + destruct (Z.eq_dec bs 0) as [->|Hnz].
        * by rewrite (do_read_empty _ _ _ _ _ _ H).
        * destruct (do_read_nonempty _ _ _ _ _ _ _ H Hnz)
            as (o & w' & -> & _ & Ho).
          cbn [fst]. intros ->. by specialize (Ho _ eq_refl). }
  (* do_get_blob_size *)
  assert (Hsize :
    do_get_blob_size blobid w
    = if negb (get_self (stored_header w blobid) =? blobid)
      then (Throw HAM_BLOB_NOT_FOUND, w)
      else (Return (get_size (stored_header w blobid)), w)).
  { unfold do_get_blob_size. unfold bind at 1.
    rewrite (read_chunk_pointer Hps) by done.
    unfold bind at 1, deref at 1, gets at 1.
    fold (stored_header w blobid).
    destruct (negb (get_self (stored_header w blobid) =? blobid)); done. }
  (* do_erase *)
  assert (Herase : exists w',
    do_erase blobid page flags w
    = if negb (get_self (stored_header w blobid) =? blobid)
      then (Throw HAM_BLOB_NOT_FOUND, w)
      else (Return tt, w')).
  { unfold do_erase. unfold bind at 1.
    rewrite (read_chunk_pointer Hps) by done.
    unfold bind at 1, deref at 1, gets at 1.
    fold (stored_header w blobid).
    destruct (negb (get_self (stored_header w blobid) =? blobid)); [by exists w|].
    unfold bind at 1, deref at 1, gets at 1.
    unfold bind at 1, header_update at 1, modify at 1.
    unfold bind at 1, header_get at 1, gets at 1.
    destruct (_ =? _); eexists; reflexivity. }
  destruct Herase as [w' Herase]. rewrite Hsize, Herase.
  destruct (negb (get_self (stored_header w blobid) =? blobid)).
  - rewrite Hread. cbn [fst snd].
    repeat split; intros; try done; by apply Hdec.
  - assert (Hno : ~ mismatch) by (rewrite Hdec; discriminate).
    repeat split; intros; try done.
Qed.

Section PartialReads.
Context {platform : DiskDevice.Platform} {environment : Environment}.
Hypothesis Hpage_size : page_size_ok.

(** The first part of a partial read whose offset lies inside the blob. *)
Lemma do_read_blobsize_partial (blobid flags : Z) (w : World) :
  is_u64 blobid -> has_flag flags HAM_PARTIAL = true ->
  get_self (stored_header w blobid) = blobid ->
  is_u32 (rec_partial_offset (record w)) ->
  let S := u32 (get_size (stored_header w blobid)) in
  let po := rec_partial_offset (record w) in
  let ps := rec_partial_size (record w) in
  let size := if S <? u32 (po + ps) then S - po else ps in
  po <= S ->
  exists r1,
    do_read_blobsize blobid flags w
    = (Return (blobid, Some (mkPage (blobid - blobid mod page_size_bytes)),
               size), with_record w r1)
    /\ rec_size r1 = S
    /\ (S < u32 (po + ps) -> rec_partial_size r1 = size)
    /\ (u32 (po + ps) <= S -> rec_partial_size r1 = ps)
    /\ rec_partial_offset r1 = po
    /\ rec_flags r1 = rec_flags (record w)
    /\ rec_data r1 = rec_data (record w).
Proof.
  intros Hb Hpartial Hself Hpo S po ps size Hin.
  pose proof (do_read_blobsize_spec Hpage_size blobid flags w Hb) as Hfirst.
  cbv zeta in Hfirst. rewrite Hpartial, Hself, Z.eqb_refl in Hfirst.
  cbn [negb] in Hfirst. fold S po ps in Hfirst.
  destruct (Z.ltb_spec S po); [lia|].
  pose proof (u32_range (get_size (stored_header w blobid))) as HS.
  fold S in HS. unfold is_u32 in HS, Hpo. fold po in Hpo.
  assert (Hclamp : u32 (S - po) = S - po)
    by (apply u32_small; unfold is_u32; lia).
  unfold size. destruct (Z.ltb_spec S (u32 (po + ps))).
  - rewrite Hclamp in Hfirst. eexists. split; [exact Hfirst|].
    cbn. rewrite (u32_small S), Hclamp by done.
    repeat split; try done; lia.
  - eexists. split; [exact Hfirst|]. cbn. rewrite (u32_small S) by done.
    repeat split; try done; lia.
Qed.

End PartialReads.

(** X25.  A partial read of a blob whose header stores the logical size [S]
    (as [do_read] takes it, in 32 bits).  When [partial_offset > S] the read
    throws [HAM_INV_PARAMETER].  Otherwise it does not, and the effective
    read size, which is the [blobsize] that the first part of [do_read]
    hands to the transfer, is [S - partial_offset] when
    [partial_offset + partial_size > S] (the sum as the source computes it,
    in 32 bits) and [partial_size] otherwise; [record.partial_size] holds
    that value after the call, and an uncompressed blob delivers that many
    bytes to a buffer of the library, on a device on which the zero-copy
    path stays inside a page buffer. *)
Theorem partial_read_clamps_to_blob_size
    {platform : DiskDevice.Platform} {environment : Environment}
    (blobid flags : Z) (w : World) :
  page_size_ok -> is_u64 blobid ->
  has_flag flags HAM_PARTIAL = true ->
  get_self (stored_header w blobid) = blobid ->
  is_u32 (rec_partial_offset (record w)) ->
  is_u32 (rec_partial_size (record w)) ->
  let S := u32 (get_size (stored_header w blobid)) in
  let po := rec_partial_offset (record w) in
  let ps := rec_partial_size (record w) in
  let size := if S <? u32 (po + ps) then S - po else ps in
  (S < po -> (do_read blobid flags w).1 = Throw HAM_INV_PARAMETER)
  /\
  (po <= S ->
   (do_read blobid flags w).1 <> Throw HAM_INV_PARAMETER
   /\ (S < u32 (po + ps) -> size = S - po)
   /\ (u32 (po + ps) <= S -> size = ps)
   /\ (exists ptr page w1,
         do_read_blobsize blobid flags w = (Return (ptr, page, size), w1))
   /\ rec_partial_size (record (do_read blobid flags w).2) = size
   /\ (has_flag (get_flags (stored_header w blobid)) kIsCompressed = false ->
       has_flag (rec_flags (record w)) HAM_RECORD_USER_ALLOC = false ->
       blobid + sizeof_PBlobHeader + po + size < 2 ^ 64 ->
       zero_copy_in_bounds (device w) blobid
         (blobid + sizeof_PBlobHeader + po) size ->
       size <> 0 ->
       (do_read blobid flags w).1 = Return tt
       /\ exists bytes,
            rec_data (record (do_read blobid flags w).2) = Some bytes
            /\ Z.of_nat (length bytes) = size)).
Proof.
  intros Hps Hb Hpartial Hself Hpo Hpsz S po ps size. split.
  - intros Hout.
    pose proof (do_read_blobsize_spec Hps blobid flags w Hb) as Hfirst.
    cbv zeta in Hfirst. rewrite Hpartial, Hself, Z.eqb_refl in Hfirst.
    cbn [negb] in Hfirst. fold S po in Hfirst.
    destruct (Z.ltb_spec S po); [|lia].
    by rewrite (do_read_throws_early _ _ _ _ _ Hfirst).
  - intros Hin.
    destruct (do_read_blobsize_partial Hps blobid flags w Hb Hpartial Hself
                Hpo Hin)
      as (r1 & Hfirst & Hr1size & Hclamped & Hplain & Hr1po & Hr1flags & Hr1data).
    fold S po ps size in Hfirst, Hclamped, Hplain.
    assert (Hsize : is_u32 size).
    { pose proof (u32_range (get_size (stored_header w blobid))) as HS.
      fold S in HS. unfold size, is_u32 in *. fold po ps in Hpo, Hpsz.
      destruct (S <? u32 (po + ps)); lia. }
    assert (Hr1ps : rec_partial_size r1 = size).
    { unfold size in *. destruct (Z.ltb_spec S (u32 (po + ps))); auto. }
    split; [|split; [|split; [|split; [|split]]]].
    + destruct (Z.eq_dec size 0) as [Hz|Hnz].
      * rewrite Hz in Hfirst. by rewrite (do_read_empty _ _ _ _ _ _ Hfirst).
      * destruct (do_read_nonempty _ _ _ _ _ _ _ Hfirst Hnz)
          as (o & w' & -> & _ & Ho).
        cbn [fst]. intros ->. by specialize (Ho _ eq_refl).
    + intros Hlt. unfold size. destruct (Z.ltb_spec S (u32 (po + ps))); lia.
    + intros Hge. unfold size. destruct (Z.ltb_spec S (u32 (po + ps))); lia.
    + eauto.
    + destruct (Z.eq_dec size 0) as [Hz|Hnz].
      * rewrite Hz in Hfirst. rewrite (do_read_empty _ _ _ _ _ _ Hfirst).
        cbn. by rewrite Hr1ps.
      * destruct (do_read_nonempty _ _ _ _ _ _ _ Hfirst Hnz)
          as (o & w' & -> & [->|[d ->]] & _); cbn; done.
    + intros Hplainblob Huser Hend Hbounds Hnz.
      assert (Hdata :
        do_read_data blobid flags blobid
          (Some (mkPage (blobid - blobid mod page_size_bytes))) size
          (with_record w r1)
        = (Return tt,
           with_record (with_record w r1)
             (set_rec_data
                (Some (load_bytes (raw_payload w)
                         (blobid + sizeof_PBlobHeader + po) (Z.to_nat size)))
                r1))).
      { pose proof (do_read_data_uncompressed Hps blobid flags
                      (Some (mkPage (blobid - blobid mod page_size_bytes)))
                      size (with_record w r1)) as Hd.
        cbv zeta in Hd. cbn [record with_record raw_payload device] in Hd.
        rewrite Hpartial, Hr1po, Hr1flags, Huser in Hd.
        apply Hd; try done.
        unfold is_u64, is_u32, sizeof_PBlobHeader in *. lia. }
      assert (Hrun :
        do_read blobid flags w
        = (Return tt,
           with_record (with_record w r1)
             (set_rec_data
                (Some (load_bytes (raw_payload w)
                         (blobid + sizeof_PBlobHeader + po) (Z.to_nat size)))
                r1))).
      { unfold do_read. unfold bind at 1. rewrite Hfirst.
        destruct (Z.eqb_spec size 0); [done|].
        unfold bind at 1. rewrite Hdata.
        match goal with
        | |- do_read_verify ?f ?pg ?w' = _ =>
            destruct (do_read_verify_pure f pg w') as (o & -> & _ & Hret)
        end.
        by rewrite (Hret Hpartial). }
      rewrite Hrun. cbn. split; [done|].
      eexists. split; [reflexivity|].
      rewrite length_load_bytes. unfold is_u32 in Hsize. lia.
Qed.


(** ** Stored headers *)

Lemma Z_of_byte_range (b : byte) : 0 <= Z_of_byte b < 256.
Proof.
  unfold Z_of_byte. pose proof (Byte.to_N_bounded b) as H.
  apply N2Z.inj_le in H. simpl in H. lia.
Qed.

Lemma le_decode_range (bs : list byte) :
  0 <= le_decode bs < 256 ^ Z.of_nat (length bs).
Proof.
  induction bs as [|b bs IH].
  - simpl. lia.
  - cbn [le_decode length]. pose proof (Z_of_byte_range b).
    rewrite Nat2Z.inj_succ, Z.pow_succ_r by lia. lia.
Qed.

Lemma stored_alloc_size_u32
    {platform : DiskDevice.Platform} (w : World) (b : Z) :
  is_u32 (get_alloc_size (stored_header w b)).
Proof.
  unfold stored_header, blob_header_at. cbn [get_alloc_size].
  pose proof (le_decode_range (load_bytes (raw_payload w) (b + 16) 4)) as H.
  rewrite length_load_bytes in H. exact H.
Qed.

Lemma stored_flags_u32
    {platform : DiskDevice.Platform} (w : World) (b : Z) :
  is_u32 (get_flags (stored_header w b)).
Proof.
  unfold stored_header, blob_header_at. cbn [get_flags].
  pose proof (le_decode_range (load_bytes (raw_payload w) (b + 20) 4)) as H.
  rewrite length_load_bytes in H. exact H.
Qed.

Lemma stored_size_u64
    {platform : DiskDevice.Platform} (w : World) (b : Z) :
  is_u64 (get_size (stored_header w b)).
Proof.
  unfold stored_header, blob_header_at. cbn [get_size].
  pose proof (le_decode_range (load_bytes (raw_payload w) (b + 8) 8)) as H.
  rewrite length_load_bytes in H. exact H.
Qed.

(** ** Blob headers in the page bytes *)

Lemma length_blob_header_bytes (h : PBlobHeader) :
  Z.of_nat (length (blob_header_bytes h)) = sizeof_PBlobHeader.
Proof.
  unfold blob_header_bytes. rewrite !length_app, !length_le_encode. reflexivity.
Qed.

Lemma load_stored_slice raw a (pre mid post : list byte) (off : Z) (n : nat) :
  off = Z.of_nat (length pre) -> n = length mid ->
  load_bytes (store_bytes raw a (pre ++ mid ++ post)) (a + off) n = mid.
Proof.
  intros -> ->.
  transitivity
    (load_bytes (store_bytes (store_bytes raw a pre)
                   (a + Z.of_nat (length pre)) mid)
       (a + Z.of_nat (length pre)) (length mid));
    [|apply load_store_bytes].
  apply load_bytes_ext. intros x Hx.
  rewrite <- store_bytes_app.
  rewrite <- (store_bytes_app (store_bytes raw a pre)).
  apply store_bytes_outside. lia.
Qed.

Lemma blob_header_at_ext (raw1 raw2 : Z -> byte) (a : Z) :
  (forall x, a <= x < a + sizeof_PBlobHeader -> raw1 x = raw2 x) ->
  blob_header_at raw1 a = blob_header_at raw2 a.
Proof.
  intros Hext. unfold blob_header_at, sizeof_PBlobHeader in *.
  f_equal; f_equal; apply load_bytes_ext; intros x Hx; apply Hext; lia.
Qed.

(** The header that was copied to the page is the header that is read. *)
Lemma blob_header_at_stored (raw : Z -> byte) (a : Z) (h : PBlobHeader)
    (rest : list byte) :
  blob_header_fits h ->
  blob_header_at (store_bytes raw a (blob_header_bytes h ++ rest)) a = h.
Proof.
  intros (Hself & Hsize & Halloc & Hflags).
  destruct h as [self size alloc flags]. cbn [get_self get_size get_alloc_size
    get_flags] in *.
  unfold blob_header_at, blob_header_bytes.
  cbn [get_self get_size get_alloc_size get_flags].
  set (e1 := le_encode 8 self). set (e2 := le_encode 8 size).
  set (e3 := le_encode 4 alloc). set (e4 := le_encode 4 flags).
  assert (H1 : length e1 = 8%nat) by apply length_le_encode.
  assert (H2 : length e2 = 8%nat) by apply length_le_encode.
  assert (H3 : length e3 = 4%nat) by apply length_le_encode.
  assert (H4 : length e4 = 4%nat) by apply length_le_encode.
  f_equal.
  - rewrite <- (Z.add_0_r a) at 2.
    replace ((e1 ++ e2 ++ e3 ++ e4) ++ rest)
      with ([] ++ e1 ++ (e2 ++ e3 ++ e4 ++ rest))
      by (by rewrite <- !app_assoc).
    rewrite load_stored_slice by done.
    unfold e1. rewrite le_decode_encode. apply Z.mod_small. exact Hself.
  - replace ((e1 ++ e2 ++ e3 ++ e4) ++ rest)
      with (e1 ++ e2 ++ (e3 ++ e4 ++ rest))
      by (by rewrite <- !app_assoc).
    rewrite load_stored_slice by (done || lia).
    unfold e2. rewrite le_decode_encode. apply Z.mod_small. exact Hsize.
  - replace ((e1 ++ e2 ++ e3 ++ e4) ++ rest)
      with ((e1 ++ e2) ++ e3 ++ (e4 ++ rest))
      by (by rewrite <- !app_assoc).
    rewrite load_stored_slice by (done || (rewrite length_app; lia)).
    unfold e3. rewrite le_decode_encode. apply Z.mod_small. exact Halloc.
  - replace ((e1 ++ e2 ++ e3 ++ e4) ++ rest)
      with ((e1 ++ e2 ++ e3) ++ e4 ++ rest)
      by (by rewrite <- !app_assoc).
    rewrite load_stored_slice by (done || (rewrite !length_app; lia)).
    unfold e4. rewrite le_decode_encode. apply Z.mod_small. exact Hflags.
Qed.

(** ** Overwriting *)

Section Overwriting.
Context {platform : DiskDevice.Platform} {environment : Environment}.
Hypothesis Hpage_size : page_size_ok.

Lemma stored_header_after_write (w w1 : World) (a : Z) (h : PBlobHeader)
    (rest : list byte) :
  blob_header_fits h ->
  (forall x, raw_payload w1 x
             = store_bytes (raw_payload w) a (blob_header_bytes h ++ rest) x) ->
  stored_header w1 a = h.
Proof.
  intros Hfits Hraw. unfold stored_header.
  rewrite (blob_header_at_ext (raw_payload w1)
             (store_bytes (raw_payload w) a (blob_header_bytes h ++ rest)))
    by (intros x _; apply Hraw).
  by apply blob_header_at_stored.
Qed.

(** The write of a new header and of the record data over an old blob,
    as the in-place path of [do_overwrite] does it. *)
Lemma overwrite_writes (page : Page) (self flags : Z) (h : PBlobHeader)
    (r : ham_record_t) (w : World) :
  blob_header_fits h -> 0 <= self ->
  is_u32 (rec_size r) -> is_u32 (rec_partial_offset r) ->
  is_u32 (rec_partial_size r) ->
  let extent :=
    if has_flag flags HAM_PARTIAL
    then rec_partial_offset r + rec_partial_size r else rec_size r in
  self + sizeof_PBlobHeader + extent < 2 ^ 64 ->
  exists w1,
    (if has_flag flags HAM_PARTIAL && negb (rec_partial_offset r =? 0)
     then
       bind (write_chunks (Some page) self
               [(blob_header_bytes h, sizeof_PBlobHeader)])
         (fun _ =>
            write_chunks (Some page)
              (u64 (self + sizeof_PBlobHeader + rec_partial_offset r))
              [(data_bytes (rec_data r), rec_partial_size r)])
     else
       write_chunks (Some page) self
         [(blob_header_bytes h, sizeof_PBlobHeader);
          (data_bytes (rec_data r),
           if has_flag flags HAM_PARTIAL then rec_partial_size r
           else rec_size r)]) w
    = (Return tt, w1)
    /\ same_but_payload w w1
    /\ stored_header w1 self = h
    /\ (forall x, x < self \/ self + sizeof_PBlobHeader + extent <= x ->
                  raw_payload w1 x = raw_payload w x).
Proof.
  intros Hfits Hself Hsize Hpo Hpsz extent Hend.
  pose proof (length_blob_header_bytes h) as Hlen.
  assert (Hhdr : buffer_bytes sizeof_PBlobHeader (blob_header_bytes h)
                 = blob_header_bytes h).
  { apply buffer_bytes_exact. lia. }
  unfold is_u32, sizeof_PBlobHeader in *.
  destruct (has_flag flags HAM_PARTIAL) eqn:Hpartial; cbn [andb].
  - destruct (Z.eqb_spec (rec_partial_offset r) 0) as [Hz|Hnz]; cbn [negb].
    + (* partial, no leading gap *)
      destruct (write_chunks_spec Hpage_size
                  [(blob_header_bytes h, 24);
                   (data_bytes (rec_data r), rec_partial_size r)]
                  (Some page) self w)
        as (w1 & Hrun & Hsame & Hraw);
        [lia | repeat constructor; cbn; unfold is_u32; lia
         | cbn; unfold extent in Hend; lia |].
      exists w1. split; [exact Hrun|]. split; [exact Hsame|].
      cbn [chunks_bytes flat_map fst snd] in Hraw.
      rewrite Hhdr in Hraw.
      split; [eapply stored_header_after_write; eauto|].
      intros x Hx. rewrite Hraw. apply store_bytes_outside.
      rewrite !length_app, length_buffer_bytes. simpl length.
      unfold extent in *. lia.
    + (* partial, leading gap: two writes *)
      unfold bind.
      destruct (write_chunks_spec Hpage_size [(blob_header_bytes h, 24)]
                  (Some page) self w)
        as (w1 & Hrun1 & Hsame1 & Hraw1);
        [lia | repeat constructor; cbn; unfold is_u32; lia | cbn; lia |].
      rewrite Hrun1.
      rewrite (u64_small (self + 24 + rec_partial_offset r))
        by (unfold is_u64, extent in *; lia).
      destruct (write_chunks_spec Hpage_size
                  [(data_bytes (rec_data r), rec_partial_size r)]
                  (Some page) (self + 24 + rec_partial_offset r) w1)
        as (w2 & Hrun2 & Hsame2 & Hraw2);
        [lia | repeat constructor; cbn; unfold is_u32; lia
         | cbn; unfold extent in Hend; lia |].
      exists w2. split; [exact Hrun2|].
      split; [eapply same_but_payload_trans; eauto|].
      cbn [chunks_bytes flat_map fst snd] in Hraw1, Hraw2.
      rewrite Hhdr in Hraw1.
      split.
      * unfold stored_header.
        rewrite (blob_header_at_ext (raw_payload w2) (raw_payload w1)).
        -- eapply stored_header_after_write; eauto.
        -- intros x Hx. rewrite Hraw2. apply store_bytes_outside.
           unfold sizeof_PBlobHeader in Hx. lia.
      * intros x Hx. rewrite Hraw2, store_bytes_outside.
        -- rewrite Hraw1. apply store_bytes_outside.
           rewrite !length_app. simpl length. unfold extent in *. lia.
        -- rewrite !length_app, length_buffer_bytes. simpl length.
           unfold extent in *. lia.
  - (* not partial *)
    destruct (write_chunks_spec Hpage_size
                [(blob_header_bytes h, 24);
                 (data_bytes (rec_data r), rec_size r)]
                (Some page) self w)
      as (w1 & Hrun & Hsame & Hraw);
      [lia | repeat constructor; cbn; unfold is_u32; lia
       | cbn; unfold extent in Hend; lia |].
    exists w1. split; [exact Hrun|]. split; [exact Hsame|].
    cbn [chunks_bytes flat_map fst snd] in Hraw.
    rewrite Hhdr in Hraw.
    split; [eapply stored_header_after_write; eauto|].
    intros x Hx. rewrite Hraw. apply store_bytes_outside.
    rewrite !length_app, length_buffer_bytes. simpl length.
    unfold extent in *. lia.
Qed.

(** The in-place path of [do_overwrite]. *)
Lemma do_overwrite_in_place (old_blobid flags : Z) (w : World) :
  is_u64 old_blobid ->
  get_self (stored_header w old_blobid) = old_blobid ->
  let r := record w in
  let alloc_size := u32 (sizeof_PBlobHeader + rec_size r) in
  let extent :=
    if has_flag flags HAM_PARTIAL
    then rec_partial_offset r + rec_partial_size r else rec_size r in
  alloc_size <= get_alloc_size (stored_header w old_blobid) ->
  is_u32 (rec_size r) -> is_u32 (rec_partial_offset r) ->
  is_u32 (rec_partial_size r) ->
  old_blobid + sizeof_PBlobHeader + extent < 2 ^ 64 ->
  exists w',
    do_overwrite old_blobid flags w = (Return old_blobid, w')
    /\ stored_header w' old_blobid
       = mkBlobHeader old_blobid (rec_size r) alloc_size 0
    /\ page_manager w' = page_manager w
    /\ record w' = record w
    /\ (forall x, x < old_blobid
                  \/ old_blobid + sizeof_PBlobHeader + extent <= x ->
                  raw_payload w' x = raw_payload w x).
Proof.
  intros Hb Hself r alloc_size extent Hfit Hsize Hpo Hpsz Hend.
  set (new_blob_header := mkBlobHeader old_blobid (rec_size r) alloc_size 0).
  assert (Hfits : blob_header_fits new_blob_header).
  { unfold blob_header_fits, new_blob_header. cbn.
    repeat split; try apply Hb; try apply u32_range;
      unfold is_u32, is_u64 in *; lia. }
  assert (Hset :
    set_flags
      (set_alloc_size
         (set_size (set_self (mkBlobHeader 0 0 0 0) old_blobid) (rec_size r))
         alloc_size) 0 = new_blob_header).
  { unfold set_flags, set_alloc_size, set_size, set_self, new_blob_header.
    cbn [get_self get_size get_alloc_size get_flags].
    rewrite (u64_small old_blobid) by done.
    rewrite (u64_small (rec_size r)) by (unfold is_u32, is_u64 in *; lia).
    unfold alloc_size. rewrite u32_idem. done. }
  unfold do_overwrite.
  unfold bind at 1, get_record at 1, gets at 1. fold r. fold alloc_size.
  unfold bind at 1. rewrite (read_chunk_pointer Hpage_size) by done.
  unfold bind at 1, deref at 1, gets at 1.
  fold (stored_header w old_blobid). rewrite Hself, Z.eqb_refl. cbn [negb].
  unfold bind at 1, deref at 1, gets at 1.
  fold (stored_header w old_blobid).
  destruct (Z.leb_spec alloc_size (get_alloc_size (stored_header w old_blobid)));
    [|lia].
  unfold bind at 1, deref at 1, gets at 1.
  fold (stored_header w old_blobid). rewrite Hself, Hset.
  change (get_self new_blob_header) with old_blobid.
  unfold bind at 1.
  destruct (overwrite_writes
              (mkPage (old_blobid - old_blobid mod page_size_bytes))
              old_blobid flags new_blob_header r w)
    as (w1 & Hrun & Hsame & Hstored & Hframe);
    [done | apply Hb | done | done | done | done |].
  rewrite Hrun.
  unfold bind at 1, deref at 1, gets at 1.
  fold (stored_header w1 old_blobid). rewrite Hstored.
  change (get_alloc_size new_blob_header) with alloc_size.
  rewrite Z.ltb_irrefl.
  unfold bind at 1, ret at 1.
  unfold bind at 1, header_get at 1, gets at 1.
  destruct Hsame as (Hh & Hpm & Hdev & Hm1 & Hm2 & Hrec).
  unfold bind at 1.
  destruct ((1 <? _) && has_flag env_flags HAM_ENABLE_CRC32).
  - unfold header_update, modify, ret.
    eexists. split; [reflexivity|].
    unfold stored_header in *. cbn [raw_payload page_manager record]. done.
  - unfold ret. eexists. split; [reflexivity|]. done.
Qed.

End Overwriting.

(** C9.  Whenever [do_overwrite] takes the in-place path (the new
    [sizeof(header) + record.size] is at most the old [alloc_size]), it
    returns the old id and the blob header stored afterwards has
    [flags = 0]: the compressed bit is cleared, whatever compressor the
    database has and whatever flags the old header carried. *)
Theorem overwrite_in_place_clears_compression
    {platform : DiskDevice.Platform} {environment : Environment}
    (old_blobid flags : Z) (w : World) :
  page_size_ok -> is_u64 old_blobid ->
  get_self (stored_header w old_blobid) = old_blobid ->
  let r := record w in
  let alloc_size := u32 (sizeof_PBlobHeader + rec_size r) in
  alloc_size <= get_alloc_size (stored_header w old_blobid) ->
  is_u32 (rec_size r) -> is_u32 (rec_partial_offset r) ->
  is_u32 (rec_partial_size r) ->
  old_blobid + sizeof_PBlobHeader
  + (if has_flag flags HAM_PARTIAL
     then rec_partial_offset r + rec_partial_size r else rec_size r) < 2 ^ 64 ->
  let w' := (do_overwrite old_blobid flags w).2 in
  (do_overwrite old_blobid flags w).1 = Return old_blobid
  /\ get_flags (stored_header w' old_blobid) = 0
  /\ has_flag (get_flags (stored_header w' old_blobid)) kIsCompressed = false
  /\ get_self (stored_header w' old_blobid) = old_blobid
  /\ get_size (stored_header w' old_blobid) = rec_size r
  /\ get_alloc_size (stored_header w' old_blobid) = alloc_size.
Proof.
  intros Hps Hb Hself r alloc_size Hfit Hsize Hpo Hpsz Hend w'.
  destruct (do_overwrite_in_place Hps old_blobid flags w Hb Hself Hfit Hsize
              Hpo Hpsz Hend) as (w2 & Hrun & Hstored & _).
  unfold w'. rewrite Hrun. cbn [fst snd]. rewrite Hstored.
  repeat split.
Qed.

(** ** Allocating *)

Section Allocating.
Context {platform : DiskDevice.Platform} {environment : Environment}.
Hypothesis Hpage_size : page_size_ok.

(** The first part: only the metrics change. *)
Lemma do_allocate_compress_spec (flags : Z) (r : ham_record_t) (w : World) :
  exists w1,
    do_allocate_compress flags r w = (Return (stored_payload flags r), w1)
    /\ raw_payload w1 = raw_payload w
    /\ page_header w1 = page_header w
    /\ page_manager w1 = page_manager w
    /\ device w1 = device w
    /\ record w1 = record w.
Proof.
  unfold do_allocate_compress, stored_payload.
  destruct get_record_compressor as [compressor|]; [|by exists w].
  destruct (negb (has_flag flags kDisableCompression)); [|by exists w].
  unfold bind at 1, add_metric_before_compression at 1, modify at 1.
  destruct (_ <? _); unfold bind, add_metric_after_compression, modify, ret;
    eexists; (split; [reflexivity|]); done.
Qed.

(** The third part: the header and the data reach the page bytes, and
    nothing outside the blob is written. *)
Lemma do_allocate_write_spec (flags : Z) (r : ham_record_t)
    (record_data : list byte) (record_size : Z) (page : Page) (address : Z)
    (h : PBlobHeader) (w : World) :
  blob_header_fits h -> 0 <= address ->
  is_u32 (rec_size r) -> is_u32 (rec_partial_offset r) ->
  is_u32 (rec_partial_size r) -> is_u32 record_size ->
  sizeof_PBlobHeader
  + (if has_flag flags HAM_PARTIAL then rec_partial_size r else record_size)
  < 2 ^ 32 ->
  let extent := written_extent flags r record_size in
  address + sizeof_PBlobHeader + extent < 2 ^ 64 ->
  exists w1,
    do_allocate_write flags r record_data record_size page address h w
    = (Return tt, w1)
    /\ same_but_payload w w1
    /\ stored_header w1 address = h
    /\ (forall x, x < address \/ address + sizeof_PBlobHeader + extent <= x ->
                  raw_payload w1 x = raw_payload w x)
    /\ (has_flag flags HAM_PARTIAL = false ->
        load_bytes (raw_payload w1) (address + sizeof_PBlobHeader)
          (Z.to_nat record_size)
        = buffer_bytes record_size record_data).
Proof.
  intros Hfits Ha Hsize Hpo Hpsz Hrs Hc1 extent Hend.
  pose proof (length_blob_header_bytes h) as Hlen.
  assert (Hhdr : buffer_bytes sizeof_PBlobHeader (blob_header_bytes h)
                 = blob_header_bytes h).
  { apply buffer_bytes_exact. lia. }
  subst extent. unfold written_extent in *.
  unfold do_allocate_write.
  unfold is_u32, sizeof_PBlobHeader in *.
  destruct (has_flag flags HAM_PARTIAL) eqn:Hpartial; cbn [andb] in *.
  - (* a partial write *)
    set (trail := if u32 (rec_partial_offset r + rec_partial_size r)
                       <? rec_size r
                  then u32 (rec_size r
                            - u32 (rec_partial_offset r + rec_partial_size r))
                  else 0) in *.
    assert (Htrail : 0 <= trail < 2 ^ 32).
    { unfold trail. destruct (_ <? _); [apply u32_range | lia]. }
    (* the trailing gap, written from [a3] in a state [w3] *)
    assert (Htail : forall (a3 : Z) (w3 : World),
      0 <= a3 -> a3 + trail < 2 ^ 64 ->
      exists w4,
        (if u32 (rec_partial_offset r + rec_partial_size r) <? rec_size r
         then
           bind (fill_gap_loop
                   (Z.to_nat (u32 (rec_size r
                        - u32 (rec_partial_offset r + rec_partial_size r))))
                   true page a3
                   (u32 (rec_size r
                         - u32 (rec_partial_offset r + rec_partial_size r))))
             (fun _ => ret tt)
         else ret tt) w3 = (Return tt, w4)
        /\ same_but_payload w3 w4
        /\ (forall x, x < a3 \/ a3 + trail <= x ->
                      raw_payload w4 x = raw_payload w3 x)).
    { intros a3 w3 Ha3 Hend3. unfold trail in *.
      destruct (_ <? _).
      - unfold bind.
        destruct (fill_gap_loop_spec Hpage_size true page
                    (Z.to_nat (u32 (rec_size r
                         - u32 (rec_partial_offset r + rec_partial_size r))))
                    a3
                    (u32 (rec_size r
                          - u32 (rec_partial_offset r + rec_partial_size r)))
                    w3)
          as (w4 & Hrun & Hsame & Hraw); [lia | done | lia | lia |].
        rewrite Hrun. exists w4. split; [done|]. split; [done|].
        intros x Hx. rewrite Hraw. apply store_bytes_outside.
        rewrite length_replicate. lia.
      - exists w3. split; [done|]. split; [apply same_but_payload_refl|].
        done. }
    destruct (Z.ltb_spec 0 (rec_partial_offset r)) as [Hgap|Hnogap].
    + (* header, leading gap, data *)
      unfold bind at 1. unfold bind at 1.
      destruct (write_chunks_spec Hpage_size [(blob_header_bytes h, 24)]
                  (Some page) address w)
        as (w1 & Hrun1 & Hsame1 & Hraw1);
        [lia | repeat constructor; cbn; unfold is_u32; lia | cbn; lia |].
      rewrite Hrun1.
      rewrite (u64_small (address + 24)) by (unfold is_u64; lia).
      unfold bind at 1.
      destruct (fill_gap_loop_spec Hpage_size false page
                  (Z.to_nat (rec_partial_offset r)) (address + 24)
                  (rec_partial_offset r) w1)
        as (w2 & Hrun2 & Hsame2 & Hraw2);
        [lia | unfold is_u32; lia | lia | lia |].
      rewrite Hrun2. unfold bind at 1.
      destruct (write_chunks_spec Hpage_size
                  [(data_bytes (rec_data r), rec_partial_size r)]
                  (Some page) (address + 24 + rec_partial_offset r) w2)
        as (w3 & Hrun3 & Hsame3 & Hraw3);
        [lia | repeat constructor; cbn; unfold is_u32; lia | cbn; lia |].
      rewrite Hrun3. unfold ret at 1.
      rewrite (u64_small (address + 24 + rec_partial_offset r
                          + rec_partial_size r)) by (unfold is_u64; lia).
      destruct (Htail (address + 24 + rec_partial_offset r
                       + rec_partial_size r) w3) as (w4 & Hrun4 & Hsame4 & Hraw4);
        [lia | lia |].
      rewrite Hrun4. exists w4. split; [done|].
      split; [repeat (eapply same_but_payload_trans; [eassumption|]);
              apply same_but_payload_refl|].
      cbn [chunks_bytes flat_map fst snd] in Hraw1, Hraw3.
      rewrite Hhdr in Hraw1.
      assert (Hkeep : forall x, x < address + 24 ->
                raw_payload w4 x = raw_payload w1 x).
      { intros x Hx. rewrite Hraw4 by lia. rewrite Hraw3.
        rewrite store_bytes_outside by lia.
        rewrite Hraw2. apply store_bytes_outside. lia. }
      split; [|split; [|discriminate]].
      * unfold stored_header.
        rewrite (blob_header_at_ext (raw_payload w4) (raw_payload w1))
          by (intros x Hx; apply Hkeep; unfold sizeof_PBlobHeader in Hx; lia).
        eapply stored_header_after_write; eauto.
      * intros x Hx.
        rewrite Hraw4 by lia. rewrite Hraw3.
        rewrite store_bytes_outside
          by (rewrite !length_app, length_buffer_bytes; simpl length; lia).
        rewrite Hraw2.
        rewrite store_bytes_outside by (rewrite length_replicate; lia).
        rewrite Hraw1. apply store_bytes_outside.
        rewrite !length_app. simpl length. lia.
    + (* header and data in one write *)
      unfold bind at 1. unfold bind at 1.
      destruct (write_chunks_spec Hpage_size
                  [(blob_header_bytes h, 24);
                   (record_data, rec_partial_size r)]
                  (Some page) address w)
        as (w1 & Hrun1 & Hsame1 & Hraw1);
        [lia | repeat constructor; cbn; unfold is_u32; lia | cbn; lia |].
      rewrite Hrun1. unfold ret at 1.
      rewrite (u32_small (24 + rec_partial_size r)) by (unfold is_u32; lia).
      rewrite (u64_small (address + (24 + rec_partial_size r)))
        by (unfold is_u64; lia).
      destruct (Htail (address + (24 + rec_partial_size r)) w1)
        as (w4 & Hrun4 & Hsame4 & Hraw4); [lia | lia |].
      rewrite Hrun4. exists w4. split; [done|].
      split; [eapply same_but_payload_trans; eauto|].
      cbn [chunks_bytes flat_map fst snd] in Hraw1.
      rewrite Hhdr in Hraw1.
      split; [|split; [|discriminate]].
      * unfold stored_header.
        rewrite (blob_header_at_ext (raw_payload w4) (raw_payload w1))
          by (intros x Hx; apply Hraw4;
              unfold sizeof_PBlobHeader in Hx; lia).
        eapply stored_header_after_write; eauto.
      * intros x Hx. rewrite Hraw4 by lia. rewrite Hraw1.
        apply store_bytes_outside.
        rewrite !length_app, length_buffer_bytes. simpl length. lia.
  - (* not partial *)
    unfold bind at 1. unfold bind at 1.
    destruct (write_chunks_spec Hpage_size
                [(blob_header_bytes h, 24); (record_data, record_size)]
                (Some page) address w)
      as (w1 & Hrun1 & Hsame1 & Hraw1);
      [lia | repeat constructor; cbn; unfold is_u32; lia | cbn; lia |].
    rewrite Hrun1. unfold ret. exists w1. split; [done|]. split; [done|].
    cbn [chunks_bytes flat_map fst snd] in Hraw1. rewrite Hhdr in Hraw1.
    split; [eapply stored_header_after_write; eauto|].
    split.
    + intros x Hx. rewrite Hraw1. apply store_bytes_outside.
      rewrite !length_app, length_buffer_bytes. simpl length. lia.
    + intros _.
      rewrite (load_bytes_ext (raw_payload w1)
                 (store_bytes (raw_payload w) address
                    (blob_header_bytes h ++ buffer_bytes record_size record_data
                     ++ []))) by (intros x _; apply Hraw1).
      apply load_stored_slice; [lia|].
      by rewrite length_buffer_bytes.
Qed.

(** What a call of [alloc_from_freelist] can have done. *)
Lemma alloc_loop_inv (size poffset : Z) (header : PBlobPageHeader) :
  forall (n i : nat) (found : bool) (a : Z) (h' : PBlobPageHeader),
    (i + n <= length (m_freelist header))%nat ->
    alloc_from_freelist_loop n i header size poffset = (found, a, h') ->
    (found = false /\ a = poffset /\ h' = header)
    \/ (found = true
        /\ exists j off sz,
             m_freelist header !! j = Some (off, sz)
             /\ size <= sz /\ a = off
             /\ m_num_pages h' = m_num_pages header
             /\ length (m_freelist h') = length (m_freelist header)).
Proof.
  induction n as [|n IH]; intros i found a h' Hlen Hrun.
  - simpl in Hrun. injection Hrun as <- <- <-. by left.
  - cbn [alloc_from_freelist_loop] in Hrun.
    destruct (lookup_lt_is_Some_2 (m_freelist header) i) as [[off sz] He];
      [lia|].
    unfold get_freelist_size at 1, get_freelist_offset at 1 in Hrun.
    rewrite He in Hrun. cbn [fst snd] in Hrun.
    destruct (Z.eqb_spec sz size) as [Heq|Hne].
    + erewrite set_slot_both in Hrun by eauto.
      injection Hrun as <- <- <-. right. split; [done|].
      exists i, off, sz. unfold with_slot. cbn.
      rewrite length_insert. repeat split; try done; lia.
    + rewrite get_size_after_set_offset in Hrun.
      unfold get_freelist_size, get_freelist_offset in Hrun.
      rewrite He in Hrun. cbn [fst snd] in Hrun.
      destruct (Z.ltb_spec size sz).
      * erewrite set_slot_both in Hrun by eauto.
        injection Hrun as <- <- <-. right. split; [done|].
        exists i, off, sz. unfold with_slot. cbn.
        rewrite length_insert. repeat split; try done; lia.
      * apply (IH (S i)); [lia | done].
Qed.

Lemma alloc_from_freelist_inv (size poffset : Z) (header : PBlobPageHeader)
    (found : bool) (a : Z) (h' : PBlobPageHeader) :
  alloc_from_freelist header size poffset = (found, a, h') ->
  (found = false /\ a = poffset /\ h' = header)
  \/ (found = true
      /\ get_num_pages header <= 1
      /\ exists j off sz,
           m_freelist header !! j = Some (off, sz)
           /\ size <= sz /\ a = off
           /\ m_num_pages h' = m_num_pages header
           /\ length (m_freelist h') = length (m_freelist header)).
Proof.
  unfold alloc_from_freelist.
  destruct (Z.ltb_spec 1 (get_num_pages header)).
  - intros [= <- <- <-]. by left.
  - intros Hrun.
    destruct (alloc_loop_inv size poffset header
                (get_freelist_entries header) 0%nat found a h'
                ltac:(unfold get_freelist_entries; lia) Hrun)
      as [?|(? & ?)]; [by left | by right].
Qed.

Lemma get_offset_set_offset (h : PBlobPageHeader) (v : Z) :
  (0 < length (m_freelist h))%nat ->
  get_freelist_offset (set_freelist_offset h 0 v) 0 = u32 v.
Proof.
  intros Hlen. unfold get_freelist_offset, set_freelist_offset. cbn.
  destruct (m_freelist h) as [|e fl]; [simpl in Hlen; lia|]. done.
Qed.

Lemma do_allocate_from_freelist_spec (alloc_size : Z) (w : World) :
  (forall p, m_last_blob_page (page_manager w) = Some p ->
             0 <= get_address p /\ get_address p + 2 ^ 32 < 2 ^ 64
             /\ header_u32 (page_header w (get_address p))) ->
  exists pg addr w1,
    do_allocate_from_freelist alloc_size w = (Return (pg, addr), w1)
    /\ raw_payload w1 = raw_payload w
    /\ record w1 = record w
    /\ device w1 = device w
    /\ page_manager w1 = page_manager w
    /\ (forall x, length (m_freelist (page_header w1 x))
                  = length (m_freelist (page_header w x)))
    /\ (forall x, get_num_pages (page_header w1 x)
                  = get_num_pages (page_header w x))
    /\ ((pg = None /\ addr = 0)
        \/ exists p i off sz,
             m_last_blob_page (page_manager w) = Some p
             /\ get_num_pages (page_header w (get_address p)) <= 1
             /\ m_freelist (page_header w (get_address p)) !! i
                = Some (off, sz)
             /\ alloc_size <= sz
             /\ pg = Some p /\ addr = get_address p + off).
Proof.
  intros Hlast. unfold do_allocate_from_freelist.
  unfold bind at 1, get_last_blob_page at 1, gets at 1.
  destruct (m_last_blob_page (page_manager w)) as [p|] eqn:Hp.
  2: { exists None, 0, w. repeat split; try done. by left. }
  destruct (Hlast p eq_refl) as (Hp0 & Hp1 & Hu32).
  unfold bind at 1, header_get at 1, gets at 1. unfold from_page.
  destruct (alloc_from_freelist (page_header w (get_address p)) alloc_size 0)
    as [[found addr] h'] eqn:Halloc.
  unfold bind at 1, header_update at 1, modify at 1.
  destruct (alloc_from_freelist_inv _ _ _ _ _ _ Halloc)
    as [(-> & -> & ->)|(-> & Hnp & i & off & sz & Hslot & Hfit & -> & Hnum & Hlen)].
  - cbn [negb]. eexists _, _, _. split; [reflexivity|].
    cbn [raw_payload record device page_manager page_header].
    repeat split; try done.
    + intros x. by destruct (x =? get_address p) eqn:E;
        [apply Z.eqb_eq in E; subst|].
    + intros x. by destruct (x =? get_address p) eqn:E;
        [apply Z.eqb_eq in E; subst|].
    + by left.
  - cbn [negb]. eexists _, _, _. split; [reflexivity|].
    cbn [raw_payload record device page_manager page_header].
    repeat split; try done.
    + intros x. destruct (Z.eqb_spec x (get_address p)) as [->|]; done.
    + intros x. destruct (Z.eqb_spec x (get_address p)) as [->|]; done.
    + right. exists p, i, off, sz.
      repeat split; try done.
      rewrite (Z.add_comm off). apply u64_small.
      destruct Hu32 as (_ & _ & Hfl). rewrite Forall_lookup in Hfl.
      destruct (Hfl i (off, sz) Hslot) as [Hoff _].
      unfold is_u32, is_u64 in *. cbn in Hoff. lia.
Qed.

Lemma do_allocate_new_run_spec (flags : Z) (r : ham_record_t)
    (alloc_size : Z) (w : World) :
  let n := run_pages alloc_size in
  let a := place_run (page_manager w) n in
  0 <= a -> 0 <= kPageOverhead -> a + kPageOverhead < 2 ^ 64 ->
  exists w2,
    do_allocate_new_run flags r alloc_size w
    = (Return (mkPage a, a + kPageOverhead), w2)
    /\ raw_payload w2 = raw_payload w
    /\ record w2 = record w
    /\ device w2 = device w
    /\ get_num_pages (page_header w2 a) = u32 n
    /\ ((1 <? n) && has_flag env_flags HAM_ENABLE_CRC32 = true ->
        (0 < length (m_freelist (page_header w a)))%nat ->
        get_freelist_offset (page_header w2 a) 0
        = if negb (has_flag flags HAM_PARTIAL)
          then u32 (MurmurHash3_x86_32
                      (buffer_bytes (rec_size r) (data_bytes (rec_data r))) 0)
          else 0).
Proof.
  intros n a Ha Hk Hak. unfold do_allocate_new_run.
  fold (run_pages alloc_size). fold n.
  unfold bind at 1, alloc_multiple_blob_pages at 1.
  unfold bind at 1, gets at 1. fold a.
  unfold bind at 1, update_page_manager at 1, modify at 1. unfold ret at 1.
  unfold bind at 1, header_update at 1, modify at 1.
  unfold bind at 1, header_update at 1, modify at 1.
  unfold bind at 1, header_update at 1, modify at 1.
  unfold bind at 1, header_get at 1, gets at 1.
  cbn [from_page get_address page_header raw_payload record device
       page_manager]. rewrite !Z.eqb_refl.
  rewrite (u64_small (a + kPageOverhead)) by (unfold is_u64; lia).
  set (h3 := set_free_bytes
               (set_num_pages (initialize (page_header w a)) n)
               (u32 (n * page_size_bytes) - kPageOverhead)).
  assert (Hh3len : length (m_freelist h3) = length (m_freelist (page_header w a))).
  { unfold h3. cbn. by rewrite length_replicate. }
  assert (Hh3np : get_num_pages h3 = u32 n) by done.
  unfold bind at 1.
  destruct ((n =? 1) && (0 <? u32 (kPageOverhead + alloc_size))
            && (0 <? u32 (get_free_bytes h3 - alloc_size))) eqn:Hsingle.
  - (* a single page with a remainder: no CRC *)
    assert (Hn1 : n = 1).
    { apply andb_true_iff in Hsingle as [Hs _].
      apply andb_true_iff in Hs as [Hs _]. by apply Z.eqb_eq. }
    unfold bind at 1, header_update at 1, modify at 1.
    unfold header_update at 1, modify at 1.
    rewrite Hn1. cbn [Z.ltb Z.compare andb]. unfold bind, ret.
    eexists. split; [reflexivity|].
    cbn [raw_payload record device page_header]. rewrite !Z.eqb_refl.
    repeat split; try done.
  - unfold ret at 1. unfold bind at 1.
    destruct ((1 <? n) && has_flag env_flags HAM_ENABLE_CRC32) eqn:Hcrc.
    + unfold header_update, modify, ret.
      eexists. split; [reflexivity|].
      cbn [raw_payload record device page_header]. rewrite !Z.eqb_refl.
      repeat split; try done.
      intros _ Hlen. fold h3.
      rewrite get_offset_set_offset by (rewrite Hh3len; lia).
      destruct (negb (has_flag flags HAM_PARTIAL)); [apply u32_idem | done].
    + unfold ret. eexists. split; [reflexivity|].
      cbn [raw_payload record device page_header]. rewrite !Z.eqb_refl.
      repeat split; try done.
Qed.

Lemma do_allocate_account_spec (page : Page) (alloc_size : Z) (w : World) :
  exists w',
    do_allocate_account page alloc_size w = (Return tt, w')
    /\ raw_payload w' = raw_payload w
    /\ record w' = record w
    /\ device w' = device w
    /\ (forall x, get_num_pages (page_header w' x)
                  = get_num_pages (page_header w x))
    /\ (forall x, m_freelist (page_header w' x) = m_freelist (page_header w x)).
Proof.
  unfold do_allocate_account.
  unfold bind at 1, header_update at 1, modify at 1.
  unfold bind at 1, header_get at 1, gets at 1.
  destruct (negb _); unfold set_last_blob_page, update_page_manager, modify;
    (eexists; split; [reflexivity|]);
    cbn [raw_payload record device page_header];
    (repeat split; try done);
    intros x; destruct (x =? from_page page); done.
Qed.

(** The second part: the blob is placed in a slot of the freelist of the
    last blob page, or at the start of a new run. *)
Lemma do_allocate_space_spec (flags : Z) (r : ham_record_t)
    (alloc_size : Z) (w : World) :
  (forall p, m_last_blob_page (page_manager w) = Some p ->
             0 <= get_address p /\ get_address p + 2 ^ 32 < 2 ^ 64
             /\ header_u32 (page_header w (get_address p))) ->
  let n := run_pages alloc_size in
  let a := place_run (page_manager w) n in
  0 <= a -> 0 <= kPageOverhead -> a + kPageOverhead < 2 ^ 64 ->
  exists page address w2,
    do_allocate_space flags r alloc_size w = (Return (page, address), w2)
    /\ raw_payload w2 = raw_payload w
    /\ record w2 = record w
    /\ device w2 = device w
    /\ ((exists p i off sz,
           m_last_blob_page (page_manager w) = Some p
           /\ get_num_pages (page_header w (get_address p)) <= 1
           /\ m_freelist (page_header w (get_address p)) !! i = Some (off, sz)
           /\ alloc_size <= sz
           /\ page = p /\ address = get_address p + off /\ address <> 0
           /\ get_num_pages (page_header w2 (get_address p))
              = get_num_pages (page_header w (get_address p)))
        \/ (page = mkPage a /\ address = a + kPageOverhead
            /\ get_num_pages (page_header w2 a) = u32 n
            /\ ((1 <? n) && has_flag env_flags HAM_ENABLE_CRC32 = true ->
                (0 < length (m_freelist (page_header w a)))%nat ->
                get_freelist_offset (page_header w2 a) 0
                = if negb (has_flag flags HAM_PARTIAL)
                  then u32 (MurmurHash3_x86_32
                              (buffer_bytes (rec_size r)
                                 (data_bytes (rec_data r))) 0)
                  else 0))).
Proof.
  intros Hlast n a Ha Hk Hak. unfold do_allocate_space.
  destruct (do_allocate_from_freelist_spec alloc_size w Hlast)
    as (pg & addr & w1 & Hrun1 & Hraw1 & Hrec1 & Hdev1 & Hpm1 & Hlen1 & Hnp1
        & Hplace).
  unfold bind at 1. rewrite Hrun1.
  assert (Hnew : exists w2 w3,
    do_allocate_new_run flags r alloc_size w1
    = (Return (mkPage a, a + kPageOverhead), w2)
    /\ do_allocate_account (mkPage a) alloc_size w2 = (Return tt, w3)
    /\ raw_payload w3 = raw_payload w
    /\ record w3 = record w
    /\ device w3 = device w
    /\ get_num_pages (page_header w3 a) = u32 n
    /\ ((1 <? n) && has_flag env_flags HAM_ENABLE_CRC32 = true ->
        (0 < length (m_freelist (page_header w a)))%nat ->
        get_freelist_offset (page_header w3 a) 0
        = if negb (has_flag flags HAM_PARTIAL)
          then u32 (MurmurHash3_x86_32
                      (buffer_bytes (rec_size r) (data_bytes (rec_data r))) 0)
          else 0)).
  { pose proof (do_allocate_new_run_spec flags r alloc_size w1) as Hrun2.
    cbv zeta in Hrun2. rewrite Hpm1 in Hrun2. fold n a in Hrun2.
    destruct (Hrun2 Ha Hk Hak)
      as (w2 & Hrun2' & Hraw2 & Hrec2 & Hdev2 & Hnp2 & Hcrc2).
    destruct (do_allocate_account_spec (mkPage a) alloc_size w2)
      as (w3 & Hrun3 & Hraw3 & Hrec3 & Hdev3 & Hnp3 & Hfl3).
    exists w2, w3. split; [done|]. split; [done|].
    split; [congruence|]. split; [congruence|]. split; [congruence|].
    split; [by rewrite Hnp3|].
    intros Hcrc Hlen. unfold get_freelist_offset. rewrite Hfl3.
    apply Hcrc2; [done|]. by rewrite Hlen1. }
  destruct Hplace as [[-> ->]|(p & i & off & sz & Hp & Hnum & Hslot & Hfit
                               & -> & ->)].
  - (* no space in the freelist *)
    destruct Hnew as (w2 & w3 & Hrun2 & Hrun3 & Hraw3 & Hrec3 & Hdev3 & Hnp3
                      & Hcrc3).
    unfold bind at 1. cbn [Z.eqb]. rewrite Hrun2.
    unfold bind at 1. rewrite Hrun3. unfold ret.
    exists (mkPage a), (a + kPageOverhead), w3.
    split; [done|]. split; [done|]. split; [done|]. split; [done|].
    right. done.
  - destruct (Z.eqb_spec (get_address p + off) 0) as [Hzero|Hnz].
    + (* the slot lies at address 0: a new run is allocated as well *)
      destruct Hnew as (w2 & w3 & Hrun2 & Hrun3 & Hraw3 & Hrec3 & Hdev3 & Hnp3
                        & Hcrc3).
      unfold bind at 1. rewrite Hrun2.
      unfold bind at 1. rewrite Hrun3. unfold ret.
      exists (mkPage a), (a + kPageOverhead), w3.
      split; [done|]. split; [done|]. split; [done|]. split; [done|].
      right. done.
    + unfold bind at 1, ret at 1.
      destruct (do_allocate_account_spec p alloc_size w1)
        as (w3 & Hrun3 & Hraw3 & Hrec3 & Hdev3 & Hnp3 & Hfl3).
      unfold bind at 1. rewrite Hrun3. unfold ret.
      exists p, (get_address p + off), w3.
      split; [done|]. split; [congruence|]. split; [congruence|].
      split; [congruence|].
      left. exists p, i, off, sz. repeat split; try done.
      by rewrite Hnp3, Hnp1.
Qed.

Lemma stored_payload_cases (flags : Z) (r : ham_record_t) :
  is_u32 (rec_size r) ->
  (stored_payload flags r = (data_bytes (rec_data r), rec_size r))
  \/ (exists c,
        get_record_compressor = Some c
        /\ stored_payload flags r
           = (compress c (record_bytes r),
              u32 (Z.of_nat (length (compress c (record_bytes r)))))
        /\ u32 (Z.of_nat (length (compress c (record_bytes r)))) < rec_size r).
Proof.
  intros Hsize. unfold stored_payload, record_bytes.
  destruct get_record_compressor as [c|]; [|by left].
  destruct (negb (has_flag flags kDisableCompression)); [|by left].
  destruct (Z.ltb_spec
              (u32 (Z.of_nat (length (compress c
                 (buffer_bytes (rec_size r) (data_bytes (rec_data r)))))))
              (rec_size r)); [|by left].
  right. exists c. done.
Qed.

Lemma stored_payload_size (flags : Z) (r : ham_record_t) :
  is_u32 (rec_size r) ->
  0 <= (stored_payload flags r).2 <= rec_size r.
Proof.
  intros Hsize.
  destruct (stored_payload_cases flags r Hsize) as [->|(c & _ & -> & Hlt)];
    cbn [snd]; unfold is_u32 in *; [lia|].
  pose proof (u32_range (Z.of_nat (length (compress c (record_bytes r))))) as H.
  unfold is_u32 in H. lia.
Qed.

Lemma run_pages_u32 (alloc_size : Z) : is_u32 (run_pages alloc_size).
Proof.
  unfold run_pages.
  destruct (_ <? _); [apply u32_range|].
  pose proof (u32_range (alloc_size + kPageOverhead)) as Hr.
  unfold is_u32, page_size_ok in *.
  split; [apply Z.div_pos; lia|].
  apply Z.le_lt_trans with (u32 (alloc_size + kPageOverhead)); [|lia].
  apply Z.div_le_upper_bound; nia.
Qed.

Lemma page_of_offset (base off : Z) :
  base mod page_size_bytes = 0 -> 0 <= off < page_size_bytes ->
  (base + off) - (base + off) mod page_size_bytes = base.
Proof.
  intros Hbase Hoff. unfold page_size_ok in *.
  rewrite Z.add_mod, Hbase, Z.add_0_l, Z.mod_mod by lia.
  rewrite Z.mod_small by lia. lia.
Qed.

(** [do_allocate], for a record that fits and a state that is ready. *)
Lemma do_allocate_spec (flags : Z) (w : World) :
  let r := record w in
  let record_data := (stored_payload flags r).1 in
  let record_size := (stored_payload flags r).2 in
  let alloc_size := u32 (sizeof_PBlobHeader + record_size) in
  allocation_ready w alloc_size -> record_fits r ->
  exists blobid w',
    do_allocate flags w = (Return blobid, w')
    /\ 0 <= blobid < 2 ^ 63
    /\ stored_header w' blobid
       = mkBlobHeader blobid (rec_size r) alloc_size
           (if negb (rec_size r =? record_size) then kIsCompressed else 0)
    /\ record w' = record w
    /\ device w' = device w
    /\ (forall x,
          x < blobid
          \/ blobid + sizeof_PBlobHeader + written_extent flags r record_size
             <= x ->
          raw_payload w' x = raw_payload w x)
    /\ (has_flag flags HAM_PARTIAL = false ->
        load_bytes (raw_payload w') (blobid + sizeof_PBlobHeader)
          (Z.to_nat record_size)
        = buffer_bytes record_size record_data)
    /\ ((1 <? get_num_pages
                (page_header w' (blobid - blobid mod page_size_bytes)))
        && has_flag env_flags HAM_ENABLE_CRC32 = true ->
        get_freelist_offset
          (page_header w' (blobid - blobid mod page_size_bytes)) 0
        = if negb (has_flag flags HAM_PARTIAL)
          then u32 (MurmurHash3_x86_32 (record_bytes r) 0) else 0)
    /\ ((exists p i off sz,
           m_last_blob_page (page_manager w) = Some p
           /\ m_freelist (page_header w (get_address p)) !! i = Some (off, sz)
           /\ alloc_size <= sz
           /\ blobid = get_address p + off)
        \/ blobid
           = place_run (page_manager w) (run_pages alloc_size) + kPageOverhead).
Proof.
  intros r record_data record_size alloc_size (Hk & Hlast & Hrun)
    (Hsize & Hpo & Hpsz & Hsum & Hpsum).
  cbv zeta in Hrun. destruct Hrun as (Ha & Haligned & Hcap).
  pose proof (stored_payload_size flags r Hsize) as Hrs.
  fold record_size in Hrs.
  assert (Halloc : alloc_size = sizeof_PBlobHeader + record_size).
  { apply u32_small. unfold is_u32, sizeof_PBlobHeader in *. lia. }
  unfold do_allocate.
  unfold bind at 1, get_record at 1, gets at 1. fold r.
  destruct (do_allocate_compress_spec flags r w)
    as (w1 & Hrun1 & Hraw1 & Hh1 & Hpm1 & Hdev1 & Hrec1).
  unfold bind at 1. rewrite Hrun1.
  rewrite (surjective_pairing (stored_payload flags r)).
  fold record_data record_size. fold alloc_size.
  (* the space *)
  pose proof (do_allocate_space_spec flags r alloc_size w1) as Hspace.
  cbv zeta in Hspace. rewrite Hpm1, Hh1 in Hspace.
  destruct Hspace as (page & address & w2 & Hrun2 & Hraw2 & Hrec2 & Hdev2
                      & Hplace).
  { intros p Hp. destruct (Hlast p Hp) as (Hp0 & _ & Hu & _).
    split; [lia|]. split; [lia | done]. }
  { lia. } { lia. } { unfold page_size_ok in *. lia. }
  unfold bind at 1. rewrite Hrun2.
  (* where the blob lies *)
  assert (Hwhere :
    0 <= address < 2 ^ 62 + 2 ^ 32
    /\ ((1 <? get_num_pages
                (page_header w2 (address - address mod page_size_bytes)))
        && has_flag env_flags HAM_ENABLE_CRC32 = true ->
        get_freelist_offset
          (page_header w2 (address - address mod page_size_bytes)) 0
        = if negb (has_flag flags HAM_PARTIAL)
          then u32 (MurmurHash3_x86_32 (record_bytes r) 0) else 0)
    /\ ((exists p i off sz,
           m_last_blob_page (page_manager w) = Some p
           /\ m_freelist (page_header w (get_address p)) !! i = Some (off, sz)
           /\ alloc_size <= sz
           /\ address = get_address p + off)
        \/ address
           = place_run (page_manager w) (run_pages alloc_size)
             + kPageOverhead)).
  { destruct Hplace as [(p & i & off & sz & Hp & Hnp & Hslot & Hfit & -> & ->
                         & Hnz & Hnp2)
                       |(-> & -> & Hnp2 & Hcrc)].
    - destruct (Hlast p Hp) as (Hp0 & Hpal & Hu & Hin).
      destruct Hu as (_ & _ & Hfl). rewrite Forall_lookup in Hfl, Hin.
      destruct (Hfl i (off, sz) Hslot) as [Hoff Hsz].
      specialize (Hin i (off, sz) Hslot).
      cbn [fst snd] in Hoff, Hsz, Hin. unfold is_u32 in Hoff, Hsz.
      assert (Hoffps : 0 <= off < page_size_bytes)
        by (unfold sizeof_PBlobHeader in *; lia).
      split; [lia|]. split.
      + rewrite page_of_offset by done. rewrite Hnp2.
        destruct (Z.ltb_spec 1 (get_num_pages
                    (page_header w (get_address p)))); [lia|].
        discriminate.
      + left. exists p, i, off, sz. done.
    - pose proof (run_pages_u32 alloc_size) as Hn.
      split; [unfold page_size_ok in *; lia|]. split.
      + rewrite page_of_offset by (done || lia).
        rewrite Hnp2, (u32_small _ Hn). intros Hc.
        unfold record_bytes. apply Hcrc; done.
      + by right. }
  destruct Hwhere as (Haddr & Hcrc & Hloc).
  (* the header *)
  set (flag := if negb (rec_size r =? record_size) then kIsCompressed else 0).
  set (blob_header := mkBlobHeader address (rec_size r) alloc_size flag).
  assert (Hset :
    set_flags
      (set_self
         (set_size (set_alloc_size (mkBlobHeader 0 0 0 0) alloc_size)
            (rec_size r)) address) flag = blob_header).
  { unfold set_flags, set_alloc_size, set_size, set_self, blob_header.
    cbn [get_self get_size get_alloc_size get_flags].
    rewrite (u64_small address) by (unfold is_u64; lia).
    rewrite (u64_small (rec_size r)) by (unfold is_u32, is_u64 in *; lia).
    unfold alloc_size at 1. rewrite u32_idem. fold alloc_size.
    f_equal. unfold flag, kIsCompressed.
    destruct (negb (rec_size r =? record_size)); reflexivity. }
  fold flag. rewrite Hset.
  assert (Hfits : blob_header_fits blob_header).
  { unfold blob_header_fits, blob_header.
    cbn [get_self get_size get_alloc_size get_flags].
    split; [unfold is_u64; lia|].
    split; [unfold is_u32, is_u64 in *; lia|].
    split; [apply u32_range|].
    unfold flag, kIsCompressed, is_u32.
    destruct (negb (rec_size r =? record_size)); lia. }
  (* the writes *)
  assert (Hextent : 0 <= written_extent flags r record_size < 2 ^ 34).
  { unfold written_extent, is_u32 in *.
    pose proof (u32_range (rec_size r
                  - u32 (rec_partial_offset r + rec_partial_size r))) as Ht.
    unfold is_u32 in Ht.
    destruct (has_flag flags HAM_PARTIAL); cbn [andb];
      repeat match goal with |- context [if ?c then _ else _] =>
               destruct c end; lia. }
  destruct (do_allocate_write_spec flags r record_data record_size
              page address blob_header w2)
    as (w3 & Hrun3 & Hsame3 & Hstored3 & Hframe3 & Hcontent3);
    [done | lia | done | done | done
     | unfold is_u32 in *; lia
     | destruct (has_flag flags HAM_PARTIAL);
         unfold sizeof_PBlobHeader in *; lia
     | unfold sizeof_PBlobHeader; lia |].
  unfold bind at 1. rewrite Hrun3. unfold ret.
  destruct Hsame3 as (Hh3 & Hpm3 & Hdev3 & _ & _ & Hrec3).
  exists address, w3. cbn [get_self blob_header].
  split; [done|]. split; [lia|]. split; [done|].
  split; [by rewrite Hrec3, Hrec2, Hrec1|].
  split; [by rewrite Hdev3, Hdev2, Hdev1|].
  split; [intros x Hx; rewrite Hframe3 by done; by rewrite Hraw2, Hraw1|].
  split; [done|]. rewrite Hh3. done.
Qed.

End Allocating.

(** ** Allocating and reading back *)

Lemma buffer_bytes_prefix (n : Z) (bs rest : list byte) :
  length bs = Z.to_nat n -> buffer_bytes n (bs ++ rest) = bs.
Proof.
  intros Hlen. unfold buffer_bytes.
  rewrite <- Hlen, take_app_length.
  rewrite length_app.
  replace (length bs - (length bs + length rest))%nat with 0%nat by lia.
  simpl. by rewrite app_nil_r.
Qed.

Lemma length_record_bytes (r : ham_record_t) :
  length (record_bytes r) = Z.to_nat (rec_size r).
Proof. apply length_buffer_bytes. Qed.

Section ReadingBack.
Context {platform : DiskDevice.Platform} {environment : Environment}.
Hypothesis Hpage_size : page_size_ok.

(** A read without the partial flag, of an intact blob whose stored bytes
    are [payload] and decode to [plain]: the record gets the size of the
    header and the bytes [plain], and the CRC check passes when the
    header of the page holds the hash of [plain]. *)
Lemma do_read_whole (blobid rflags : Z) (w : World) (plain : list byte) :
  is_u64 blobid /\ blobid + 2 ^ 34 < 2 ^ 64 ->
  has_flag rflags HAM_PARTIAL = false ->
  let hdr := stored_header w blobid in
  let page := blobid - blobid mod page_size_bytes in
  let S := get_size hdr in
  get_self hdr = blobid -> is_u32 S ->
  length plain = Z.to_nat S ->
  (if has_flag (get_flags hdr) kIsCompressed
   then exists c,
          get_record_compressor = Some c
          /\ decompress c
               (load_bytes (raw_payload w) (blobid + sizeof_PBlobHeader)
                  (Z.to_nat (u32 (get_alloc_size hdr - sizeof_PBlobHeader))))
               S = plain
   else load_bytes (raw_payload w) (blobid + sizeof_PBlobHeader) (Z.to_nat S)
        = plain) ->
  zero_copy_in_bounds (device w) blobid (blobid + sizeof_PBlobHeader) S ->
  ((1 <? get_num_pages (page_header w page))
   && has_flag env_flags HAM_ENABLE_CRC32 = true ->
   u32 (get_freelist_offset (page_header w page) 0)
   = u32 (MurmurHash3_x86_32 plain 0)) ->
  (do_read blobid rflags w).1 = Return tt
  /\ rec_size (record (do_read blobid rflags w).2) = S
  /\ record_bytes (record (do_read blobid rflags w).2) = plain.
Proof.
  intros [Hb Hroom] Hwhole hdr page S Hself HS Hlen Hdata Hbounds Hcrc.
  pose proof (do_read_blobsize_spec Hpage_size blobid rflags w Hb) as Hfirst.
  cbv zeta in Hfirst. fold hdr in Hfirst.
  rewrite Hself, Z.eqb_refl, Hwhole in Hfirst. cbn [negb] in Hfirst.
  fold S page in Hfirst. rewrite (u32_small S HS) in Hfirst.
  destruct (Z.eq_dec S 0) as [Hz|Hnz].
  - (* an empty blob *)
    rewrite Hz in Hfirst. rewrite (do_read_empty _ _ _ _ _ _ Hfirst).
    cbn. split; [done|]. split; [exact (eq_sym Hz)|].
    rewrite Hz in Hlen. destruct plain; [done | simpl in Hlen; lia].
  - set (w1 := with_record w (set_rec_size S (record w))) in *.
    (* the transfer *)
    assert (Htransfer :
      do_read_data blobid rflags blobid (Some (mkPage page)) S w1
      = (Return tt,
         with_record w1
           (set_rec_data
              (if has_flag (rec_flags (record w1)) HAM_RECORD_USER_ALLOC
               then store_to_buffer plain (rec_data (record w1))
               else Some plain) (record w1)))).
    { destruct (has_flag (get_flags hdr) kIsCompressed) eqn:Hflag.
      - destruct Hdata as (c & Hc & Hplain).
        pose proof (do_read_data_compressed Hpage_size blobid rflags
                      (Some (mkPage page)) S c w1) as Hd.
        cbv zeta in Hd. rewrite <- Hplain. apply Hd; try done.
        + apply Hb.
        + pose proof (u32_range (get_alloc_size (stored_header w1 blobid)
                                 - sizeof_PBlobHeader)) as Hr.
          unfold is_u32, sizeof_PBlobHeader in *. lia.
      - pose proof (do_read_data_uncompressed Hpage_size blobid rflags
                      (Some (mkPage page)) S w1) as Hd.
        cbv zeta in Hd. rewrite Hwhole, Z.add_0_r in Hd.
        rewrite <- Hdata. apply Hd; try done.
        + unfold is_u64, sizeof_PBlobHeader in *. lia.
        + unfold is_u32, sizeof_PBlobHeader in *. lia. }
    set (w2 := with_record w1
                 (set_rec_data
                    (if has_flag (rec_flags (record w1)) HAM_RECORD_USER_ALLOC
                     then store_to_buffer plain (rec_data (record w1))
                     else Some plain) (record w1))) in *.
    assert (Hbytes : record_bytes (record w2) = plain).
    { unfold w2, w1, record_bytes.
      cbn [record with_record rec_size rec_data rec_flags set_rec_data
           set_rec_size].
      rewrite (u32_small S HS).
      destruct (has_flag _ HAM_RECORD_USER_ALLOC);
        cbn [data_bytes store_to_buffer].
      - by apply buffer_bytes_prefix.
      - by apply buffer_bytes_exact. }
    assert (Hverify : do_read_verify rflags (Some (mkPage page)) w2
                      = (Return tt, w2)).
    { unfold do_read_verify.
      unfold bind at 1, header_get at 1, gets at 1.
      change (page_header w2 (from_page (mkPage page)))
        with (page_header w page).
      rewrite Hwhole. cbn [negb]. rewrite andb_true_r.
      destruct ((1 <? get_num_pages (page_header w page))
                && has_flag env_flags HAM_ENABLE_CRC32) eqn:Hcheck; [|done].
      unfold bind at 1, get_record at 1, gets at 1.
      fold (record_bytes (record w2)). rewrite Hbytes, (Hcrc eq_refl).
      by rewrite Z.eqb_refl. }
    assert (Hrun : do_read blobid rflags w = (Return tt, w2)).
    { unfold do_read. unfold bind at 1. rewrite Hfirst.
      destruct (Z.eqb_spec S 0); [done|].
      unfold bind at 1. rewrite Htransfer. exact Hverify. }
    rewrite Hrun. cbn [fst snd]. split; [done|]. split; [|done].
    unfold w2, w1.
    cbn [record with_record rec_size set_rec_data set_rec_size].
    by apply u32_small.
Qed.

End ReadingBack.

(** X23.  A record whose size plus the blob header stays below [2^32] is
    allocated without the partial flag, in a state that is ready for the
    allocation, by a database whose compressor (if it has one) restores
    what it compressed.  [do_allocate] returns a blob-id, and in every
    later state in which the blob is intact (its bytes are the bytes that
    [do_allocate] left, and so are the page count and the CRC slot in the
    header of its page: the blob was neither erased nor overwritten) and
    on whose device the zero-copy path stays inside a page buffer (when
    the device reports the blob as mapped, the bytes of the record lie in
    the buffer of the page that holds the first of them), [do_read] with
    that id and without the partial flag, in the same environment,
    returns, sets [record.size] to the size of the allocated record, and
    delivers the bytes of the allocated record. *)
Theorem allocate_then_read_round_trip
    {platform : DiskDevice.Platform} {environment : Environment}
    (flags rflags : Z) (w : World) :
  page_size_ok ->
  let r := record w in
  let alloc_size := u32 (sizeof_PBlobHeader + (stored_payload flags r).2) in
  allocation_ready w alloc_size -> record_fits r ->
  (forall c, get_record_compressor = Some c ->
             compressor_round_trip c (record_bytes r)) ->
  has_flag flags HAM_PARTIAL = false ->
  has_flag rflags HAM_PARTIAL = false ->
  exists blobid w1,
    do_allocate flags w = (Return blobid, w1)
    /\ forall w2, blob_preserved w1 w2 blobid alloc_size ->
         zero_copy_in_bounds (device w2) blobid
           (blobid + sizeof_PBlobHeader) (rec_size r) ->
         (do_read blobid rflags w2).1 = Return tt
         /\ rec_size (record (do_read blobid rflags w2).2) = rec_size r
         /\ record_bytes (record (do_read blobid rflags w2).2) = record_bytes r.
Proof.
  intros Hps r alloc_size Hready Hfits Hcompressor Hwhole Hrwhole.
  destruct (do_allocate_spec Hps flags w Hready Hfits)
    as (blobid & w1 & Hrun & Hb & Hstored & _ & _ & _ & Hcontent & Hcrc & _).
  fold r in Hstored, Hcontent, Hcrc. fold alloc_size in Hstored.
  specialize (Hcontent Hwhole). rewrite Hwhole in Hcrc. cbn [negb] in Hcrc.
  exists blobid, w1. split; [exact Hrun|].
  intros w2 (Hraw2 & Hnp2 & Hcrc2) Hbounds2.
  destruct Hfits as (Hsize & _ & _ & Hsum & _).
  pose proof (stored_payload_size flags r Hsize) as Hrs.
  assert (Halloc : alloc_size
                   = sizeof_PBlobHeader + (stored_payload flags r).2).
  { apply u32_small. unfold is_u32, sizeof_PBlobHeader in *. lia. }
  (* the header and the payload are in [w2] as [do_allocate] left them *)
  assert (Hhdr2 : stored_header w2 blobid = stored_header w1 blobid).
  { apply blob_header_at_ext. intros x Hx. apply Hraw2.
    unfold sizeof_PBlobHeader in *. lia. }
  assert (Hpayload2 :
    load_bytes (raw_payload w2) (blobid + sizeof_PBlobHeader)
      (Z.to_nat (stored_payload flags r).2)
    = load_bytes (raw_payload w1) (blobid + sizeof_PBlobHeader)
        (Z.to_nat (stored_payload flags r).2)).
  { apply load_bytes_ext. intros x Hx. apply Hraw2.
    unfold sizeof_PBlobHeader in *. lia. }
  pose proof (do_read_whole Hps blobid rflags w2 (record_bytes r)) as Hread.
  cbv zeta in Hread. rewrite Hhdr2, Hstored in Hread.
  cbn [get_self get_size get_alloc_size get_flags] in Hread.
  apply Hread; clear Hread; try done.
  - unfold is_u64. lia.
  - apply length_record_bytes.
  - (* the stored bytes decode to the bytes of the record *)
    destruct (stored_payload_cases flags r Hsize)
      as [Hplain|(c & Hc & Hpacked & Hshorter)].
    + rewrite Hplain in *. cbn [fst snd] in *.
      rewrite Z.eqb_refl. cbn [negb].
      change (has_flag 0 kIsCompressed) with false.
      rewrite Hpayload2, Hcontent. done.
    + rewrite Hpacked in *. cbn [fst snd] in *.
      destruct (Z.eqb_spec (rec_size r)
                  (u32 (Z.of_nat (length (compress c (record_bytes r))))));
        [lia|].
      cbn [negb]. change (has_flag kIsCompressed kIsCompressed) with true.
      exists c. split; [done|].
      rewrite Halloc.
      replace (sizeof_PBlobHeader
               + u32 (Z.of_nat (length (compress c (record_bytes r))))
               - sizeof_PBlobHeader)
        with (u32 (Z.of_nat (length (compress c (record_bytes r))))) by lia.
      rewrite u32_idem, Hpayload2, Hcontent.
      destruct (Hcompressor c Hc) as [Hlen32 Hround].
      rewrite (u32_small _ Hlen32) in *.
      rewrite buffer_bytes_exact by lia.
      rewrite <- (Z2Nat.id (rec_size r)) by (unfold is_u32 in Hsize; lia).
      rewrite <- length_record_bytes. apply Hround.
      rewrite length_record_bytes. unfold is_u32 in Hsize. lia.
  - (* the CRC slot holds the hash of the bytes of the record *)
    intros Hcheck. rewrite Hnp2 in Hcheck.
    rewrite Hcrc2, (Hcrc Hcheck); [by rewrite u32_idem|].
    apply andb_true_iff in Hcheck as [Hmulti _]. by apply Z.ltb_lt.
Qed.

(** ** Overwriting with a larger record *)

Section Relocating.
Context {platform : DiskDevice.Platform} {environment : Environment}.
Hypothesis Hpage_size : page_size_ok.

(** The run that [do_allocate] requests holds the header overhead and the
    blob. *)
Lemma run_pages_covers (alloc_size : Z) :
  0 <= alloc_size + kPageOverhead < 2 ^ 32 ->
  alloc_size + kPageOverhead <= run_pages alloc_size * page_size_bytes.
Proof.
  intros Hreq.
  assert (Hpos : 0 < page_size_bytes < 2 ^ 32) by exact Hpage_size.
  unfold run_pages.
  rewrite (u32_small (alloc_size + kPageOverhead)) by done.
  set (required := alloc_size + kPageOverhead) in *.
  assert (Hdm : required = page_size_bytes * (required / page_size_bytes)
                           + required mod page_size_bytes)
    by (apply Z.div_mod; lia).
  assert (Hmb : 0 <= required mod page_size_bytes < page_size_bytes)
    by (apply Z.mod_pos_bound; lia).
  assert (Hq : 0 <= required / page_size_bytes) by (apply Z.div_pos; lia).
  assert (Hprod : required / page_size_bytes * page_size_bytes <= required)
    by nia.
  rewrite (u32_small (required / page_size_bytes * page_size_bytes))
    by (unfold is_u32; nia).
  destruct (Z.ltb_spec (required / page_size_bytes * page_size_bytes)
              required) as [Hlt|Hge]; [|lia].
  assert (Hsmall : required / page_size_bytes + 1 < 2 ^ 32) by nia.
  rewrite u32_small by (unfold is_u32; lia). nia.
Qed.

(** What [do_allocate] writes behind the header stays inside the
    allocated size. *)
Lemma written_extent_le (flags : Z) (r : ham_record_t) :
  record_fits r -> partial_write_plain flags r ->
  written_extent flags r (stored_payload flags r).2
  <= (stored_payload flags r).2.
Proof.
  intros (Hsize & Hpo & Hpsz & _ & _) Hplain.
  unfold written_extent, partial_write_plain, is_u32 in *.
  destruct (has_flag flags HAM_PARTIAL); cbn [andb]; [|lia].
  destruct (Hplain eq_refl) as [Hin ->].
  rewrite (u32_small (rec_partial_offset r + rec_partial_size r))
    by (unfold is_u32; lia).
  destruct (Z.ltb_spec 0 (rec_partial_offset r));
    destruct (Z.ltb_spec (rec_partial_offset r + rec_partial_size r)
                (rec_size r));
    rewrite ?u32_small by (unfold is_u32; lia); lia.
Qed.

Lemma do_erase_returns (blobid flags : Z) (page : option Page) (w : World) :
  is_u64 blobid -> get_self (stored_header w blobid) = blobid ->
  exists w', do_erase blobid page flags w = (Return tt, w').
Proof.
  intros Hb Hself. unfold do_erase. unfold bind at 1.
  rewrite (read_chunk_pointer Hpage_size) by done.
  unfold bind at 1, deref at 1, gets at 1.
  fold (stored_header w blobid). rewrite Hself, Z.eqb_refl. cbn [negb].
  unfold bind at 1, deref at 1, gets at 1.
  unfold bind at 1, header_update at 1, modify at 1.
  unfold bind at 1, header_get at 1, gets at 1.
  destruct (_ =? _); eexists; reflexivity.
Qed.

End Relocating.

(** X26.  [do_overwrite] of a blob whose header carries its id, with a
    record whose size plus the blob header stays below [2^32], in a state
    in which the header of the old blob lies outside the free space and
    which is ready for an allocation.  When
    [sizeof(PBlobHeader) + record.size] (the 32-bit sum of the source) is
    at most the old header's [alloc_size], it returns the old blob-id.
    Otherwise it runs [allocate], then [erase] of the old id, and returns
    the blob-id of [allocate], which differs from the old id.  So it returns
    the old blob-id if and only if the new size fits. *)
Theorem overwrite_returns_old_id_iff_fits
    {platform : DiskDevice.Platform} {environment : Environment}
    (old_blobid flags : Z) (w : World) :
  page_size_ok ->
  0 <= old_blobid < 2 ^ 62 ->
  get_self (stored_header w old_blobid) = old_blobid ->
  let r := record w in
  let alloc_size := u32 (sizeof_PBlobHeader + rec_size r) in
  let old_alloc_size := get_alloc_size (stored_header w old_blobid) in
  let new_alloc_size := u32 (sizeof_PBlobHeader + (stored_payload flags r).2) in
  record_fits r -> partial_write_plain flags r ->
  allocation_ready w new_alloc_size ->
  new_alloc_size + kPageOverhead < 2 ^ 32 ->
  outside_free_space w old_blobid new_alloc_size ->
  (alloc_size <= old_alloc_size ->
   (do_overwrite old_blobid flags w).1 = Return old_blobid)
  /\ (old_alloc_size < alloc_size ->
      exists new_blobid w1 w2,
        allocate flags w = (Return new_blobid, w1)
        /\ erase old_blobid None 0 w1 = (Return tt, w2)
        /\ do_overwrite old_blobid flags w = (Return new_blobid, w2)
        /\ new_blobid <> old_blobid)
  /\ ((do_overwrite old_blobid flags w).1 = Return old_blobid
      <-> alloc_size <= old_alloc_size).
Proof.
  intros Hps Hold Hself r alloc_size old_alloc_size new_alloc_size Hfits Hplain
    Hready Hrequired (Hslots & Hrunfree).
  assert (Hb : is_u64 old_blobid) by (unfold is_u64; lia).
  (* the in-place path *)
  assert (Hinplace : alloc_size <= old_alloc_size ->
            (do_overwrite old_blobid flags w).1 = Return old_blobid).
  { intros Hle.
    destruct Hfits as (Hsize & Hpo & Hpsz & _ & _).
    destruct (do_overwrite_in_place Hps old_blobid flags w Hb Hself Hle Hsize
                Hpo Hpsz) as (w' & -> & _); [|done].
    unfold is_u32, sizeof_PBlobHeader, r in *.
    destruct (has_flag flags HAM_PARTIAL); lia. }
  (* the path through [allocate] and [erase] *)
  assert (Hrelocate : old_alloc_size < alloc_size ->
            exists new_blobid w1 w2,
              allocate flags w = (Return new_blobid, w1)
              /\ erase old_blobid None 0 w1 = (Return tt, w2)
              /\ do_overwrite old_blobid flags w = (Return new_blobid, w2)
              /\ new_blobid <> old_blobid).
  { intros Hlt.
    pose proof (written_extent_le flags r Hfits Hplain) as Hextent.
    destruct (do_allocate_spec Hps flags w Hready Hfits)
      as (new_blobid & w1 & Hrun & Hnew & _ & _ & _ & Hframe & _ & _ & Hloc).
    fold r in Hframe, Hloc. fold new_alloc_size in Hloc.
    destruct Hfits as (Hsize & _ & _ & Hsum & _).
    pose proof (stored_payload_size flags r Hsize) as Hrs.
    assert (Halloc : new_alloc_size
                     = sizeof_PBlobHeader + (stored_payload flags r).2).
    { apply u32_small. unfold is_u32, sizeof_PBlobHeader in *. lia. }
    (* the new blob keeps clear of the old header *)
    assert (Hclear : new_blobid + new_alloc_size <= old_blobid
                     \/ old_blobid + sizeof_PBlobHeader <= new_blobid).
    { destruct Hloc as [(p & i & off & sz & Hp & Hslot & Hfit & ->)| ->].
      - specialize (Hslots p Hp). rewrite Forall_lookup in Hslots.
        specialize (Hslots i (off, sz) Hslot). cbn [fst snd] in Hslots.
        destruct Hslots as [Hbefore|Hafter];
          unfold sizeof_PBlobHeader in *; lia.
      - cbv zeta in Hrunfree.
        destruct Hready as (Hk & _ & _).
        pose proof (run_pages_covers Hps new_alloc_size) as Hcover.
        unfold sizeof_PBlobHeader in *. lia. }
    assert (Hheader : stored_header w1 old_blobid = stored_header w old_blobid).
    { apply blob_header_at_ext. intros x Hx. apply Hframe.
      unfold sizeof_PBlobHeader in *. lia. }
    destruct (do_erase_returns Hps old_blobid 0 None w1 Hb) as [w2 Herase].
    { by rewrite Hheader. }
    exists new_blobid, w1, w2.
    split; [exact Hrun|]. split; [exact Herase|]. split.
    - unfold do_overwrite.
      unfold bind at 1, get_record at 1, gets at 1. fold r. fold alloc_size.
      unfold bind at 1. rewrite (read_chunk_pointer Hps) by done.
      unfold bind at 1, deref at 1, gets at 1.
      fold (stored_header w old_blobid). rewrite Hself, Z.eqb_refl.
      cbn [negb].
      unfold bind at 1, deref at 1, gets at 1.
      fold (stored_header w old_blobid). fold old_alloc_size.
      destruct (Z.leb_spec alloc_size old_alloc_size); [lia|].
      unfold allocate in Hrun. unfold erase in Herase.
      unfold bind at 1, allocate. rewrite Hrun.
      unfold bind at 1, erase. rewrite Herase. done.
    - unfold sizeof_PBlobHeader in *. lia. }
  split; [exact Hinplace|]. split; [exact Hrelocate|].
  split; [|exact Hinplace].
  intros Hret.
  destruct (Z.le_gt_cases alloc_size old_alloc_size) as [|Hgt]; [done|].
  destruct (Hrelocate ltac:(lia)) as (new_blobid & w1 & w2 & _ & _ & Hrun & Hne).
  rewrite Hrun in Hret. cbn [fst] in Hret. congruence.
Qed.

(** * The properties at work on the sample store *)

Lemma sample_page_size_ok (compressor : option Compressor) (flags : Z) :
  @page_size_ok (Sample.environment compressor flags).
Proof. unfold page_size_ok. simpl. lia. Qed.

Lemma blob_not_found_iff_self_mismatch_witness :
  let w := Sample.blank_world Sample.empty_record in
  (@do_read _ Sample.plain_env 1305 0 w).1 = Throw HAM_BLOB_NOT_FOUND
  /\ (@do_get_blob_size _ Sample.plain_env 1305 w).1 = Throw HAM_BLOB_NOT_FOUND
  /\ (@do_erase _ Sample.plain_env 1305 None 0 w).1 = Throw HAM_BLOB_NOT_FOUND
  /\ (@do_erase _ Sample.plain_env 1305 None 0 w).2 = w
  /\ (@do_read _ Sample.plain_env 1305 0 Sample.hello_world).1
     <> Throw HAM_BLOB_NOT_FOUND.
Proof.
  intros w.
  assert (Hu : is_u64 1305) by (unfold is_u64; lia).
  pose proof (@blob_not_found_iff_self_mismatch _ Sample.plain_env 1305 0 None w
                (sample_page_size_ok None 0) Hu)
    as (Hread & Hsize & Herase & Hsame).
  pose proof (@blob_not_found_iff_self_mismatch _ Sample.plain_env 1305 0 None
                Sample.hello_world (sample_page_size_ok None 0) Hu)
    as (Hread' & _).
  assert (Hmismatch : get_self (stored_header w 1305) <> 1305).
  { vm_compute. discriminate. }
  split; [by apply Hread|]. split; [by apply Hsize|].
  split; [by apply Herase|]. split; [by apply Hsame|].
  rewrite Hread'. intros Hne. apply Hne. vm_compute. reflexivity.
Defined.

Lemma partial_read_clamps_to_blob_size_witness :
  let w := with_record Sample.hello_world Sample.partial_request in
  let res := @do_read _ Sample.plain_env 1305 128 w in
  res.1 = Return tt
  /\ rec_partial_size (record res.2) = 3
  /\ (exists bytes, rec_data (record res.2) = Some bytes
                    /\ Z.of_nat (length bytes) = 3).
Proof.
  intros w res.
  pose proof (@partial_read_clamps_to_blob_size _ Sample.plain_env 1305 128 w
                (sample_page_size_ok None 0)) as H.
  destruct H as [_ Hin].
  - unfold is_u64. lia.
  - reflexivity.
  - vm_compute. reflexivity.
  - unfold is_u32. simpl. lia.
  - unfold is_u32. simpl. lia.
  - destruct Hin as (_ & _ & _ & _ & Hps & Hdata).
    + vm_compute. discriminate.
    + destruct Hdata as [Hret Hbytes]; try (vm_compute; reflexivity).
      * intros _. vm_compute. discriminate.
      * vm_compute. discriminate.
      * split; [exact Hret|]. split; [exact Hps | exact Hbytes].
Defined.


Lemma overwrite_in_place_clears_compression_witness :
  let w := with_record Sample.packed_world Sample.one_byte_record in
  let res := @do_overwrite _ Sample.packing_env 1305 0 w in
  get_flags (stored_header w 1305) = kIsCompressed
  /\ res.1 = Return 1305
  /\ get_flags (stored_header res.2 1305) = 0.
Proof.
  intros w res.
  pose proof (@overwrite_in_place_clears_compression _ Sample.packing_env
                1305 0 w (sample_page_size_ok _ _)) as H.
  destruct H as (Hret & Hflags & _).
  - unfold is_u64. lia.
  - vm_compute. reflexivity.
  - vm_compute. discriminate.
  - unfold is_u32. simpl. lia.
  - unfold is_u32. simpl. lia.
  - unfold is_u32. simpl. lia.
  - vm_compute. reflexivity.
  - split; [vm_compute; reflexivity|]. split; [exact Hret | exact Hflags].
Defined.

Lemma sample_header_u32 (n : nat) (fb : Z) (slot : Z * Z) :
  is_u32 fb -> is_u32 slot.1 -> is_u32 slot.2 ->
  header_u32 (mkPageHeader 1 fb (slot :: replicate n (0, 0))).
Proof.
  intros Hfb H1 H2. unfold header_u32. cbn [m_num_pages m_free_bytes m_freelist].
  split; [unfold is_u32; lia|]. split; [done|].
  constructor; [done|]. apply Forall_replicate. unfold is_u32. simpl. lia.
Qed.

Lemma overwrite_returns_old_id_iff_fits_witness :
  let w := with_record Sample.hello_world Sample.wide_record in
  let res := @do_overwrite _ Sample.plain_env 1305 0 w in
  (exists new_blobid, res.1 = Return new_blobid /\ new_blobid <> 1305)
  /\ res.1 <> Return 1305.
Proof.
  intros w res.
  assert (Hheader : page_header w 1024
                    = mkPageHeader 1 714 ((310, 714) :: replicate 31 (0, 0)))
    by (vm_compute; reflexivity).
  assert (Hlast : m_last_blob_page (page_manager w) = Some (mkPage 1024))
    by (vm_compute; reflexivity).
  assert (Hnew : u32 (sizeof_PBlobHeader
                      + (@stored_payload Sample.plain_env 0 (record w)).2)
                 = 524) by (vm_compute; reflexivity).
  assert (Hrun : @place_run Sample.plain_env (page_manager w)
                   (@run_pages Sample.plain_env 524) = 2048)
    by (vm_compute; reflexivity).
  pose proof (@overwrite_returns_old_id_iff_fits _ Sample.plain_env 1305 0 w
                (sample_page_size_ok None 0)) as H.
  cbv zeta in H. rewrite Hnew in H.
  destruct H as (_ & Hrelocate & Hiff).
  - lia.
  - vm_compute. reflexivity.
  - unfold record_fits, is_u32, sizeof_PBlobHeader, w. cbn. lia.
  - intros Hpartial. vm_compute in Hpartial. discriminate Hpartial.
  - unfold allocation_ready. split; [simpl; lia|]. split.
    + intros p Hp. rewrite Hlast in Hp. injection Hp as <-.
      cbn [get_address]. rewrite Hheader.
      split; [lia|]. split; [reflexivity|].
      split; [apply sample_header_u32; unfold is_u32; simpl; lia|].
      cbn [m_freelist]. constructor; [simpl; lia|].
      apply Forall_replicate. simpl. lia.
    + cbv zeta. rewrite Hrun.
      split; [lia|]. split; [reflexivity|]. vm_compute. lia.
  - simpl. lia.
  - unfold outside_free_space. split.
    + intros p Hp. rewrite Hlast in Hp. injection Hp as <-.
      cbn [get_address]. rewrite Hheader. cbn [m_freelist].
      unfold sizeof_PBlobHeader.
      constructor; [simpl; lia|].
      apply Forall_replicate. simpl. lia.
    + cbv zeta. rewrite Hrun. right. unfold sizeof_PBlobHeader. lia.
  - destruct Hrelocate as (new_blobid & w1 & w2 & _ & _ & Hres & Hne).
    { vm_compute. reflexivity. }
    split.
    + exists new_blobid. unfold res. rewrite Hres. done.
    + unfold res. rewrite Hres. cbn [fst]. congruence.
Defined.

Lemma allocate_then_read_round_trip_witness :
  exists blobid w1,
    @do_allocate _ Sample.packing_env 0 (Sample.blank_world Sample.long_record)
    = (Return blobid, w1)
    /\ let res := @do_read _ Sample.packing_env blobid 0
                    (with_record w1 Sample.empty_record) in
       res.1 = Return tt
       /\ rec_size (record res.2) = 1500
       /\ record_bytes (record res.2) = record_bytes Sample.long_record.
Proof.
  set (w := Sample.blank_world Sample.long_record).
  assert (Hpacked : @stored_payload Sample.packing_env 0 (record w)
                    = (replicate (Z.to_nat 1400) x41, 1400))
    by (vm_compute; reflexivity).
  assert (Hrun : @place_run Sample.packing_env (page_manager w)
                   (@run_pages Sample.packing_env 1424) = 1024)
    by (vm_compute; reflexivity).
  pose proof (@allocate_then_read_round_trip _ Sample.packing_env 0 0 w
                (sample_page_size_ok _ _)) as H.
  cbv zeta in H. rewrite Hpacked in H. cbn [snd] in H.
  change (u32 (sizeof_PBlobHeader + 1400)) with 1424 in H.
  destruct H as (blobid & w1 & Hallocate & Hread).
  - unfold allocation_ready. split; [simpl; lia|]. split.
    + intros p Hp. discriminate Hp.
    + cbv zeta. rewrite Hrun.
      split; [lia|]. split; [reflexivity|]. vm_compute. lia.
  - unfold record_fits, is_u32, sizeof_PBlobHeader, w. cbn. lia.
  - intros c Hc. injection Hc as <-.
    assert (Hout : compress Sample.zero_stripper (record_bytes (record w))
                   = replicate (Z.to_nat 1400) x41)
      by (vm_compute; reflexivity).
    unfold compressor_round_trip. rewrite Hout. split.
    + rewrite length_replicate. unfold is_u32. lia.
    + intros _. vm_compute. reflexivity.
  - reflexivity.
  - reflexivity.
  - exists blobid, w1. split; [exact Hallocate|].
    apply Hread.
    + unfold blob_preserved. cbv zeta. repeat split.
    + (* the blob lies inside the mapping of the device *)
      assert (Hdevice : device w1 = Sample.mapped_device).
      { transitivity (device (@do_allocate _ Sample.packing_env 0 w).2);
          [by rewrite Hallocate | vm_compute; reflexivity]. }
      assert (Hid : Return blobid = Return (A := Z) 1305).
      { transitivity (@do_allocate _ Sample.packing_env 0 w).1;
          [by rewrite Hallocate | vm_compute; reflexivity]. }
      injection Hid as ->.
      unfold zero_copy_in_bounds. cbn [with_record device].
      rewrite Hdevice. intros _. vm_compute. discriminate.
Defined.

(** * Further properties *)

(** * Further properties of the freelist *)

Section FreelistAccounting.

Implicit Types (header : PBlobPageHeader) (l : list (Z * Z)).

Lemma set_size_slot header i off sz b :
  m_freelist header !! i = Some (off, sz) ->
  set_freelist_size header i b = with_slot header i (off, u32 b).
Proof.
  intros Hi. unfold set_freelist_size, with_slot. by rewrite Hi.
Qed.

Lemma with_slot_same header i e :
  m_freelist header !! i = Some e -> with_slot header i e = header.
Proof.
  intros Hi. unfold with_slot. rewrite list_insert_id by done.
  by destruct header.
Qed.

Lemma sum_of_sizes_insert l (i : nat) (e old : Z * Z) :
  l !! i = Some old ->
  sum_of_sizes (<[i := e]> l) = sum_of_sizes l - old.2 + e.2.
Proof.
  revert i. induction l as [|x l IH]; intros [|i] Hi; simpl in *; try done.
  - injection Hi as ->. lia.
  - rewrite (IH i Hi). lia.
Qed.

Lemma sum_of_sizes_bounds l (i : nat) (e : Z * Z) :
  Forall (fun e => is_u32 e.1 /\ is_u32 e.2) l ->
  0 <= sum_of_sizes l /\ (l !! i = Some e -> 0 <= e.2 <= sum_of_sizes l).
Proof.
  intros Hl. revert i. induction Hl as [|x l [_ Hx] Hl IH]; intros i; simpl.
  - split; [lia | done].
  - unfold is_u32 in Hx. destruct (IH 0%nat) as [Hsum _].
    split; [lia|]. destruct i as [|i]; simpl.
    + intros [= <-]. lia.
    + intros Hi. destruct (IH i) as [_ Hle]. specialize (Hle Hi). lia.
Qed.

(** The first loop of [add_to_freelist]: when it returns, one slot has
    taken the region in, in front of it or behind it. *)
Lemma add_collapse_loop_cases header (offset size : Z) :
  forall (n i : nat) (h' : PBlobPageHeader),
    (i + n <= length (m_freelist header))%nat ->
    add_collapse_loop n i header offset size = Some h' ->
    exists (j : nat) (off sz : Z),
      m_freelist header !! j = Some (off, sz)
      /\ ((u32 (offset + size) = off
           /\ h' = with_slot header j (u32 offset, u32 (sz + size)))
          \/ (u32 (off + sz) = offset
              /\ h' = with_slot header j (off, u32 (sz + size)))).
Proof.
  induction n as [|n IH]; intros i h' Hlen; simpl; [done|].
  destruct (lookup_lt_is_Some_2 (m_freelist header) i) as [[off sz] He]; [lia|].
  unfold get_freelist_offset at 1 2, get_freelist_size at 2 3.
  rewrite He. cbn [fst snd].
  destruct (Z.eqb_spec (u32 (offset + size)) off) as [Hfront|_].
  - intros [= <-]. exists i, off, sz. split; [done|]. left. split; [done|].
    rewrite get_size_after_set_offset. unfold get_freelist_size. rewrite He.
    cbn [snd]. by erewrite set_slot_both.
  - destruct (Z.eqb_spec (u32 (off + sz)) offset) as [Hbehind|_].
    + intros [= <-]. exists i, off, sz. split; [done|]. right. split; [done|].
      by erewrite set_size_slot.
    + apply IH. lia.
Qed.

(** The second loop of [add_to_freelist]: it takes the first empty slot;
    when there is none it yields the index of a smallest slot. *)
Lemma add_store_loop_cases header (offset size : Z) :
  forall (n i smallest : nat),
    (i + n <= length (m_freelist header))%nat ->
    match add_store_loop n i smallest header offset size with
    | inl h' =>
        exists (j : nat) (off : Z),
          m_freelist header !! j = Some (off, 0)
          /\ h' = with_slot header j (u32 offset, u32 size)
    | inr s =>
        (s = smallest \/ (s < length (m_freelist header))%nat)
        /\ forall j e, (i <= j < i + n)%nat ->
                       m_freelist header !! j = Some e -> e.2 <> 0
    end.
Proof.
  induction n as [|n IH]; intros i smallest Hlen; simpl.
  - split; [by left|]. intros j e Hj. lia.
  - destruct (lookup_lt_is_Some_2 (m_freelist header) i) as [[off sz] He];
      [lia|].
    unfold get_freelist_size at 1 2. rewrite He. cbn [snd].
    destruct (Z.eqb_spec sz 0) as [->|Hnz].
    + exists i, off. split; [done|]. by erewrite set_slot_both.
    + assert (Hrest : forall s,
                (s = smallest \/ (s < length (m_freelist header))%nat) ->
                match add_store_loop n (S i) s header offset size with
                | inl h' =>
                    exists (j : nat) (off : Z),
                      m_freelist header !! j = Some (off, 0)
                      /\ h' = with_slot header j (u32 offset, u32 size)
                | inr s' =>
                    (s' = smallest \/ (s' < length (m_freelist header))%nat)
                    /\ forall j e, (i <= j < i + S n)%nat ->
                                   m_freelist header !! j = Some e -> e.2 <> 0
                end).
      { intros s Hs. specialize (IH (S i) s ltac:(lia)).
        destruct (add_store_loop n (S i) s header offset size) as [h'|s'];
          [done|].
        destruct IH as [Hs' Hfull]. split.
        - destruct Hs' as [->|Hs']; [done | by right].
        - intros j e Hj Hje. destruct (decide (j = i)) as [->|Hji].
          + rewrite He in Hje. injection Hje as <-. done.
          + apply (Hfull j e); [lia | done]. }
      destruct (sz <? get_freelist_size header smallest).
      * apply Hrest. right. lia.
      * apply Hrest. by left.
Qed.

(** The first loop of [add_to_freelist] gives up only when no slot
    touches the region. *)
Lemma add_collapse_loop_none header (offset size : Z) :
  forall (n i : nat),
    (i + n <= length (m_freelist header))%nat ->
    add_collapse_loop n i header offset size = None ->
    forall (j : nat) off sz,
      (i <= j < i + n)%nat -> m_freelist header !! j = Some (off, sz) ->
      u32 (offset + size) <> off /\ u32 (off + sz) <> offset.
Proof.
  induction n as [|n IH]; intros i Hlen; simpl; [intros _ j off sz Hj; lia|].
  destruct (lookup_lt_is_Some_2 (m_freelist header) i) as [[off sz] He]; [lia|].
  unfold get_freelist_offset at 1 2, get_freelist_size at 2.
  rewrite He. cbn [fst snd].
  destruct (Z.eqb_spec (u32 (offset + size)) off) as [|Hfront]; [done|].
  destruct (Z.eqb_spec (u32 (off + sz)) offset) as [|Hbehind]; [done|].
  intros Hnone j off' sz' Hj Hje.
  destruct (decide (j = i)) as [->|Hji].
  - rewrite He in Hje. injection Hje as <- <-. done.
  - apply (IH (S i) ltac:(lia) Hnone j); [lia | done].
Qed.

(** What [add_to_freelist] does to the header of a single-page run.  A
    slot that touches the region takes it in; else the first empty slot
    stores it; else it replaces a slot that is smaller; else it is
    dropped. *)
Lemma add_to_freelist_cases header (offset size : Z) :
  get_num_pages header <= 1 ->
  let h' := add_to_freelist header offset size in
  let apart :=
    forall (i : nat) off sz, m_freelist header !! i = Some (off, sz) ->
      u32 (offset + size) <> off /\ u32 (off + sz) <> offset in
  let full :=
    forall (i : nat) e, m_freelist header !! i = Some e -> e.2 <> 0 in
  (exists (j : nat) (off sz : Z),
     m_freelist header !! j = Some (off, sz)
     /\ ((u32 (offset + size) = off
          /\ h' = with_slot header j (u32 offset, u32 (sz + size)))
         \/ (u32 (off + sz) = offset
             /\ h' = with_slot header j (off, u32 (sz + size)))
         \/ (apart /\ sz = 0
             /\ h' = with_slot header j (u32 offset, u32 size))
         \/ (apart /\ full /\ sz < size
             /\ h' = with_slot header j (u32 offset, u32 size))
         \/ (apart /\ full /\ size <= sz /\ h' = header)))
  \/ (m_freelist header = [] /\ h' = header).
Proof.
  intros Hsingle h' apart full. unfold h', add_to_freelist.
  destruct (Z.ltb_spec 1 (get_num_pages header)) as [|_]; [lia|].
  cbv zeta. unfold get_freelist_entries.
  destruct (add_collapse_loop (length (m_freelist header)) 0 header offset size)
    as [h1|] eqn:Hcollapse.
  - left. apply add_collapse_loop_cases in Hcollapse; [|lia].
    destruct Hcollapse as (j & off & sz & Hj & [[H1 ->]|[H1 ->]]);
      exists j, off, sz; (split; [done|]); [left | right; left]; done.
  - assert (Hapart : apart).
    { intros i off sz Hi.
      apply (add_collapse_loop_none header offset size
               (length (m_freelist header)) 0%nat ltac:(lia) Hcollapse i);
        [|done].
      apply lookup_lt_Some in Hi. lia. }
    pose proof (add_store_loop_cases header offset size
                  (length (m_freelist header)) 0 0 ltac:(lia)) as Hstore.
    destruct (add_store_loop (length (m_freelist header)) 0 0 header offset size)
      as [h1|s].
    + left. destruct Hstore as (j & off & Hj & ->).
      exists j, off, 0. split; [done|]. right. right. left. done.
    + destruct Hstore as [Hs Hfull].
      assert (Hfull' : full).
      { intros i e Hi. apply (Hfull i e); [|done].
        apply lookup_lt_Some in Hi. lia. }
      destruct (m_freelist header !! s) as [[off sz]|] eqn:Hs'.
      * left. exists s, off, sz. split; [done|]. right. right. right.
        unfold get_freelist_size. rewrite Hs'. cbn [snd].
        destruct (Z.ltb_spec sz size) as [Hlt|Hge].
        -- left. split; [done|]. split; [done|]. split; [done|].
           by erewrite set_slot_both.
        -- right. done.
      * right. apply lookup_ge_None in Hs'.
        assert (Hnil : m_freelist header = []).
        { destruct (m_freelist header); [done|]. simpl in *.
          destruct Hs as [->|Hs]; lia. }
        split; [done|].
        unfold get_freelist_size, set_freelist_size, set_freelist_offset.
        cbn [m_freelist]. rewrite Hnil. rewrite !lookup_nil. cbn [snd].
        rewrite ?lookup_nil.
        destruct (0 <? size); [|done]. rewrite <- Hnil. by destruct header.
Qed.

(** The [for] loop of [alloc_from_freelist]: it fails and changes nothing
    when every slot it visits is smaller than the request; else it takes
    the request from the front of one slot. *)
Lemma alloc_loop_cases header (size poffset : Z) :
  forall (n i : nat),
    (i + n <= length (m_freelist header))%nat ->
    (alloc_from_freelist_loop n i header size poffset = (false, poffset, header)
     /\ forall (j : nat) e, (i <= j < i + n)%nat ->
                            m_freelist header !! j = Some e -> e.2 < size)
    \/ exists (j : nat) (off sz : Z),
         m_freelist header !! j = Some (off, sz)
         /\ size <= sz
         /\ alloc_from_freelist_loop n i header size poffset
            = (true, off,
               if sz =? size then with_slot header j (0, 0)
               else with_slot header j (u32 (off + size), u32 (sz - size))).
Proof.
  induction n as [|n IH]; intros i Hlen.
  { left. split; [done|]. intros j e Hj. lia. }
  destruct (lookup_lt_is_Some_2 (m_freelist header) i) as [[off sz] He]; [lia|].
  assert (Hstep :
    alloc_from_freelist_loop (S n) i header size poffset
    = if sz =? size then (true, off, with_slot header i (0, 0))
      else if size <? sz
      then (true, off, with_slot header i (u32 (off + size), u32 (sz - size)))
      else alloc_from_freelist_loop n (S i) header size poffset).
  { simpl. unfold get_freelist_size at 1, get_freelist_offset.
    rewrite He. cbn [fst snd].
    destruct (Z.eqb_spec sz size) as [->|Hne].
    - by erewrite set_slot_both.
    - rewrite get_size_after_set_offset. unfold get_freelist_size. rewrite He.
      cbn [snd]. destruct (size <? sz); [|done].
      erewrite set_slot_both by done. by rewrite u32_idem, u32_u64. }
  rewrite Hstep.
  destruct (Z.eqb_spec sz size) as [->|Hne].
  - right. exists i, off, size. split; [done|]. split; [lia|].
    by rewrite Z.eqb_refl.
  - destruct (Z.ltb_spec size sz) as [Hlt|Hge].
    + right. exists i, off, sz. split; [done|]. split; [lia|].
      destruct (Z.eqb_spec sz size); [lia | done].
    + destruct (IH (S i) ltac:(lia)) as [[Hfail Hsmall]|Hfound].
      * left. split; [done|]. intros j e Hj Hje.
        destruct (decide (j = i)) as [->|Hji].
        -- rewrite He in Hje. injection Hje as <-. cbn [snd]. lia.
        -- apply (Hsmall j e); [lia | done].
      * by right.
Qed.

(** [alloc_from_freelist], likewise. *)
Lemma alloc_from_freelist_cases header (size poffset : Z) :
  (alloc_from_freelist header size poffset = (false, poffset, header)
   /\ (1 < get_num_pages header
       \/ forall (j : nat) e, m_freelist header !! j = Some e -> e.2 < size))
  \/ (get_num_pages header <= 1
      /\ exists (j : nat) (off sz : Z),
           m_freelist header !! j = Some (off, sz)
           /\ size <= sz
           /\ alloc_from_freelist header size poffset
              = (true, off,
                 if sz =? size then with_slot header j (0, 0)
                 else with_slot header j (u32 (off + size), u32 (sz - size)))).
Proof.
  unfold alloc_from_freelist.
  destruct (Z.ltb_spec 1 (get_num_pages header)) as [Hm|Hs].
  { left. split; [done | by left]. }
  destruct (alloc_loop_cases header size poffset
              (get_freelist_entries header) 0 ltac:(unfold get_freelist_entries; lia))
    as [[Hfail Hsmall]|Hfound].
  - left. split; [done|]. right. intros j e Hj. apply (Hsmall j e); [|done].
    apply lookup_lt_Some in Hj. unfold get_freelist_entries. lia.
  - right. done.
Qed.

Lemma add_to_freelist_num_pages header (offset size : Z) :
  get_num_pages (add_to_freelist header offset size) = get_num_pages header.
Proof.
  destruct (Z.lt_ge_cases 1 (get_num_pages header)) as [Hm|Hs].
  { unfold add_to_freelist.
    destruct (Z.ltb_spec 1 (get_num_pages header)); [done | lia]. }
  destruct (add_to_freelist_cases header offset size Hs)
    as [(j & off & sz & Hj & Hc)|[_ ->]]; [|done].
  destruct Hc as [[_ ->]|[[_ ->]|[(_ & _ & ->)|[(_ & _ & _ & ->)
                 |(_ & _ & _ & ->)]]]]; done.
Qed.

(** The recorded free space after one slot has been rewritten. *)
Lemma freelist_total_with_slot header (j : nat) (off sz : Z) (e : Z * Z) :
  header_u32 header ->
  m_freelist header !! j = Some (off, sz) ->
  freelist_total (with_slot header j e) = freelist_total header - sz + e.2
  /\ 0 <= sz <= freelist_total header.
Proof.
  intros (_ & _ & Hfl) Hj. unfold freelist_total. split.
  - unfold with_slot. cbn [m_freelist].
    by rewrite (sum_of_sizes_insert _ _ _ _ Hj).
  - destruct (sum_of_sizes_bounds _ j (off, sz) Hfl) as [_ Hle].
    by apply Hle.
Qed.

Lemma freelist_total_nonneg header :
  header_u32 header -> 0 <= freelist_total header.
Proof.
  intros (_ & _ & Hfl).
  by destruct (sum_of_sizes_bounds _ 0%nat (0, 0) Hfl) as [Hsum _].
Qed.

(** The recorded free space after [add_to_freelist]. *)
Lemma add_to_freelist_total header (offset size : Z) :
  header_u32 header -> 0 <= size ->
  freelist_total header + size < 2 ^ 32 ->
  let h' := add_to_freelist header offset size in
  freelist_total header <= freelist_total h' <= freelist_total header + size
  /\ (get_num_pages header <= 1 ->
      (exists (i : nat) off sz,
         m_freelist header !! i = Some (off, sz)
         /\ (sz = 0 \/ u32 (offset + size) = off \/ u32 (off + sz) = offset)) ->
      freelist_total h' = freelist_total header + size).
Proof.
  intros Hu Hsize Hroom h'.
  pose proof (freelist_total_nonneg header Hu) as Hnn.
  assert (Hsz32 : u32 size = size) by (apply u32_small; unfold is_u32; lia).
  destruct (Z.lt_ge_cases 1 (get_num_pages header)) as [Hm|Hs].
  { assert (Hsame : h' = header).
    { unfold h', add_to_freelist.
      destruct (Z.ltb_spec 1 (get_num_pages header)); [done | lia]. }
    rewrite Hsame. split; [lia|]. intros Hnp. lia. }
  destruct (add_to_freelist_cases header offset size Hs)
    as [(j & off & sz & Hj & Hc)|[Hnil Hsame]]; fold h' in Hc || fold h' in Hsame.
  - destruct (freelist_total_with_slot header j off sz
                (u32 offset, u32 (sz + size)) Hu Hj) as [Hfront Hsz].
    destruct (freelist_total_with_slot header j off sz
                (off, u32 (sz + size)) Hu Hj) as [Hbehind _].
    destruct (freelist_total_with_slot header j off sz
                (u32 offset, u32 size) Hu Hj) as [Hstored _].
    cbn [snd] in *.
    rewrite (u32_small (sz + size)) in * by (unfold is_u32; lia).
    rewrite Hsz32 in *.
    destruct Hc as [[_ ->]|[[_ ->]|[(_ & -> & ->)|[(Hapart & Hfull & Hlt & ->)
                   |(Hapart & Hfull & Hge & ->)]]]];
      (split; [lia|]); intros _ (i & off' & sz' & Hi & Hwhy); try lia.
    + exfalso. destruct (Hapart i off' sz' Hi) as [H1 H2].
      destruct Hwhy as [->|[?|?]]; [|done|done].
      by apply (Hfull i (off', 0) Hi).
    + exfalso. destruct (Hapart i off' sz' Hi) as [H1 H2].
      destruct Hwhy as [->|[?|?]]; [|done|done].
      by apply (Hfull i (off', 0) Hi).
  - rewrite Hsame. split; [lia|]. intros _ (i & off' & sz' & Hi & _).
    rewrite Hnil in Hi. done.
Qed.

End FreelistAccounting.

(** X1.  [add_to_freelist] never touches the page count or the free-bytes
    counter of the header and keeps the number of slots.  It leaves the
    header as it is (always so for a run of more than one page), or it
    rewrites exactly one slot [(off, sz)]: a slot that starts where the
    region ends takes the region in at its front; a slot that ends where
    the region starts takes it in at its end; otherwise the region is
    stored in a slot that is empty or smaller than the region. *)
Theorem add_to_freelist_rewrites_one_slot
    (header : PBlobPageHeader) (offset size : Z) :
  let h' := add_to_freelist header offset size in
  get_num_pages h' = get_num_pages header
  /\ get_free_bytes h' = get_free_bytes header
  /\ length (m_freelist h') = length (m_freelist header)
  /\ (1 < get_num_pages header -> h' = header)
  /\ (h' = header
      \/ exists (j : nat) (off sz : Z),
           m_freelist header !! j = Some (off, sz)
           /\ ((u32 (offset + size) = off
                /\ h' = with_slot header j (u32 offset, u32 (sz + size)))
               \/ (u32 (off + sz) = offset
                   /\ h' = with_slot header j (off, u32 (sz + size)))
               \/ ((sz = 0 \/ sz < size)
                   /\ h' = with_slot header j (u32 offset, u32 size)))).
Proof.
  intros h'.
  assert (Hmulti : 1 < get_num_pages header -> h' = header).
  { intros Hm. unfold h', add_to_freelist.
    destruct (Z.ltb_spec 1 (get_num_pages header)); [done | lia]. }
  assert (Hshape : h' = header
            \/ exists (j : nat) (off sz : Z),
                 m_freelist header !! j = Some (off, sz)
                 /\ ((u32 (offset + size) = off
                      /\ h' = with_slot header j (u32 offset, u32 (sz + size)))
                     \/ (u32 (off + sz) = offset
                         /\ h' = with_slot header j (off, u32 (sz + size)))
                     \/ ((sz = 0 \/ sz < size)
                         /\ h' = with_slot header j (u32 offset, u32 size)))).
  { destruct (Z.lt_ge_cases 1 (get_num_pages header)) as [Hm|Hs];
      [left; by apply Hmulti|].
    destruct (add_to_freelist_cases header offset size Hs)
      as [(j & off & sz & Hj & Hc)|[_ Hsame]];
      fold h' in Hc || fold h' in Hsame; [|by left].
    destruct Hc as [Hc|[Hc|[(_ & Hz & Hc)|[(_ & _ & Hlt & Hc)|(_ & _ & _ & Hc)]]]];
      [right | right | right | right | by left];
      exists j, off, sz; (split; [done|]).
    - by left.
    - by right; left.
    - right. right. split; [by left | done].
    - right. right. split; [by right | done]. }
  split; [|split; [|split; [|split; [done | exact Hshape]]]].
  - destruct Hshape as [->|(j & off & sz & _ & [[_ ->]|[[_ ->]|[_ ->]]])]; done.
  - destruct Hshape as [->|(j & off & sz & _ & [[_ ->]|[[_ ->]|[_ ->]]])]; done.
  - destruct Hshape as [->|(j & off & sz & _ & [[_ ->]|[[_ ->]|[_ ->]]])];
      cbn [with_slot m_freelist]; by rewrite ?length_insert.
Qed.

(** X2.  For a header of 32-bit fields and a region that keeps the recorded
    free space below [2^32], [add_to_freelist] never lowers the free
    space that the freelist records and raises it by at most the size of
    the region; on a single-page run with a slot that is empty or that
    touches the region it raises it by exactly that size. *)
Theorem add_to_freelist_keeps_free_space
    (header : PBlobPageHeader) (offset size : Z) :
  header_u32 header -> 0 <= size ->
  freelist_total header + size < 2 ^ 32 ->
  let h' := add_to_freelist header offset size in
  freelist_total header <= freelist_total h' <= freelist_total header + size
  /\ (get_num_pages header <= 1 ->
      (exists (i : nat) off sz,
         m_freelist header !! i = Some (off, sz)
         /\ (sz = 0 \/ u32 (offset + size) = off \/ u32 (off + sz) = offset)) ->
      freelist_total h' = freelist_total header + size).
Proof. apply add_to_freelist_total. Qed.

Lemma three_slot_header_u32 : header_u32 Sample.three_slot_header.
Proof.
  unfold header_u32, is_u32. simpl. repeat split; try lia.
  repeat (constructor; [simpl; lia|]). constructor.
Qed.

Lemma add_to_freelist_keeps_free_space_witness :
  freelist_total Sample.three_slot_header = 300
  /\ freelist_total (add_to_freelist Sample.three_slot_header 560 40) = 340.
Proof.
  assert (Htotal : freelist_total Sample.three_slot_header = 300)
    by reflexivity.
  split; [exact Htotal|].
  destruct (add_to_freelist_keeps_free_space Sample.three_slot_header 560 40)
    as [_ Hexact].
  - exact three_slot_header_u32.
  - lia.
  - rewrite Htotal. lia.
  - rewrite Hexact; [rewrite Htotal; lia | simpl; lia |].
    exists 2%nat, 600, 160. split; [reflexivity|]. right. left. reflexivity.
Defined.

(** X3.  [alloc_from_freelist] on a header of 32-bit fields never touches
    the page count or the free-bytes counter (the caller adjusts it) and
    keeps the number of slots.  When it succeeds, the returned offset is
    the start of a slot that held at least the request, and the free
    space that the freelist records has dropped by exactly the request;
    when it fails the header is as it was. *)
Theorem alloc_from_freelist_takes_the_request
    (header : PBlobPageHeader) (size poffset : Z) :
  header_u32 header -> is_u32 size ->
  let res := alloc_from_freelist header size poffset in
  get_num_pages res.2 = get_num_pages header
  /\ get_free_bytes res.2 = get_free_bytes header
  /\ length (m_freelist res.2) = length (m_freelist header)
  /\ (res.1.1 = true ->
      freelist_total res.2 = freelist_total header - size
      /\ exists (j : nat) sz,
           m_freelist header !! j = Some (res.1.2, sz) /\ size <= sz)
  /\ (res.1.1 = false -> res.2 = header /\ res.1.2 = poffset).
Proof.
  intros Hu Hsize res.
  destruct (alloc_from_freelist_cases header size poffset)
    as [[Hfail _]|(_ & j & off & sz & Hj & Hfit & Hfound)]; fold res in Hfail || fold res in Hfound.
  - rewrite Hfail. cbn [fst snd]. repeat split; done.
  - rewrite Hfound. cbn [fst snd].
    assert (Hshape : exists e,
              (if sz =? size then with_slot header j (0, 0)
               else with_slot header j (u32 (off + size), u32 (sz - size)))
              = with_slot header j e
              /\ e.2 = sz - size).
    { destruct (Z.eqb_spec sz size) as [->|Hne].
      - exists (0, 0). split; [done|]. cbn. lia.
      - exists (u32 (off + size), u32 (sz - size)). split; [done|]. cbn.
        destruct Hu as (_ & _ & Hfl). rewrite Forall_lookup in Hfl.
        destruct (Hfl j (off, sz) Hj) as [_ Hsz]. cbn in Hsz.
        apply u32_small. unfold is_u32 in *. lia. }
    destruct Hshape as (e & -> & He).
    split; [done|]. split; [done|].
    split; [cbn; by rewrite length_insert|]. split; [|done].
    intros _. split.
    + destruct (freelist_total_with_slot header j off sz e Hu Hj) as [-> _].
      lia.
    + exists j, sz. done.
Qed.

Lemma alloc_from_freelist_takes_the_request_witness :
  let res := alloc_from_freelist Sample.three_slot_header 60 0 in
  res.1 = (true, 400)
  /\ get_free_bytes res.2 = 300
  /\ freelist_total res.2 = 240.
Proof.
  intros res.
  destruct (alloc_from_freelist_takes_the_request Sample.three_slot_header 60 0)
    as (_ & Hfree & _ & Hfound & _).
  - exact three_slot_header_u32.
  - unfold is_u32. lia.
  - fold res in Hfree, Hfound.
    split; [reflexivity|]. split; [exact Hfree|].
    destruct Hfound as [Htotal _]; [reflexivity|].
    rewrite Htotal. reflexivity.
Defined.

(** X4.  Freeing what [alloc_from_freelist] handed out restores the free
    space that the freelist records: after a successful allocation of
    [size] bytes at the returned offset, [add_to_freelist] of that offset
    and size brings the recorded total back to what it was. *)
Theorem freeing_an_allocation_restores_free_space
    (header : PBlobPageHeader) (size poffset : Z) :
  header_u32 header -> is_u32 size -> freelist_total header < 2 ^ 32 ->
  let res := alloc_from_freelist header size poffset in
  res.1.1 = true ->
  freelist_total (add_to_freelist res.2 res.1.2 size) = freelist_total header.
Proof.
  intros Hu Hsize Hroom res Hfound.
  destruct (alloc_from_freelist_cases header size poffset)
    as [[Hfail _]|(Hsingle & j & off & sz & Hj & Hfit & Hres)];
    fold res in Hfail || fold res in Hres.
  { rewrite Hfail in Hfound. discriminate Hfound. }
  rewrite Hres. cbn [fst snd].
  assert (Hslot : is_u32 off /\ is_u32 sz).
  { destruct Hu as (_ & _ & Hfl). rewrite Forall_lookup in Hfl.
    apply (Hfl j (off, sz) Hj). }
  destruct Hslot as [Hoff Hsz].
  set (e := if sz =? size then (0, 0) else (u32 (off + size), u32 (sz - size))).
  assert (Hh : (if sz =? size then with_slot header j (0, 0)
                else with_slot header j (u32 (off + size), u32 (sz - size)))
               = with_slot header j e).
  { unfold e. by destruct (sz =? size). }
  rewrite Hh.
  assert (He2 : e.2 = sz - size).
  { unfold e. destruct (Z.eqb_spec sz size) as [->|Hne]; cbn; [lia|].
    apply u32_small. unfold is_u32 in *. lia. }
  assert (He1 : sz <> size -> e.1 = u32 (off + size)).
  { unfold e. destruct (Z.eqb_spec sz size); done. }
  destruct (freelist_total_with_slot header j off sz e Hu Hj) as [Htotal Hle].
  assert (Hu' : header_u32 (with_slot header j e)).
  { destruct Hu as (Hnp & Hfb & Hfl). split; [done|]. split; [done|].
    cbn [with_slot m_freelist]. apply Forall_insert; [done|].
    unfold e. destruct (sz =? size); cbn [fst snd];
      (split; [|]); try apply u32_range; unfold is_u32; lia. }
  destruct (add_to_freelist_total (with_slot header j e) off size Hu')
    as [_ Hexact]; [unfold is_u32 in *; lia | lia |].
  rewrite Hexact; [lia | done |].
  exists j, e.1, e.2.
  split.
  { cbn [with_slot m_freelist].
    rewrite list_lookup_insert_eq by (eapply lookup_lt_Some; eauto).
    by destruct e. }
  destruct (Z.eq_dec sz size) as [Heq|Hne].
  - left. lia.
  - right. left. by rewrite He1.
Qed.

Lemma freeing_an_allocation_restores_free_space_witness :
  let res := alloc_from_freelist Sample.three_slot_header 60 0 in
  freelist_total (add_to_freelist res.2 400 60) = 300.
Proof.
  intros res.
  refine (eq_trans
            (freeing_an_allocation_restores_free_space
               Sample.three_slot_header 60 0 _ _ _ _) _).
  - exact three_slot_header_u32.
  - unfold is_u32. lia.
  - vm_compute. reflexivity.
  - reflexivity.
  - reflexivity.
Defined.

(** X5.  Freed space can be used again: on a single-page header of 32-bit
    fields with at least one slot, after [add_to_freelist] of a region of
    [size] bytes an [alloc_from_freelist] of [size] bytes succeeds; and
    when the freelist was empty and the region is not, it hands out that
    very region and leaves the freelist empty again. *)
Theorem freed_region_can_be_allocated
    (header : PBlobPageHeader) (offset size poffset : Z) :
  header_u32 header -> get_num_pages header <= 1 ->
  (0 < length (m_freelist header))%nat ->
  is_u32 offset -> is_u32 size -> freelist_total header + size < 2 ^ 32 ->
  let res := alloc_from_freelist (add_to_freelist header offset size)
               size poffset in
  res.1.1 = true
  /\ (0 < size -> Forall (fun e => e = (0, 0)) (m_freelist header) ->
      res = (true, offset, header)).
Proof.
  intros Hu Hsingle Hslots Hoffset Hsize Hroom res.
  pose proof (freelist_total_nonneg header Hu) as Hnn.
  assert (Hsz32 : u32 size = size) by (by apply u32_small).
  assert (Hoff32 : u32 offset = offset) by (by apply u32_small).
  pose proof (add_to_freelist_num_pages header offset size) as Hnp.
  pose proof (add_to_freelist_cases header offset size Hsingle) as Hadd.
  cbv zeta in Hadd.
  set (h' := add_to_freelist header offset size) in *.
  assert (Hin : forall (j : nat) off sz e,
            m_freelist header !! j = Some (off, sz) ->
            m_freelist (with_slot header j e) !! j = Some e).
  { intros j off sz e Hj. cbn [with_slot m_freelist].
    apply list_lookup_insert_eq. eapply lookup_lt_Some; eauto. }
  split.
  - (* some slot of [h'] holds the request *)
    assert (Hbig : exists (j : nat) e,
              m_freelist h' !! j = Some e /\ size <= e.2).
    { destruct Hadd as [(j & off & sz & Hj & Hc)|[Hnil _]].
      - destruct (freelist_total_with_slot header j off sz (0, 0) Hu Hj)
          as [_ Hsz].
        assert (Hgrown : u32 (sz + size) = sz + size)
          by (apply u32_small; unfold is_u32 in *; lia).
        destruct Hc as [[_ ->]|[[_ ->]|[(_ & _ & ->)|[(_ & _ & _ & ->)
                       |(_ & _ & Hge & ->)]]]].
        + exists j, (u32 offset, u32 (sz + size)).
          split; [by eapply Hin|]. cbn. lia.
        + exists j, (off, u32 (sz + size)).
          split; [by eapply Hin|]. cbn. lia.
        + exists j, (u32 offset, u32 size). split; [by eapply Hin|]. cbn. lia.
        + exists j, (u32 offset, u32 size). split; [by eapply Hin|]. cbn. lia.
        + exists j, (off, sz). split; [done|]. cbn. lia.
      - rewrite Hnil in Hslots. simpl in Hslots. lia. }
    destruct (alloc_from_freelist_cases h' size poffset)
      as [[Hfail Hwhy]|(_ & j & off & sz & _ & _ & Hfound)];
      fold res in Hfail || fold res in Hfound.
    + exfalso. destruct Hwhy as [Hm|Hsmall]; [lia|].
      destruct Hbig as (j & e & Hj & Hge). specialize (Hsmall j e Hj). lia.
    + by rewrite Hfound.
  - intros Hpos Hempty. rewrite Forall_lookup in Hempty.
    assert (Hstored : exists (j : nat),
              m_freelist header !! j = Some (0, 0)
              /\ h' = with_slot header j (offset, size)).
    { destruct Hadd as [(j & off & sz & Hj & Hc)|[Hnil _]].
      - pose proof (Hempty j (off, sz) Hj) as Hz. injection Hz as -> ->.
        exists j. split; [done|].
        destruct Hc as [[_ ->]|[[Hb ->]|[(_ & _ & ->)|[(_ & Hfull & _)
                       |(_ & Hfull & _)]]]].
        + rewrite Z.add_0_l. congruence.
        + rewrite Z.add_0_l, Hsz32. change (u32 (0 + 0)) with 0 in Hb.
          by rewrite <- Hb.
        + congruence.
        + by destruct (Hfull j (0, 0) Hj).
        + by destruct (Hfull j (0, 0) Hj).
      - rewrite Hnil in Hslots. simpl in Hslots. lia. }
    destruct Hstored as (j & Hj & Hh').
    assert (Hj' : m_freelist h' !! j = Some (offset, size)).
    { rewrite Hh'. by eapply Hin. }
    destruct (alloc_from_freelist_cases h' size poffset)
      as [[Hfail Hwhy]|(_ & j' & off & sz & Hslot & Hfit & Hfound)];
      fold res in Hfail || fold res in Hfound.
    + exfalso. destruct Hwhy as [Hm|Hsmall]; [lia|].
      specialize (Hsmall j _ Hj'). cbn in Hsmall. lia.
    + assert (j' = j) as ->.
      { destruct (decide (j' = j)) as [|Hne]; [done|]. exfalso.
        rewrite Hh' in Hslot. cbn [with_slot m_freelist] in Hslot.
        rewrite list_lookup_insert_ne in Hslot by done.
        pose proof (Hempty j' _ Hslot) as Hz. injection Hz as -> ->. lia. }
      rewrite Hj' in Hslot. injection Hslot as <- <-.
      rewrite Hfound, Z.eqb_refl. f_equal.
      rewrite Hh'. unfold with_slot. cbn [m_num_pages m_free_bytes m_freelist].
      rewrite list_insert_insert_eq, list_insert_id by done.
      by destruct header.
Qed.

Lemma freed_region_can_be_allocated_witness :
  alloc_from_freelist
    (add_to_freelist (empty_freelist_header 714 32) 310 714) 714 0
  = (true, 310, empty_freelist_header 714 32).
Proof.
  destruct (freed_region_can_be_allocated (empty_freelist_header 714 32)
              310 714 0) as [_ Hsame].
  - unfold empty_freelist_header, header_u32, is_u32.
    cbn [m_num_pages m_free_bytes m_freelist].
    split; [lia|]. split; [lia|]. apply Forall_replicate. simpl. lia.
  - simpl. lia.
  - simpl. lia.
  - unfold is_u32. lia.
  - unfold is_u32. lia.
  - vm_compute. reflexivity.
  - apply Hsame; [lia|]. by apply Forall_replicate.
Defined.
(** * What [check_integrity] establishes *)

Section IntegrityCheck.
Context {environment : Environment}.

Implicit Types (h : PBlobPageHeader) (l ranges : list (Z * Z)).

Lemma ForallOrdPairs_perm {A} (R : A -> A -> Prop) (l l' : list A) :
  (forall a b, R a b -> R b a) ->
  l ≡ₚ l' -> ForallOrdPairs R l -> ForallOrdPairs R l'.
Proof.
  intros Hsym Hperm. induction Hperm as [|x l l' Hperm IH|x y l|l l' l'' _ IH1 _ IH2].
  - done.
  - intros Hl. inversion Hl as [|? ? Hx Hrest]; subst.
    constructor; [by rewrite <- Hperm | by apply IH].
  - intros Hl. inversion Hl as [|? ? Hy Hrest]; subst.
    inversion Hrest as [|? ? Hx Hrest']; subst.
    inversion Hy as [|? ? Hyx Hy']; subst.
    constructor; [constructor; [by apply Hsym | done]|].
    by constructor.
  - intros Hl. by apply IH2, IH1.
Qed.

Lemma ForallOrdPairs_filter_lookup {A} (R : A -> A -> Prop) (P : A -> Prop)
    `{forall x, Decision (P x)} (l : list A) :
  ForallOrdPairs R (filter P l) ->
  forall (i j : nat) (a b : A),
    (i < j)%nat -> l !! i = Some a -> l !! j = Some b -> P a -> P b -> R a b.
Proof.
  induction l as [|x l IH]; intros Hl i j a b Hij Hi Hj Ha Hb; [done|].
  destruct j as [|j]; [lia|]. cbn in Hj.
  rewrite filter_cons in Hl.
  destruct i as [|i]; cbn in Hi.
  - injection Hi as ->. destruct (decide (P a)); [|done].
    inversion Hl as [|? ? Hhead _]; subst.
    rewrite Forall_forall in Hhead. apply Hhead.
    apply list_elem_of_filter. split; [done|]. by eapply list_elem_of_lookup_2.
  - apply (IH ltac:(destruct (decide (P x)); [by inversion Hl | done])
             i j a b); (lia || done).
Qed.

Lemma sort_insert_perm (r : Z * Z) ranges : sort_insert r ranges ≡ₚ r :: ranges.
Proof.
  induction ranges as [|r' rest IH]; simpl; [done|].
  destruct (range_ltb r' r); [|done].
  rewrite IH. apply perm_swap.
Qed.

Lemma sort_ranges_perm ranges : sort_ranges ranges ≡ₚ ranges.
Proof.
  unfold sort_ranges. induction ranges as [|r rest IH]; simpl; [done|].
  by rewrite sort_insert_perm, IH.
Qed.

(** The second loop passes only when every range ends before the next one
    starts. *)
Lemma check_ranges_chain h ranges :
  Forall (fun e => 0 <= e.2 /\ e.1 + e.2 < 2 ^ 32) ranges ->
  Forall (fun e => 0 <= e.1) ranges ->
  check_ranges h ranges = Return true ->
  ForallOrdPairs (fun a b => a.1 + a.2 <= b.1) ranges.
Proof.
  induction ranges as [|r rest IH]; intros Hfit Hpos; [constructor|].
  destruct rest as [|r' rest]; [intros _; by repeat constructor|].
  cbn [check_ranges].
  destruct (_ <? u32 (r.1 + r.2)); [done|].
  destruct (Z.ltb_spec (r'.1) (u32 (r.1 + r.2))) as [|Hnext]; [done|].
  intros Hrest.
  inversion Hfit as [|? ? [Hr2 Hr] Hfit']; subst.
  inversion Hpos as [|? ? Hr1 Hpos']; subst.
  specialize (IH Hfit' Hpos' Hrest).
  rewrite u32_small in Hnext by (unfold is_u32; lia).
  constructor; [|done].
  inversion IH as [|? ? Hhead _]; subst.
  inversion Hfit' as [|? ? [Hr'2 _] _]; subst.
  constructor; [done|].
  eapply Forall_impl; [exact Hhead|]. intros c Hc. cbn in Hc. lia.
Qed.

(** The first loop gathers the slots in use among those it visits and
    adds up their sizes. *)
Lemma collect_ranges_spec h :
  forall (n i : nat) (total : Z) ranges,
    is_u32 total ->
    let used :=
      filter (fun e => e.2 <> 0) (take n (drop i (m_freelist h))) in
    collect_ranges n i h total ranges
    = (u32 (total + sum_of_sizes used), ranges ++ used).
Proof.
  induction n as [|n IH]; intros i total ranges Htotal; cbv zeta.
  { simpl. rewrite Z.add_0_r, u32_small, app_nil_r by done. done. }
  cbn [collect_ranges]. unfold get_freelist_size, get_freelist_offset.
  destruct (m_freelist h !! i) as [[off sz]|] eqn:Hi; cbn [fst snd].
  - rewrite (drop_S _ _ _ Hi). cbn [take]. rewrite filter_cons.
    destruct (Z.eqb_spec sz 0) as [->|Hnz].
    + destruct (decide ((off, 0).2 <> 0)) as [Hne|_]; [done|].
      by apply IH.
    + destruct (decide ((off, sz).2 <> 0)) as [_|He]; [|by destruct He].
      rewrite (IH (S i) (u32 (total + sz)) (ranges ++ [(off, sz)]))
        by apply u32_range.
      f_equal.
      * unfold sum_of_sizes. cbn [foldr snd]. unfold u32.
        rewrite Z.add_mod_idemp_l by lia. f_equal. lia.
      * by rewrite <- app_assoc.
  - cbn [Z.eqb]. rewrite (IH (S i) total ranges Htotal). cbv zeta.
    apply lookup_ge_None in Hi.
    rewrite !drop_ge by lia. by rewrite !take_nil.
Qed.

End IntegrityCheck.

(** X6.  What a passed [check_integrity] guarantees for the header of a
    single-page run (32-bit fields, no slot wrapping around [2^32]): the
    free-bytes counter and the page overhead fit the run; the sizes of the
    slots in use among those the check visits (all but the last slot) add
    up to at most the free-bytes counter, when that sum stays below
    [2^32]; and no two of those slots overlap.  Overlapping slots among
    them make the check throw or return false. *)
Theorem check_integrity_passes_only_disjoint_slots
    {environment : Environment} (h : PBlobPageHeader) :
  header_u32 h -> get_num_pages h <= 1 ->
  (0 < length (m_freelist h))%nat ->
  Z.of_nat (length (m_freelist h)) < 2 ^ 32 ->
  Forall (fun e => e.1 + e.2 < 2 ^ 32) (m_freelist h) ->
  check_integrity h = Return true ->
  u32 (get_free_bytes h + kPageOverhead)
  <= u32 (page_size_bytes * get_num_pages h)
  /\ (sum_of_sizes (checked_slots h) < 2 ^ 32 ->
      sum_of_sizes (checked_slots h) <= get_free_bytes h)
  /\ (forall (i j : nat) (a b : Z * Z),
        i <> j ->
        checked_slots h !! i = Some a -> checked_slots h !! j = Some b ->
        a.2 <> 0 -> b.2 <> 0 ->
        ranges_disjoint a b).
Proof.
  intros (Hnp & Hfb & Hfl) Hsingle Hslots Hcount Hwrap.
  unfold check_integrity.
  destruct (Z.ltb_spec (u32 (page_size_bytes * get_num_pages h))
              (u32 (get_free_bytes h + kPageOverhead))) as [|Hbound]; [done|].
  destruct (Z.ltb_spec 1 (get_num_pages h)) as [|_]; [lia|].
  cbv zeta. unfold get_freelist_entries.
  rewrite (u32_small (Z.of_nat (length (m_freelist h)) - 1))
    by (unfold is_u32; lia).
  replace (Z.to_nat (Z.of_nat (length (m_freelist h)) - 1))
    with (length (m_freelist h) - 1)%nat by lia.
  rewrite (collect_ranges_spec h _ 0 0 []) by (unfold is_u32; lia).
  cbv zeta. rewrite drop_0, Z.add_0_l, app_nil_l. fold (checked_slots h).
  set (used := filter (fun e => e.2 <> 0) (checked_slots h)).
  assert (Hchecked : Forall (fun e => (is_u32 e.1 /\ is_u32 e.2)
                                      /\ e.1 + e.2 < 2 ^ 32)
                       (checked_slots h)).
  { unfold checked_slots. apply Forall_take. by apply Forall_and. }
  assert (Hused : Forall (fun e => (is_u32 e.1 /\ is_u32 e.2)
                                   /\ e.1 + e.2 < 2 ^ 32) used).
  { unfold used. rewrite Forall_forall in Hchecked |- *.
    intros e He. apply list_elem_of_filter in He as [_ He].
    by apply Hchecked. }
  destruct (Z.ltb_spec (get_free_bytes h) (u32 (sum_of_sizes used)))
    as [|Htotal]; [done|].
  intros Hpass. split; [done|]. split.
  - intros Hsmall.
    assert (Hle : forall l, Forall (fun e => (is_u32 e.1 /\ is_u32 e.2)
                                             /\ e.1 + e.2 < 2 ^ 32) l ->
              0 <= sum_of_sizes (filter (fun e => e.2 <> 0) l)
              /\ sum_of_sizes (filter (fun e => e.2 <> 0) l) = sum_of_sizes l).
    { induction 1 as [|x l [[_ Hx] _] _ [IH1 IH2]]; [done|].
      rewrite filter_cons. unfold is_u32 in Hx.
      unfold sum_of_sizes in *.
      destruct (decide (x.2 <> 0)) as [|Hz]; cbn [foldr] in *; lia. }
    destruct (Hle _ Hchecked) as [Hnn Heq]. fold used in Hnn, Heq.
    rewrite u32_small in Htotal by (unfold is_u32; lia). lia.
  - assert (Hsorted : ForallOrdPairs (fun a b => a.1 + a.2 <= b.1)
                        (sort_ranges used)).
    { apply (check_ranges_chain h); [| |done];
        rewrite sort_ranges_perm;
        eapply Forall_impl; try exact Hused; cbn;
        unfold is_u32; intros e ?; lia. }
    assert (Hdisjoint : ForallOrdPairs ranges_disjoint used).
    { apply (ForallOrdPairs_perm _ (sort_ranges used)).
      - unfold ranges_disjoint. intros a b [?|?]; [by right | by left].
      - apply sort_ranges_perm.
      - clear -Hsorted. induction Hsorted as [|a l Ha _ IH]; constructor;
          [|done].
        eapply Forall_impl; [exact Ha|]. intros b Hab. by left. }
    intros i j a b Hij Hi Hj Ha Hb.
    destruct (Nat.lt_total i j) as [Hlt|[Heq|Hgt]]; [|done|].
    + by apply (ForallOrdPairs_filter_lookup _ _ _ Hdisjoint i j).
    + pose proof (ForallOrdPairs_filter_lookup _ _ _ Hdisjoint j i b a
                    Hgt Hj Hi Hb Ha) as [?|?]; [by right | by left].
Qed.

Lemma check_integrity_passes_only_disjoint_slots_witness :
  @check_integrity Sample.plain_env Sample.three_slot_header = Return true
  /\ ranges_disjoint (300, 40) (400, 100)
  /\ sum_of_sizes (checked_slots Sample.three_slot_header) <= 300.
Proof.
  assert (Hpass : @check_integrity Sample.plain_env Sample.three_slot_header
                  = Return true) by (vm_compute; reflexivity).
  split; [exact Hpass|].
  destruct (@check_integrity_passes_only_disjoint_slots Sample.plain_env
              Sample.three_slot_header) as (_ & Hsum & Hdisjoint).
  - exact three_slot_header_u32.
  - simpl. lia.
  - simpl. lia.
  - simpl. lia.
  - simpl. repeat (constructor; [simpl; lia|]). constructor.
  - exact Hpass.
  - split.
    + apply (Hdisjoint 0%nat 1%nat); [lia | reflexivity | reflexivity | |];
        simpl; lia.
    + apply Hsum. vm_compute. reflexivity.
Defined.
(** * Further properties of the disk device *)

Section DeviceStorage.
Context {platform : DiskDevice.Platform}.
Variable m_config : DiskDevice.Config.
Variable file_truncate :
  DiskDevice.File -> Z -> DiskDevice.ups_status + DiskDevice.File.
Variable file_size_limit_bytes : Z.

Import DiskDevice.

Implicit Types (s : State) (n : Z).

(** [truncate_nolock] either leaves the state as it is and throws, or
    sets the file and its size. *)
Lemma truncate_nolock_cases s (size : Z) :
  (exists e, truncate_nolock file_truncate file_size_limit_bytes s size
             = (inl e, s)
             /\ (e = UPS_LIMITS_REACHED /\ file_size_limit_bytes < size
                 \/ file_truncate (file s) size = inl e))
  \/ (exists f, size <= file_size_limit_bytes
                /\ file_truncate (file s) size = inr f
                /\ truncate_nolock file_truncate file_size_limit_bytes s size
                   = (inr tt,
                      mkState f (mmapptr s) (mapped_size s) size
                        (excess_at_end s))).
Proof.
  unfold truncate_nolock.
  destruct (Z.ltb_spec file_size_limit_bytes size) as [Hlimit|Hroom].
  { left. exists UPS_LIMITS_REACHED. split; [done|]. by left. }
  destruct (file_truncate (file s) size) as [e|f] eqn:Hf.
  - left. exists e. split; [done|]. by right.
  - right. by exists f.
Qed.

(** The excess that [alloc] asks for on top of a request. *)
Lemma alloc_excess_range s n :
  0 <= n -> n * 1000 < 2 ^ 64 ->
  let excess :=
    if file_size s <? u64 (n * 100) then 0
    else if file_size s <? u64 (n * 250) then u64 (n * 100)
    else if file_size s <? u64 (n * 1000) then u64 (n * 250)
    else u64 (n * 1000) in
  0 <= excess <= 1000 * n /\ (excess = 0 \/ n * 100 <= file_size s)
  /\ excess mod n = 0.
Proof.
  intros Hn Hsmall.
  rewrite !u64_small by (unfold is_u64; lia). cbv zeta.
  destruct (Z.ltb_spec (file_size s) (n * 100)).
  { split; [lia|]. split; [by left|]. apply Zmod_0_l. }
  destruct (Z.ltb_spec (file_size s) (n * 250)).
  { split; [lia|]. split; [by right|]. rewrite Z.mul_comm; apply Z_mod_mult. }
  destruct (Z.ltb_spec (file_size s) (n * 1000)).
  { split; [lia|]. split; [by right|]. rewrite Z.mul_comm; apply Z_mod_mult. }
  split; [lia|]. split; [by right|]. rewrite Z.mul_comm; apply Z_mod_mult.
Qed.

(** What a call of [alloc] that returns has done. *)
Lemma alloc_returns s n (a : Z) s' :
  0 <= n -> sizes_sound s -> file_size s + 1001 * n < 2 ^ 64 ->
  alloc file_truncate file_size_limit_bytes s n = (inr a, s') ->
  (n <= excess_at_end s /\ a = used_size s
   /\ s' = mkState (file s) (mmapptr s) (mapped_size s) (file_size s)
             (excess_at_end s - n))
  \/ (excess_at_end s < n /\ a = file_size s
      /\ exists f excess,
           0 <= excess <= 1000 * n /\ excess mod n = 0
           /\ file_size s + n + excess <= file_size_limit_bytes
           /\ file_truncate (file s) (file_size s + n + excess) = inr f
           /\ s' = mkState f (mmapptr s) (mapped_size s)
                     (file_size s + n + excess) excess).
Proof.
  intros Hn [Hex Hfs] Hsmall. unfold alloc.
  destruct (Z.leb_spec n (excess_at_end s)) as [Hfits|Hmore].
  - intros [= <- <-]. left. split; [done|]. unfold used_size.
    rewrite !u64_small by (unfold is_u64; lia). done.
  - cbv zeta.
    destruct (alloc_excess_range s n Hn ltac:(lia)) as (Hrange & _ & Hmod).
    set (excess := if file_size s <? u64 (n * 100) then 0
                   else if file_size s <? u64 (n * 250) then u64 (n * 100)
                   else if file_size s <? u64 (n * 1000) then u64 (n * 250)
                   else u64 (n * 1000)) in *.
    rewrite (u64_small (file_size s + n + excess)) by (unfold is_u64; lia).
    destruct (truncate_nolock_cases s (file_size s + n + excess))
      as [(e & -> & _)|(f & Hlimit & Hf & ->)]; [done|].
    cbn [file mmapptr mapped_size file_size].
    intros [= <- <-]. right. split; [done|]. split; [done|].
    exists f, excess. done.
Qed.

(** When [alloc] throws it has changed nothing. *)
Lemma alloc_throws s n (e : ups_status) s' :
  alloc file_truncate file_size_limit_bytes s n = (inl e, s') ->
  s' = s /\ excess_at_end s < n
  /\ (e = UPS_LIMITS_REACHED
      \/ exists size, file_truncate (file s) size = inl e).
Proof.
  unfold alloc.
  destruct (Z.leb_spec n (excess_at_end s)) as [Hfits|Hmore]; [done|].
  cbv zeta.
  match goal with
  | |- context [truncate_nolock _ _ s ?size] =>
      destruct (truncate_nolock_cases s size)
        as [(e' & -> & Hwhy)|(f & _ & _ & ->)]; [|done]
  end.
  intros [= <- <-]. split; [done|]. split; [done|].
  destruct Hwhy as [[-> _]|Hf]; [by left | right; eauto].
Qed.

(** One call of [alloc] that returns: the storage lies behind everything
    that was in use, and what is in use afterwards ends with it. *)
Lemma alloc_step s n (a : Z) s' :
  0 <= n -> sizes_sound s -> file_size s + 1001 * n < 2 ^ 64 ->
  alloc file_truncate file_size_limit_bytes s n = (inr a, s') ->
  used_size s <= a /\ a + n = used_size s' /\ sizes_sound s'
  /\ file_size s <= file_size s' <= file_size s + 1001 * n
  /\ mmapptr s' = mmapptr s /\ mapped_size s' = mapped_size s.
Proof.
  intros Hn Hsound Hsmall Hrun.
  destruct (alloc_returns s n a s' Hn Hsound Hsmall Hrun)
    as [(Hfits & -> & ->)
       |(Hmore & -> & f & excess & Hrange & _ & _ & _ & ->)];
    unfold used_size, sizes_sound in *;
    cbn [file mmapptr mapped_size file_size excess_at_end]; repeat split; lia.
Qed.

(** X7.  While the sizes stay below [2^64] (the file size plus 1001 times
    each request), [alloc] does not hand out the same storage twice: of
    two calls that return, one after the other, the second yields storage
    behind the end of the first; the first lies behind everything that
    was in use before, the part of the file in use afterwards ends with
    the second, and the excess storage stays a part of the file.  The
    mapping is not touched. *)
Theorem successive_allocs_do_not_overlap s (n1 n2 a1 a2 : Z) (s1 s2 : State) :
  0 <= n1 -> 0 <= n2 -> sizes_sound s ->
  file_size s + 1001 * n1 + 1001 * n2 < 2 ^ 64 ->
  alloc file_truncate file_size_limit_bytes s n1 = (inr a1, s1) ->
  alloc file_truncate file_size_limit_bytes s1 n2 = (inr a2, s2) ->
  used_size s <= a1 /\ a1 + n1 <= a2 /\ a2 + n2 = used_size s2
  /\ sizes_sound s2
  /\ mmapptr s2 = mmapptr s /\ mapped_size s2 = mapped_size s.
Proof.
  intros Hn1 Hn2 Hsound Hsmall Hrun1 Hrun2.
  destruct (alloc_step s n1 a1 s1 Hn1 Hsound ltac:(lia) Hrun1)
    as (Hbehind1 & Hend1 & Hsound1 & Hsize1 & Hptr1 & Hmapped1).
  destruct (alloc_step s1 n2 a2 s2 Hn2 Hsound1 ltac:(lia) Hrun2)
    as (Hbehind2 & Hend2 & Hsound2 & Hsize2 & Hptr2 & Hmapped2).
  repeat split; try lia; try apply Hsound2; congruence.
Qed.

(** X8.  The calls that manage the storage throw without a trace: when
    [alloc], [alloc_page], [reclaim_space] or [truncate] throws, the
    state of the device, and the page, are as they were before the call;
    [alloc] throws only when the excess storage does not hold the request,
    and a request that the excess storage holds is served without a call
    of [File::truncate], whatever the size limit. *)
Theorem storage_calls_throw_without_a_trace
    s n (page : Page) (e : ups_status) :
  (forall s', alloc file_truncate file_size_limit_bytes s n = (inl e, s') ->
              s' = s /\ excess_at_end s < n)
  /\ (forall page' s',
        alloc_page m_config file_truncate file_size_limit_bytes s page
        = (inl e, page', s') ->
        page' = page /\ s' = s)
  /\ (forall s',
        reclaim_space file_truncate file_size_limit_bytes s = (inl e, s') ->
        s' = s)
  /\ (forall s',
        truncate file_truncate file_size_limit_bytes s n = (inl e, s') ->
        s' = s)
  /\ (n <= excess_at_end s ->
      forall truncate' limit',
        alloc truncate' limit' s n
        = (inr (u64 (file_size s - excess_at_end s)),
           mkState (file s) (mmapptr s) (mapped_size s) (file_size s)
             (u64 (excess_at_end s - n)))).
Proof.
  split; [|split; [|split; [|split]]].
  - intros s' Hrun. destruct (alloc_throws s n e s' Hrun) as (-> & Hmore & _).
    done.
  - intros page' s'. unfold alloc_page.
    destruct (alloc file_truncate file_size_limit_bytes s
                (page_size_bytes m_config)) as [[e'|a] s1] eqn:Hrun.
    + intros [= <- <- <-].
      destruct (alloc_throws s _ e' s1 Hrun) as (-> & _). done.
    + done.
  - intros s'. unfold reclaim_space.
    destruct (0 <? excess_at_end s); [|done].
    match goal with
    | |- context [truncate_nolock _ _ s ?size] =>
        destruct (truncate_nolock_cases s size)
          as [(e' & -> & _)|(f & _ & _ & ->)]; [|done]
    end.
    by intros [= <- <-].
  - intros s'. unfold truncate.
    destruct (truncate_nolock_cases s n)
      as [(e' & -> & _)|(f & _ & _ & ->)]; [|done].
    by intros [= <- <-].
  - intros Hfits truncate' limit'. unfold alloc.
    destruct (Z.leb_spec n (excess_at_end s)); [done | lia].
Qed.

(** X9.  [reclaim_space], when it returns, has cut the file down to the
    part in use and left no excess storage; a second call changes nothing
    (and calls [File::truncate] no more), and the next [alloc] that
    returns starts where the part in use ended. *)
Theorem reclaim_space_cuts_to_the_used_part s (s' : State) :
  sizes_sound s -> file_size s < 2 ^ 64 ->
  reclaim_space file_truncate file_size_limit_bytes s = (inr tt, s') ->
  excess_at_end s' = 0 /\ file_size s' = used_size s
  /\ mmapptr s' = mmapptr s /\ mapped_size s' = mapped_size s
  /\ (forall truncate' limit', reclaim_space truncate' limit' s' = (inr tt, s'))
  /\ (forall n a s'',
        0 < n ->
        alloc file_truncate file_size_limit_bytes s' n = (inr a, s'') ->
        a = used_size s).
Proof.
  intros [Hex Hfs] Hsmall. unfold reclaim_space at 1.
  assert (Hresult :
    reclaim_space file_truncate file_size_limit_bytes s = (inr tt, s') ->
    excess_at_end s' = 0 /\ file_size s' = used_size s
    /\ mmapptr s' = mmapptr s /\ mapped_size s' = mapped_size s).
  { unfold reclaim_space, used_size.
    destruct (Z.ltb_spec 0 (excess_at_end s)) as [Hpos|Hzero].
    - rewrite u64_small by (unfold is_u64; lia).
      destruct (truncate_nolock_cases s (file_size s - excess_at_end s))
        as [(e' & -> & _)|(f & _ & _ & ->)]; [done|].
      intros [= <-]. cbn. done.
    - intros [= <-]. repeat split; lia. }
  intros Hrun. fold (reclaim_space file_truncate file_size_limit_bytes s) in Hrun.
  destruct (Hresult Hrun) as (Hex' & Hfs' & Hptr & Hmapped).
  split; [done|]. split; [done|]. split; [done|]. split; [done|]. split.
  - intros truncate' limit'. unfold reclaim_space. rewrite Hex'. done.
  - intros n a s'' Hn. unfold alloc. rewrite Hex'.
    destruct (Z.leb_spec n 0); [lia|]. cbv zeta.
    match goal with
    | |- context [truncate_nolock _ _ s' ?size] =>
        destruct (truncate_nolock_cases s' size)
          as [(e' & -> & _)|(f & _ & _ & ->)]; [done|]
    end.
    intros [= <- _]. done.
Qed.

(** X10.  [alloc_page] keeps the pages of the file aligned: on a device
    whose file size and excess storage are multiples of the page size, a
    call that returns gives the page a page-aligned address behind the
    part of the file that was in use and a heap buffer of one page (never
    a borrow into the mapping; its content is not initialised), and the
    file size and the excess storage are multiples of the page size
    again. *)
Theorem alloc_page_keeps_pages_aligned s (page page' : Page) (s' : State) :
  let page_size := page_size_bytes m_config in
  0 < page_size -> sizes_sound s -> file_size s + 1001 * page_size < 2 ^ 64 ->
  file_size s mod page_size = 0 -> excess_at_end s mod page_size = 0 ->
  alloc_page m_config file_truncate file_size_limit_bytes s page
  = (inr tt, page', s') ->
  get_address page' mod page_size = 0
  /\ used_size s <= get_address page'
  /\ get_address page' + page_size = used_size s'
  /\ (exists buffer,
        get_data page' = Allocated buffer
        /\ length buffer = Z.to_nat page_size)
  /\ sizes_sound s'
  /\ file_size s' mod page_size = 0 /\ excess_at_end s' mod page_size = 0.
Proof.
  intros page_size Hps Hsound Hsmall Hfile Hexcess. unfold alloc_page.
  fold page_size.
  destruct (alloc file_truncate file_size_limit_bytes s page_size)
    as [[e|a] s1] eqn:Hrun; [done|].
  intros [= <- <-]. cbn [get_address get_data assign_allocated_buffer].
  destruct (alloc_step s page_size a s1 ltac:(lia) Hsound Hsmall Hrun)
    as (Hbehind & Hend & Hsound1 & _).
  assert (Hmods : a mod page_size = 0 /\ file_size s1 mod page_size = 0
                  /\ excess_at_end s1 mod page_size = 0).
  { destruct (alloc_returns s page_size a s1 ltac:(lia) Hsound Hsmall Hrun)
      as [(Hfits & -> & ->)
         |(Hmore & -> & f & excess & Hrange & Hmod & _ & _ & ->)];
      unfold used_size; cbn [file_size excess_at_end].
    - apply Z.mod_divide in Hfile, Hexcess; try lia.
      destruct Hfile as [k ->]. destruct Hexcess as [k' Hk']. rewrite Hk'.
      split; [|split; [apply Z_mod_mult|]].
      + replace (k * page_size - k' * page_size) with ((k - k') * page_size)
          by lia. apply Z_mod_mult.
      + replace (k' * page_size - page_size) with ((k' - 1) * page_size)
          by lia. apply Z_mod_mult.
    - apply Z.mod_divide in Hfile, Hmod; try lia.
      destruct Hfile as [k ->]. destruct Hmod as [k' ->].
      split; [apply Z_mod_mult|]. split; [|apply Z_mod_mult].
      replace (k * page_size + page_size + k' * page_size)
        with ((k + 1 + k') * page_size) by lia. apply Z_mod_mult. }
  destruct Hmods as (Ha & Hf1 & He1).
  split; [done|]. split; [done|]. split; [done|]. split; [|done].
  exists (Memory_allocate page_size). split; [done|].
  unfold Memory_allocate. by rewrite length_map, length_seq.
Qed.

End DeviceStorage.

Lemma successive_allocs_do_not_overlap_witness :
  exists s1 s2,
    @DiskDevice.alloc Sample.mapping_platform Scenario.resize 1048576
      Scenario.roomy_device 4096
    = (inr 4096, s1)
    /\ @DiskDevice.alloc Sample.mapping_platform Scenario.resize 1048576 s1 4096
       = (inr 8192, s2)
    /\ 4096 + 4096 <= 8192
    /\ 8192 + 4096 = used_size s2.
Proof.
  eexists. eexists. split; [reflexivity|]. split; [reflexivity|].
  destruct (@successive_allocs_do_not_overlap Sample.mapping_platform
              Scenario.resize 1048576 Scenario.roomy_device
              4096 4096 4096 8192 _ _
              ltac:(lia) ltac:(lia) ltac:(unfold sizes_sound; simpl; lia)
              ltac:(simpl; lia) eq_refl eq_refl)
    as (_ & Hapart & Hend & _).
  split; [exact Hapart | exact Hend].
Defined.

Lemma reclaim_space_cuts_to_the_used_part_witness :
  exists s',
    @DiskDevice.reclaim_space Sample.mapping_platform Scenario.resize 1048576
      Scenario.roomy_device
    = (inr tt, s')
    /\ DiskDevice.excess_at_end s' = 0
    /\ DiskDevice.file_size s' = used_size Scenario.roomy_device.
Proof.
  eexists. split; [reflexivity|].
  destruct (@reclaim_space_cuts_to_the_used_part Sample.mapping_platform
              Scenario.resize 1048576
              Scenario.roomy_device _ ltac:(unfold sizes_sound; simpl; lia)
              ltac:(simpl; lia) eq_refl) as (Hexcess & Hsize & _).
  split; [exact Hexcess | exact Hsize].
Defined.

Lemma alloc_page_keeps_pages_aligned_witness :
  exists page' s',
    @DiskDevice.alloc_page Sample.mapping_platform Sample.device_config
      Scenario.resize 1048576 Scenario.tight_device Sample.fresh_page
    = (inr tt, page', s')
    /\ DiskDevice.get_address page' mod 4096 = 0
    /\ DiskDevice.get_address page' + 4096 = used_size s'.
Proof.
  eexists. eexists. split; [reflexivity|].
  destruct (@alloc_page_keeps_pages_aligned Sample.mapping_platform
              Sample.device_config Scenario.resize
              1048576 Scenario.tight_device Sample.fresh_page _ _
              ltac:(simpl; lia) ltac:(unfold sizes_sound; simpl; lia)
              ltac:(simpl; lia) eq_refl eq_refl eq_refl)
    as (Haligned & _ & Hend & _).
  split; [exact Haligned | exact Hend].
Defined.
(** * Opening the device and reading pages *)

Section DeviceReading.
Context {platform : DiskDevice.Platform}.
Variable m_config : DiskDevice.Config.

Import DiskDevice.

(** [read_page], by the test it makes. *)
Lemma read_page_borrows (s : State) (page : Page) (address : Z) :
  (forall offset, get_data page <> Mapped offset) ->
  (exists offset,
     get_data (read_page m_config s page address).1.2 = Mapped offset)
  <-> address < mapped_size s /\ mmapptr s <> None.
Proof.
  intros Hheap. unfold read_page.
  destruct (Z.ltb_spec address (mapped_size s)) as [Hin|Hout];
    destruct (mmapptr s) as [region|] eqn:Hptr; cbn [andb].
  - split; [done|]. intros _. by exists address.
  - split; [|by intros [_ ?]]. intros [offset Hres]. exfalso. revert Hres.
    destruct (get_data page) as [|old|offset'] eqn:Hd;
      [| |by destruct (Hheap offset')];
      destruct (file_pread _ _ _) as [e|bytes]; cbn;
      unfold store_page_bytes, assign_allocated_buffer; cbn; rewrite ?Hd;
      destruct (is_encryption_enabled m_config); cbn; done.
  - split; [|intros [? _]; lia]. intros [offset Hres]. exfalso. revert Hres.
    destruct (get_data page) as [|old|offset'] eqn:Hd;
      [| |by destruct (Hheap offset')];
      destruct (file_pread _ _ _) as [e|bytes]; cbn;
      unfold store_page_bytes, assign_allocated_buffer; cbn; rewrite ?Hd;
      destruct (is_encryption_enabled m_config); cbn; done.
  - split; [|by intros [_ ?]]. intros [offset Hres]. exfalso. revert Hres.
    destruct (get_data page) as [|old|offset'] eqn:Hd;
      [| |by destruct (Hheap offset')];
      destruct (file_pread _ _ _) as [e|bytes]; cbn;
      unfold store_page_bytes, assign_allocated_buffer; cbn; rewrite ?Hd;
      destruct (is_encryption_enabled m_config); cbn; done.
Qed.

(** X11.  [open] of a device as it is constructed fails exactly when
    [File::open] throws.  Otherwise it takes the file size from the file
    and holds a mapping afterwards if and only if mapping is not disabled,
    the file is not empty, its size is a multiple of the granularity and
    [File::mmap] did not throw; a failed [mmap] is not an error of [open].
    A [read_page] that follows hands a page a borrow into the mapping if
    and only if that mapping exists and the address lies below the file
    size; every other page is read from the file. *)
Theorem open_decides_how_pages_are_read
    (f : File) (page : Page) (address : Z) :
  let read_only := negb (Z.land (flags m_config) UPS_READ_ONLY =? 0) in
  (forall e, file_open f read_only = inl e ->
             open m_config (construct f) = inl e)
  /\ (forall f', file_open f read_only = inr f' ->
      let size := get_file_size f' in
      let mappable :=
        Z.land (flags m_config) UPS_DISABLE_MMAP = 0
        /\ size <> 0 /\ size mod get_granularity = 0 in
      exists s,
        open m_config (construct f) = inr s
        /\ file s = f' /\ file_size s = size /\ excess_at_end s = 0
        /\ (mmapptr s <> None
            <-> mappable
                /\ exists region, file_mmap f' 0 size read_only = inr region)
        /\ (mmapptr s <> None -> mapped_size s = size)
        /\ ((forall offset, get_data page <> Mapped offset) ->
            ((exists offset,
                get_data (read_page m_config s page address).1.2
                = Mapped offset)
             <-> address < size /\ mmapptr s <> None))).
Proof.
  intros read_only. split.
  { intros e He. unfold open, construct. cbn [file]. fold read_only.
    by rewrite He. }
  intros f' Hf size mappable. unfold open, construct. cbn [file].
  fold read_only. rewrite Hf.
  cbn [file mmapptr mapped_size file_size excess_at_end]. fold size.
  destruct (Z.eqb_spec (Z.land (flags m_config) UPS_DISABLE_MMAP) 0)
    as [Henabled|Hdisabled]; cbn [negb].
  - destruct (Z.eqb_spec size 0) as [Hempty|Hsome]; cbn [orb].
    { eexists. split; [reflexivity|].
      cbn [file mmapptr mapped_size file_size excess_at_end].
      split; [done|]. split; [done|]. split; [done|].
      split; [split; [done | intros [(_ & ? & _) _]; done]|].
      split; [done|]. intros Hheap. rewrite read_page_borrows by done.
      cbn [mapped_size mmapptr]. split; intros [_ ?]; done. }
    destruct (Z.eqb_spec (size mod get_granularity) 0) as [Haligned|Hodd];
      cbn [negb].
    + destruct (file_mmap f' 0 size read_only) as [e|region] eqn:Hmmap.
      * eexists. split; [reflexivity|].
        cbn [file mmapptr mapped_size file_size excess_at_end].
        split; [done|]. split; [done|]. split; [done|].
        split; [split; [done | intros [_ [region Hr]]; done]|].
        split; [done|]. intros Hheap. rewrite read_page_borrows by done.
        cbn [mapped_size mmapptr]. split; intros [_ ?]; done.
      * eexists. split; [reflexivity|].
        cbn [file mmapptr mapped_size file_size excess_at_end].
        split; [done|]. split; [done|]. split; [done|].
        split; [split; [intros _; split; [done | by exists region] | done]|].
        split; [done|]. intros Hheap. rewrite read_page_borrows by done.
        cbn [mapped_size mmapptr]. done.
    + eexists. split; [reflexivity|].
      cbn [file mmapptr mapped_size file_size excess_at_end].
      split; [done|]. split; [done|]. split; [done|].
      split; [split; [done | intros [(_ & _ & ?) _]; done]|].
      split; [done|]. intros Hheap. rewrite read_page_borrows by done.
      cbn [mapped_size mmapptr]. split; intros [_ ?]; done.
  - eexists. split; [reflexivity|].
    cbn [file mmapptr mapped_size file_size excess_at_end].
    split; [done|]. split; [done|]. split; [done|].
    split; [split; [done | intros [(? & _) _]; done]|].
    split; [done|]. intros Hheap. rewrite read_page_borrows by done.
    cbn [mapped_size mmapptr]. split; intros [_ ?]; done.
Qed.

(** X12.  Outside the mapping, [read_page] reads like [read]: for a page
    that has no buffer, or a heap buffer and the address that is read,
    the buffer of the page after [read_page] holds what [read] of one
    page at that address stores to it, and [read_page] throws what
    [read] throws. *)
Theorem read_page_outside_the_mapping_reads_like_read
    (s : State) (page : Page) (address : Z) :
  ~ (address < mapped_size s /\ mmapptr s <> None) ->
  let buffered :=
    match get_data page with
    | NoBuffer =>
        assign_allocated_buffer page
          (Memory_allocate (page_size_bytes m_config)) address
    | _ => page
    end in
  forall old,
    get_data buffered = Allocated old -> get_address buffered = address ->
    read_page m_config s page address
    = match read m_config s address old (page_size_bytes m_config) with
      | inl e => (inl e, buffered, s)
      | inr bytes => (inr tt, mkPage (Allocated bytes) address, s)
      end.
Proof.
  intros Hout buffered old Hold Haddress. unfold read_page, read.
  assert (Hcond : (address <? mapped_size s)
                  && match mmapptr s with Some _ => true | None => false end
                  = false).
  { destruct (Z.ltb_spec address (mapped_size s)); [|done].
    destruct (mmapptr s); [|done]. exfalso. apply Hout. done. }
  rewrite Hcond. fold buffered.
  destruct (file_pread (file s) address (page_size_bytes m_config))
    as [e|bytes]; [done|].
  unfold store_page_bytes at 1. rewrite Hold. rewrite Haddress.
  destruct (is_encryption_enabled m_config); [|done].
  unfold page_bytes, store_page_bytes. cbn [get_data get_address]. done.
Qed.

(** X13.  What [is_mapped] reports, [read_page] confirms: when the device
    holds a mapping and [is_mapped] is true for a range of at least one
    byte, [read_page] at the start of the range hands out a borrow into
    the mapping and does not read the file. *)
Theorem mapped_range_is_read_by_borrow
    (s : State) (page : Page) (file_offset size : Z) :
  0 <= file_offset -> 0 < size -> file_offset + size < 2 ^ 64 ->
  mmapptr s <> None ->
  is_mapped s file_offset size = true ->
  read_page m_config s page file_offset
  = (inr tt, mkPage (Mapped file_offset) file_offset, s).
Proof.
  intros Hoffset Hsize Hsmall Hptr. unfold is_mapped, read_page.
  rewrite u64_small by (unfold is_u64; lia). intros Hin%Z.leb_le.
  destruct (Z.ltb_spec file_offset (mapped_size s)); [|lia].
  destruct (mmapptr s); done.
Qed.

End DeviceReading.

Lemma read_page_outside_the_mapping_reads_like_read_witness :
  DiskDevice.read_page Sample.device_config Sample.unmapped_device
    Sample.fresh_page 4096
  = (inr tt,
     DiskDevice.mkPage
       (DiskDevice.Allocated (replicate (Z.to_nat 4096) x2a)) 4096,
     Sample.unmapped_device).
Proof.
  refine (eq_trans
    (@read_page_outside_the_mapping_reads_like_read
       Sample.failing_mmap_platform Sample.device_config
       Sample.unmapped_device Sample.fresh_page 4096 _
       (@DiskDevice.Memory_allocate Sample.failing_mmap_platform 4096)
       eq_refl eq_refl) _).
  - intros [_ Hptr]. by apply Hptr.
  - vm_compute. reflexivity.
Defined.

Lemma mapped_range_is_read_by_borrow_witness :
  DiskDevice.read_page Sample.device_config Sample.mapped_device
    Sample.fresh_page 4096
  = (inr tt, DiskDevice.mkPage (DiskDevice.Mapped 4096) 4096,
     Sample.mapped_device).
Proof.
  apply (@mapped_range_is_read_by_borrow Sample.mapping_platform
           Sample.device_config Sample.mapped_device Sample.fresh_page
           4096 4096); [lia | lia | lia | discriminate | reflexivity].
Defined.
(** * Writing and reading chunks *)

Section ChunkRoundTrip.
Context {platform : DiskDevice.Platform} {environment : Environment}.
Hypothesis Hpage_size : page_size_ok.

Lemma chunks_size_nonneg (chunks : list (list byte * Z)) :
  Forall (fun c => is_u32 c.2) chunks -> 0 <= chunks_size chunks.
Proof.
  induction 1 as [|c cs Hc _ IH]; unfold chunks_size in *; simpl; [lia|].
  unfold is_u32 in Hc. lia.
Qed.

Lemma length_chunks_bytes (chunks : list (list byte * Z)) :
  Forall (fun c => is_u32 c.2) chunks ->
  length (chunks_bytes chunks) = Z.to_nat (chunks_size chunks).
Proof.
  induction 1 as [|c cs Hc Hcs IH]; [done|].
  cbn [chunks_bytes flat_map chunks_size foldr].
  fold (chunks_bytes cs). fold (chunks_size cs).
  rewrite length_app, length_buffer_bytes, IH.
  pose proof (chunks_size_nonneg cs Hcs). unfold is_u32 in Hc. lia.
Qed.

(** The bytes of one page: an address and the addresses behind it up to
    the end of its page lie in the same page. *)
Lemma same_page (address d : Z) :
  0 <= d -> address mod page_size_bytes + d < page_size_bytes ->
  (address + d) - (address + d) mod page_size_bytes
  = address - address mod page_size_bytes.
Proof.
  intros Hd Hin. unfold page_size_ok in *.
  assert (Hm : 0 <= address mod page_size_bytes < page_size_bytes)
    by (apply Z.mod_pos_bound; lia).
  assert (Hmod : (address + d) mod page_size_bytes
                 = address mod page_size_bytes + d).
  { symmetry. apply (Z.mod_unique_pos _ _ (address / page_size_bytes));
      [lia|].
    assert (Hdm : address = page_size_bytes * (address / page_size_bytes)
                          + address mod page_size_bytes)
      by (apply Z.div_mod; lia).
    lia. }
  lia.
Qed.

(** The dirty marks that the loop of [write_chunks] sets for one chunk. *)
Lemma write_chunk_loop_dirty :
  forall (fuel : nat) (page : option Page) (address : Z) (data : list byte)
         (size : Z) (w : World) (result : option Page * Z) (w' : World),
    0 <= address -> is_u32 size -> address + size < 2 ^ 64 ->
    (Z.to_nat size <= fuel)%nat ->
    write_chunk_loop fuel page address data size w = (Return result, w') ->
    forall p,
      p ∈ dirty_pages w'
      <-> p ∈ dirty_pages w
          \/ exists x, address <= x < address + size
                       /\ p = x - x mod page_size_bytes.
Proof.
  induction fuel as [|fuel IH];
    intros page address data size w result w' Ha Hs Hend Hfuel;
    unfold is_u32 in Hs.
  - assert (size = 0) as -> by lia. simpl. intros [= _ <-] p.
    split; [by left|]. intros [?|(x & ? & _)]; [done | lia].
  - cbn [write_chunk_loop].
    destruct (Z.eqb_spec size 0) as [->|Hnz].
    { intros [= _ <-] p.
      split; [by left|]. intros [?|(x & ? & _)]; [done | lia]. }
    destruct (page_of_address Hpage_size address) as [Hid Hm];
      [unfold is_u64; lia|].
    rewrite Hid. unfold bind at 1. rewrite current_page.
    cbn [get_address].
    replace (address - (address - address mod page_size_bytes))
      with (address mod page_size_bytes) by lia.
    rewrite (u32_small (address mod page_size_bytes))
      by (unfold is_u32, page_size_ok in *; lia).
    rewrite (u32_small (page_size_bytes - address mod page_size_bytes))
      by (unfold is_u32, page_size_ok in *; lia).
    set (write_size :=
           if size <? page_size_bytes - address mod page_size_bytes
           then size else page_size_bytes - address mod page_size_bytes).
    assert (Hws : 0 < write_size <= size
                  /\ address mod page_size_bytes + write_size
                     <= page_size_bytes).
    { unfold write_size. destruct (Z.ltb_spec size
        (page_size_bytes - address mod page_size_bytes)); lia. }
    replace (address - address mod page_size_bytes
             + address mod page_size_bytes) with address by lia.
    rewrite (u64_small (address + write_size)) by (unfold is_u64; lia).
    rewrite (u32_small (size - write_size)) by (unfold is_u32; lia).
    unfold bind at 1, memcpy_to_page at 1, modify at 1.
    unfold bind at 1, set_dirty at 1, modify at 1. cbn [get_address].
    intros Hrun p.
    eapply IH in Hrun; [|lia | unfold is_u32; lia | lia | lia].
    rewrite Hrun.
    cbn [dirty_pages]. rewrite elem_of_cons.
    split.
    + intros [[->|Hold]|(x & Hx & ->)].
      * right. exists address. split; [lia | done].
      * by left.
      * right. exists x. split; [lia | done].
    + intros [Hold|(x & Hx & ->)]; [left; by right|].
      destruct (Z.lt_ge_cases x (address + write_size)) as [Hfirst|Hrest].
      * left. left.
        replace x with (address + (x - address)) by lia.
        apply same_page; lia.
      * right. exists x. split; [lia | done].
Qed.

End ChunkRoundTrip.
Section ChunkProperties.
Context {platform : DiskDevice.Platform} {environment : Environment}.
Hypothesis Hpage_size : page_size_ok.

(** X14.  What [write_chunks] writes, [copy_chunk] reads back: after the
    chunks are written at an address, a [copy_chunk] of their total size
    at that address returns their bytes, one chunk after the other,
    whatever pages the range spans and whatever page the callers hold;
    [copy_chunk] changes nothing, and [write_chunks] changes no byte
    outside the range. *)
Theorem written_chunks_are_read_back
    (chunks : list (list byte * Z)) (page : option Page) (address : Z)
    (w : World) :
  0 <= address -> Forall (fun c => is_u32 c.2) chunks ->
  is_u32 (chunks_size chunks) -> address + chunks_size chunks < 2 ^ 64 ->
  exists w',
    write_chunks page address chunks w = (Return tt, w')
    /\ (forall x, x < address \/ address + chunks_size chunks <= x ->
                  raw_payload w' x = raw_payload w x)
    /\ (forall (page' : option Page) (fetch_read_only : bool),
          exists ppage,
            copy_chunk page' address (chunks_size chunks) fetch_read_only w'
            = (Return (chunks_bytes chunks, ppage), w')).
Proof.
  intros Ha Hsizes Htotal Hend.
  destruct (write_chunks_spec Hpage_size chunks page address w Ha Hsizes Hend)
    as (w' & Hrun & _ & Hraw).
  pose proof (length_chunks_bytes chunks Hsizes) as Hlen.
  exists w'. split; [done|]. split.
  - intros x Hx. rewrite Hraw. apply store_bytes_outside.
    rewrite Hlen. unfold is_u32 in Htotal. lia.
  - intros page' ro.
    destruct (copy_chunk_spec Hpage_size page' address (chunks_size chunks)
                ro w' Ha Htotal Hend) as (ppage & Hcopy).
    exists ppage. rewrite Hcopy. do 3 f_equal.
    rewrite (load_bytes_ext _ (store_bytes (raw_payload w) address
                                 (chunks_bytes chunks)))
      by (intros x _; apply Hraw).
    rewrite <- Hlen. apply load_store_bytes.
Qed.

(** X15.  [write_chunks] marks dirty exactly the pages it writes to: the
    pages marked after the call are the pages marked before it and the
    pages that hold a byte of the written range. *)
Theorem write_chunks_marks_the_pages_it_writes
    (chunks : list (list byte * Z)) (page : option Page) (address : Z)
    (w : World) :
  0 <= address -> Forall (fun c => is_u32 c.2) chunks ->
  address + chunks_size chunks < 2 ^ 64 ->
  exists w',
    write_chunks page address chunks w = (Return tt, w')
    /\ forall p,
         p ∈ dirty_pages w'
         <-> p ∈ dirty_pages w
             \/ exists x, address <= x < address + chunks_size chunks
                          /\ p = x - x mod page_size_bytes.
Proof.
  unfold write_chunks. revert page address w.
  induction chunks as [|[data size] chunks IH];
    intros page address w Ha Hsizes Hend.
  - exists w. split; [done|]. intros p. split; [by left|].
    intros [?|(x & Hx & _)]; [done|]. cbn in Hx. lia.
  - apply Forall_cons in Hsizes as [Hsize Hsizes]. cbn [snd] in Hsize.
    pose proof (chunks_size_nonneg chunks Hsizes) as Hrest.
    cbn [chunks_size foldr snd] in Hend |- *.
    fold (chunks_size chunks) in Hend |- *.
    cbn [write_chunks_loop]. unfold bind at 1.
    destruct (write_chunk_loop_spec Hpage_size (Z.to_nat size) page address
                data size w)
      as (page' & w1 & Hrun & _);
      [lia | done | unfold is_u32 in Hsize; lia | lia |].
    rewrite Hrun.
    assert (Hdirty1 : forall p,
              p ∈ dirty_pages w1
              <-> p ∈ dirty_pages w
                  \/ exists x, address <= x < address + size
                               /\ p = x - x mod page_size_bytes).
    { eapply (write_chunk_loop_dirty Hpage_size); [| | | |exact Hrun];
        [lia | done | unfold is_u32 in Hsize; lia | lia]. }
    destruct (IH page' (address + size) w1)
      as (w' & Hrun' & Hdirty');
      [unfold is_u32 in Hsize; lia | done | lia |].
    exists w'. split; [exact Hrun'|].
    intros p. rewrite Hdirty', Hdirty1. unfold is_u32 in Hsize. split.
    + intros [[?|(x & Hx & ->)]|(x & Hx & ->)]; [by left | |];
        right; exists x; (split; [lia | done]).
    + intros [?|(x & Hx & ->)]; [left; by left|].
      destruct (Z.lt_ge_cases x (address + size)).
      * left. right. exists x. split; [lia | done].
      * right. exists x. split; [lia | done].
Qed.

End ChunkProperties.

Lemma written_chunks_are_read_back_witness :
  let w := Sample.blank_world Sample.empty_record in
  exists w',
    @write_chunks _ Sample.plain_env None 2044
      [([x68; x65; x6c], 3); ([x6c; x6f], 2)] w
    = (Return tt, w')
    /\ exists ppage,
         @copy_chunk _ Sample.plain_env None 2044 5 true w'
         = (Return ([x68; x65; x6c; x6c; x6f], ppage), w').
Proof.
  intros w.
  destruct (@written_chunks_are_read_back _ Sample.plain_env
              (sample_page_size_ok None 0)
              [([x68; x65; x6c], 3); ([x6c; x6f], 2)] None 2044 w)
    as (w' & Hrun & _ & Hback).
  - lia.
  - repeat constructor; simpl; lia.
  - unfold is_u32. simpl. lia.
  - simpl. lia.
  - exists w'. split; [exact Hrun|]. exact (Hback None true).
Defined.

Lemma write_chunks_marks_the_pages_it_writes_witness :
  let w := Sample.blank_world Sample.empty_record in
  exists w',
    @write_chunks _ Sample.plain_env None 1020
      [([x68; x65; x6c], 3); ([x6c; x6f], 2)] w
    = (Return tt, w')
    /\ 0 ∈ dirty_pages w' /\ 1024 ∈ dirty_pages w' /\ ~ 2048 ∈ dirty_pages w'.
Proof.
  intros w.
  destruct (@write_chunks_marks_the_pages_it_writes _ Sample.plain_env
              (sample_page_size_ok None 0)
              [([x68; x65; x6c], 3); ([x6c; x6f], 2)] None 1020 w)
    as (w' & Hrun & Hdirty).
  - lia.
  - repeat constructor; simpl; lia.
  - simpl. lia.
  - exists w'. split; [exact Hrun|]. rewrite !Hdirty.
    split; [|split].
    + right. exists 1020. split; [simpl; lia | reflexivity].
    + right. exists 1024. split; [simpl; lia | reflexivity].
    + intros [Hold|(x & Hx & Hp)].
      * cbn in Hold. by apply elem_of_nil in Hold.
      * cbn in Hx, Hp.
        assert (Hcases : x = 1020 \/ x = 1021 \/ x = 1022 \/ x = 1023
                         \/ x = 1024) by lia.
        destruct Hcases as [->|[->|[->|[->| ->]]]]; vm_compute in Hp;
          discriminate Hp.
Defined.
(** * Allocating, sizing and erasing blobs *)

Section BlobLifeCycle.
Context {platform : DiskDevice.Platform} {environment : Environment}.
Hypothesis Hpage_size : page_size_ok.

(** [do_get_blob_size], by the header that is stored at the blob-id. *)
Lemma do_get_blob_size_result (blobid : Z) (w : World) :
  is_u64 blobid ->
  do_get_blob_size blobid w
  = if negb (get_self (stored_header w blobid) =? blobid)
    then (Throw HAM_BLOB_NOT_FOUND, w)
    else (Return (get_size (stored_header w blobid)), w).
Proof.
  intros Hb. unfold do_get_blob_size. unfold bind at 1.
  rewrite (read_chunk_pointer Hpage_size) by done.
  unfold bind at 1, deref at 1, gets at 1.
  fold (stored_header w blobid).
  destruct (negb (get_self (stored_header w blobid) =? blobid)); [done|].
  unfold bind, deref, gets, ret. done.
Qed.

(** X16.  The size of a blob is the size of the record it was allocated
    for: after [do_allocate], [do_get_blob_size] of the returned blob-id
    returns [record.size], also for a record that was stored compressed
    or written partially, in every later state that still holds the
    header of the blob; it changes nothing. *)
Theorem allocated_blob_has_the_record_size (flags : Z) (w : World) :
  let r := record w in
  let alloc_size := u32 (sizeof_PBlobHeader + (stored_payload flags r).2) in
  allocation_ready w alloc_size -> record_fits r ->
  exists blobid w1,
    do_allocate flags w = (Return blobid, w1)
    /\ forall w2,
         stored_header w2 blobid = stored_header w1 blobid ->
         do_get_blob_size blobid w2 = (Return (rec_size r), w2).
Proof.
  intros r alloc_size Hready Hfits.
  destruct (do_allocate_spec Hpage_size flags w Hready Hfits)
    as (blobid & w1 & Hrun & Hrange & Hstored & _).
  exists blobid, w1. split; [exact Hrun|].
  intros w2 Hkept.
  rewrite do_get_blob_size_result by (unfold is_u64; lia).
  rewrite Hkept, Hstored. cbn [get_self get_size].
  by rewrite Z.eqb_refl.
Qed.

(** X17.  [do_allocate] keeps the output of the compressor only when it is
    shorter than the record: the header of the new blob carries the
    compressed flag if and only if a compressor is configured,
    compression is not disabled by the flags and the compressed length is
    below [record.size]; the blob never takes more than the blob header
    and [record.size] bytes. *)
Theorem allocation_compresses_only_to_shrink (flags : Z) (w : World) :
  let r := record w in
  let alloc_size := u32 (sizeof_PBlobHeader + (stored_payload flags r).2) in
  allocation_ready w alloc_size -> record_fits r ->
  exists blobid w1,
    do_allocate flags w = (Return blobid, w1)
    /\ get_self (stored_header w1 blobid) = blobid
    /\ get_size (stored_header w1 blobid) = rec_size r
    /\ sizeof_PBlobHeader <= get_alloc_size (stored_header w1 blobid)
       <= sizeof_PBlobHeader + rec_size r
    /\ (has_flag (get_flags (stored_header w1 blobid)) kIsCompressed = true
        <-> exists c,
              get_record_compressor = Some c
              /\ has_flag flags kDisableCompression = false
              /\ u32 (Z.of_nat (length (compress c (record_bytes r))))
                 < rec_size r)
    /\ (has_flag (get_flags (stored_header w1 blobid)) kIsCompressed = true ->
        forall c, get_record_compressor = Some c ->
          get_alloc_size (stored_header w1 blobid)
          = sizeof_PBlobHeader
            + u32 (Z.of_nat (length (compress c (record_bytes r)))))
    /\ (has_flag (get_flags (stored_header w1 blobid)) kIsCompressed = false ->
        get_alloc_size (stored_header w1 blobid)
        = sizeof_PBlobHeader + rec_size r).
Proof.
  intros r alloc_size Hready Hfits.
  destruct (do_allocate_spec Hpage_size flags w Hready Hfits)
    as (blobid & w1 & Hrun & Hrange & Hstored & _).
  exists blobid, w1. split; [exact Hrun|]. rewrite Hstored.
  cbn [get_self get_size get_alloc_size get_flags].
  destruct Hfits as (Hsize & _ & _ & Hsum & _).
  pose proof (stored_payload_size flags r Hsize) as Hstoredsize.
  assert (Halloc : alloc_size = sizeof_PBlobHeader + (stored_payload flags r).2).
  { apply u32_small. unfold is_u32, sizeof_PBlobHeader in *. lia. }
  fold r. fold alloc_size.
  split; [done|]. split; [done|]. split; [lia|].
  assert (Hflag : forall b : bool,
            has_flag (if b then kIsCompressed else 0) kIsCompressed = b).
  { by intros []. }
  rewrite Hflag.
  assert (Hpacked :
    negb (rec_size r =? (stored_payload flags r).2) = true
    <-> exists c,
          get_record_compressor = Some c
          /\ has_flag flags kDisableCompression = false
          /\ u32 (Z.of_nat (length (compress c (record_bytes r)))) < rec_size r).
  { rewrite negb_true_iff, Z.eqb_neq.
    unfold stored_payload, record_bytes.
    destruct get_record_compressor as [c|].
    - destruct (has_flag flags kDisableCompression) eqn:Hdis; cbn [negb].
      + cbn [snd]. split; [done|]. intros (c' & _ & ? & _). done.
      + destruct (Z.ltb_spec
                    (u32 (Z.of_nat (length (compress c
                       (buffer_bytes (rec_size r) (data_bytes (rec_data r)))))))
                    (rec_size r)) as [Hlt|Hge]; cbn [snd].
        * split; [|lia]. intros _. exists c. done.
        * split; [done|]. intros (c' & [= <-] & _ & Hlt). lia.
    - cbn [snd]. split; [done|]. intros (c' & ? & _). done. }
  split; [exact Hpacked|]. split.
  - intros Hon c Hc. apply Hpacked in Hon as (c' & Hc' & Hen & Hlt).
    rewrite Hc in Hc'. injection Hc' as <-. rewrite Halloc. f_equal.
    unfold stored_payload, record_bytes in *. rewrite Hc, Hen. cbn [negb].
    destruct (Z.ltb_spec
                (u32 (Z.of_nat (length (compress c
                   (buffer_bytes (rec_size r) (data_bytes (rec_data r)))))))
                (rec_size r)); [done | lia].
  - intros Hoff. apply negb_false_iff, Z.eqb_eq in Hoff. lia.
Qed.

End BlobLifeCycle.
Lemma blank_world_allocation_ready (compressor : option Compressor)
    (eflags : Z) (r : ham_record_t) (alloc_size : Z) :
  @allocation_ready _ (Sample.environment compressor eflags)
    (Sample.blank_world r) alloc_size.
Proof.
  unfold allocation_ready. split; [simpl; lia|]. split.
  - intros p Hp. discriminate Hp.
  - cbv zeta. cbn. split; [lia|]. split; [reflexivity | lia].
Qed.

Lemma allocated_blob_has_the_record_size_witness :
  exists blobid w1,
    @do_allocate _ Sample.plain_env 0 (Sample.blank_world Sample.hello)
    = (Return blobid, w1)
    /\ @do_get_blob_size _ Sample.plain_env blobid w1 = (Return 5, w1).
Proof.
  destruct (@allocated_blob_has_the_record_size _ Sample.plain_env
              (sample_page_size_ok None 0) 0 (Sample.blank_world Sample.hello))
    as (blobid & w1 & Hrun & Hsize).
  - apply blank_world_allocation_ready.
  - unfold record_fits, is_u32, sizeof_PBlobHeader. cbn. lia.
  - exists blobid, w1. split; [exact Hrun|]. by apply Hsize.
Defined.

Lemma allocation_compresses_only_to_shrink_witness :
  exists blobid w1,
    @do_allocate _ Sample.packing_env 0 (Sample.blank_world Sample.long_record)
    = (Return blobid, w1)
    /\ has_flag (get_flags (stored_header w1 blobid)) kIsCompressed = true
    /\ get_alloc_size (stored_header w1 blobid) = 1424.
Proof.
  set (w := Sample.blank_world Sample.long_record).
  assert (Hout : compress Sample.zero_stripper (record_bytes (record w))
                 = replicate (Z.to_nat 1400) x41)
    by (vm_compute; reflexivity).
  destruct (@allocation_compresses_only_to_shrink _ Sample.packing_env
              (sample_page_size_ok _ _) 0 w)
    as (blobid & w1 & Hrun & _ & _ & _ & Hiff & Hpacked & _).
  - apply blank_world_allocation_ready.
  - unfold record_fits, is_u32, sizeof_PBlobHeader, w. cbn. lia.
  - assert (Hon : has_flag (get_flags (stored_header w1 blobid)) kIsCompressed
                  = true).
    { apply Hiff. exists Sample.zero_stripper.
      split; [reflexivity|]. split; [reflexivity|].
      rewrite Hout, length_replicate. vm_compute. reflexivity. }
    exists blobid, w1. split; [exact Hrun|]. split; [exact Hon|].
    rewrite (Hpacked Hon Sample.zero_stripper eq_refl).
    rewrite Hout, length_replicate. vm_compute. reflexivity.
Defined.
(** * Blobs in a new page run *)

Section FreshRuns.
Context {platform : DiskDevice.Platform} {environment : Environment}.
Hypothesis Hpage_size : page_size_ok.

Lemma u32_sub_add (x y : Z) : u32 (u32 (x - y) + y) = u32 x.
Proof. unfold u32. rewrite Z.add_mod_idemp_l by lia. f_equal. lia. Qed.

(** [do_erase], by what it leaves behind. *)
Lemma do_erase_result (blobid flags : Z) (page : option Page) (w : World) :
  is_u64 blobid -> get_self (stored_header w blobid) = blobid ->
  let alloc_size := get_alloc_size (stored_header w blobid) in
  let address := blobid - blobid mod page_size_bytes in
  let h := page_header w address in
  let h1 := set_free_bytes h (get_free_bytes h + alloc_size) in
  let full := u32 (u32 (get_num_pages h * page_size_bytes) - kPageOverhead) in
  exists w2,
    do_erase blobid page flags w = (Return tt, w2)
    /\ raw_payload w2 = raw_payload w
    /\ record w2 = record w
    /\ (forall a, a <> address -> page_header w2 a = page_header w a)
    /\ (get_free_bytes h1 = full ->
        m_last_blob_page (page_manager w2) = None
        /\ m_deleted_runs (page_manager w2)
           = (address, get_num_pages h) :: m_deleted_runs (page_manager w)
        /\ m_allocated_runs (page_manager w2)
           = m_allocated_runs (page_manager w)
        /\ page_header w2 address = initialize h1)
    /\ (get_free_bytes h1 <> full ->
        page_header w2 address
        = add_to_freelist h1 (blobid - address) alloc_size
        /\ page_manager w2 = page_manager w).
Proof.
  intros Hb Hself alloc_size address h h1 full.
  destruct (page_of_address Hpage_size blobid Hb) as [_ Hm].
  assert (Hoff : u32 (blobid - address) = blobid - address).
  { apply u32_small. unfold address, is_u32, page_size_ok in *. lia. }
  assert (Halloc : u32 alloc_size = alloc_size)
    by apply u32_small, stored_alloc_size_u32.
  unfold do_erase. unfold bind at 1.
  rewrite (read_chunk_pointer Hpage_size) by done.
  unfold bind at 1, deref at 1, gets at 1.
  fold (stored_header w blobid). rewrite Hself, Z.eqb_refl. cbn [negb].
  unfold bind at 1, deref at 1, gets at 1.
  unfold bind at 1, header_update at 1, modify at 1.
  unfold bind at 1, header_get at 1, gets at 1.
  cbn [page_header raw_payload from_page get_address].
  fold address. rewrite Z.eqb_refl.
  fold (stored_header w blobid). fold alloc_size h h1.
  change (get_num_pages h1) with (get_num_pages h). fold full.
  destruct (Z.eqb_spec (get_free_bytes h1) full) as [Hfull|Hpart].
  - eexists. split; [reflexivity|].
    cbn [raw_payload record page_header page_manager m_last_blob_page
         m_deleted_runs m_allocated_runs get_address].
    split; [done|]. split; [done|]. split.
    + intros a Ha. destruct (Z.eqb_spec a address); [done|].
      destruct (Z.eqb_spec a address); done.
    + rewrite !Z.eqb_refl. split; [|done]. intros _. done.
  - eexists. split; [reflexivity|].
    cbn [raw_payload record page_header page_manager m_last_blob_page
         m_deleted_runs m_allocated_runs get_address].
    split; [done|]. split; [done|]. split.
    + intros a Ha. destruct (Z.eqb_spec a address); [done|].
      destruct (Z.eqb_spec a address); done.
    + rewrite !Z.eqb_refl. split; [done|]. intros _.
      fold (stored_header w blobid). fold alloc_size. fold h h1.
      rewrite Hoff, Halloc. done.
Qed.

(** The new run of [do_allocate]: its header counts the pages and the
    bytes that are free in them and, for a single page, records the rest
    of the page behind the blob in the first slot of the freelist. *)
Lemma do_allocate_new_run_header (flags : Z) (r : ham_record_t)
    (alloc_size : Z) (w : World) :
  let n := run_pages alloc_size in
  let a := place_run (page_manager w) n in
  let free := u32 (u32 (n * page_size_bytes) - kPageOverhead) in
  0 <= a -> 0 <= kPageOverhead -> a + kPageOverhead < 2 ^ 64 ->
  exists w2,
    do_allocate_new_run flags r alloc_size w
    = (Return (mkPage a, a + kPageOverhead), w2)
    /\ raw_payload w2 = raw_payload w
    /\ record w2 = record w
    /\ device w2 = device w
    /\ page_manager w2
       = mkPageManager (m_last_blob_page (page_manager w))
           ((a, n) :: m_allocated_runs (page_manager w))
           (m_deleted_runs (page_manager w))
    /\ (forall x, x <> a -> page_header w2 x = page_header w x)
    /\ get_num_pages (page_header w2 a) = u32 n
    /\ get_free_bytes (page_header w2 a) = free
    /\ length (m_freelist (page_header w2 a))
       = length (m_freelist (page_header w a))
    /\ (n = 1 -> 0 < u32 (kPageOverhead + alloc_size) ->
        0 < u32 (free - alloc_size) ->
        m_freelist (page_header w2 a)
        = <[0%nat := (u32 (kPageOverhead + alloc_size),
                      u32 (free - alloc_size))]>
            (replicate (length (m_freelist (page_header w a))) (0, 0))).
Proof.
  intros n a free Ha Hk Hak. unfold do_allocate_new_run.
  fold (run_pages alloc_size). fold n.
  unfold bind at 1, alloc_multiple_blob_pages at 1.
  unfold bind at 1, gets at 1. fold a.
  unfold bind at 1, update_page_manager at 1, modify at 1. unfold ret at 1.
  unfold bind at 1, header_update at 1, modify at 1.
  unfold bind at 1, header_update at 1, modify at 1.
  unfold bind at 1, header_update at 1, modify at 1.
  unfold bind at 1, header_get at 1, gets at 1.
  cbn [from_page get_address page_header raw_payload record device
       page_manager]. rewrite !Z.eqb_refl.
  rewrite (u64_small (a + kPageOverhead)) by (unfold is_u64; lia).
  set (h3 := set_free_bytes
               (set_num_pages (initialize (page_header w a)) n)
               (u32 (n * page_size_bytes) - kPageOverhead)).
  assert (Hh3fb : get_free_bytes h3 = free) by done.
  assert (Hh3fl : m_freelist h3
                  = replicate (length (m_freelist (page_header w a))) (0, 0))
    by done.
  unfold bind at 1.
  destruct ((n =? 1) && (0 <? u32 (kPageOverhead + alloc_size))
            && (0 <? u32 (get_free_bytes h3 - alloc_size))) eqn:Hsingle.
  - (* a single page with a remainder: no CRC *)
    assert (Hn1 : n = 1).
    { apply andb_true_iff in Hsingle as [Hs _].
      apply andb_true_iff in Hs as [Hs _]. by apply Z.eqb_eq. }
    unfold bind at 1, header_update at 1, modify at 1.
    unfold header_update at 1, modify at 1.
    destruct (Z.ltb_spec 1 n) as [|_]; [lia|]. cbn [andb]. unfold bind, ret.
    eexists. split; [reflexivity|].
    cbn [raw_payload record device page_header page_manager].
    rewrite !Z.eqb_refl. fold h3.
    split; [done|]. split; [done|]. split; [done|].
    split; [done|]. split.
    { intros x Hx. by destruct (Z.eqb_spec x a). }
    split; [done|]. split; [done|].
    assert (Hslots : m_freelist
              (set_freelist_size
                 (set_freelist_offset h3 0 (kPageOverhead + alloc_size)) 0
                 (get_free_bytes
                    (set_freelist_offset h3 0 (kPageOverhead + alloc_size))
                  - alloc_size))
            = <[0%nat := (u32 (kPageOverhead + alloc_size),
                          u32 (free - alloc_size))]>
                (replicate (length (m_freelist (page_header w a))) (0, 0))).
    { change (get_free_bytes
                (set_freelist_offset h3 0 (kPageOverhead + alloc_size)))
        with free.
      destruct (m_freelist h3 !! 0%nat) as [[off sz]|] eqn:H0.
      - erewrite set_slot_both by done. cbn [with_slot m_freelist].
        by rewrite Hh3fl.
      - unfold set_freelist_size, set_freelist_offset. cbn [m_freelist].
        rewrite H0. cbn [m_freelist]. rewrite H0, Hh3fl.
        rewrite Hh3fl in H0. apply lookup_ge_None in H0.
        rewrite list_insert_ge by done. done. }
    rewrite Hslots.
    split; [by rewrite length_insert, length_replicate|]. done.
  - unfold ret at 1. unfold bind at 1.
    assert (Hmulti : n = 1 -> 0 < u32 (kPageOverhead + alloc_size) ->
                     0 < u32 (free - alloc_size) -> False).
    { intros Hn1 H1 H2. rewrite Hh3fb, Hn1, Z.eqb_refl in Hsingle.
      cbn [andb] in Hsingle.
      apply andb_false_iff in Hsingle as [H|H]; apply Z.ltb_ge in H; lia. }
    destruct ((1 <? n) && has_flag env_flags HAM_ENABLE_CRC32) eqn:Hcrc.
    + unfold header_update, modify, ret.
      eexists. split; [reflexivity|].
      cbn [raw_payload record device page_header page_manager].
      rewrite !Z.eqb_refl. fold h3.
      split; [done|]. split; [done|]. split; [done|]. split; [done|]. split.
      { intros x Hx. by destruct (Z.eqb_spec x a). }
      split; [done|]. split; [done|]. split.
      { unfold set_freelist_offset. cbn [m_freelist].
        destruct (m_freelist h3 !! 0%nat);
          rewrite ?length_insert, Hh3fl, length_replicate; done. }
      intros; exfalso; eauto.
    + unfold ret. eexists. split; [reflexivity|].
      cbn [raw_payload record device page_header page_manager].
      rewrite !Z.eqb_refl. fold h3.
      split; [done|]. split; [done|]. split; [done|]. split; [done|]. split.
      { intros x Hx. by destruct (Z.eqb_spec x a). }
      split; [done|]. split; [done|]. split.
      { by rewrite Hh3fl, length_replicate. }
      intros; exfalso; eauto.
Qed.

(** The update of the counter and of the hint. *)
Lemma do_allocate_account_result (page : Page) (alloc_size : Z) (w : World) :
  let a := get_address page in
  exists w',
    do_allocate_account page alloc_size w = (Return tt, w')
    /\ raw_payload w' = raw_payload w
    /\ record w' = record w
    /\ device w' = device w
    /\ (forall x, x <> a -> page_header w' x = page_header w x)
    /\ page_header w' a
       = set_free_bytes (page_header w a)
           (get_free_bytes (page_header w a) - alloc_size)
    /\ page_manager w'
       = mkPageManager
           (if u32 (get_free_bytes (page_header w a) - alloc_size) =? 0
            then None else Some page)
           (m_allocated_runs (page_manager w))
           (m_deleted_runs (page_manager w)).
Proof.
  intros a. unfold do_allocate_account.
  unfold bind at 1, header_update at 1, modify at 1.
  unfold bind at 1, header_get at 1, gets at 1.
  cbn [page_header]. unfold from_page. fold a. rewrite Z.eqb_refl.
  change (get_free_bytes
            (set_free_bytes (page_header w a)
               (get_free_bytes (page_header w a) - alloc_size)))
    with (u32 (get_free_bytes (page_header w a) - alloc_size)).
  destruct (u32 (get_free_bytes (page_header w a) - alloc_size) =? 0);
    cbn [negb]; unfold set_last_blob_page, update_page_manager, modify;
    (eexists; split; [reflexivity|]);
    cbn [raw_payload record device page_header page_manager];
    rewrite ?Z.eqb_refl;
    (split; [done|]); (split; [done|]); (split; [done|]);
    (split; [|done]);
    intros x Hx; by destruct (Z.eqb_spec x a).
Qed.

(** The space that [do_allocate] takes when there is no last blob page. *)
Lemma do_allocate_space_fresh (flags : Z) (r : ham_record_t)
    (alloc_size : Z) (w : World) :
  m_last_blob_page (page_manager w) = None ->
  let n := run_pages alloc_size in
  let a := place_run (page_manager w) n in
  let free := u32 (u32 (n * page_size_bytes) - kPageOverhead) in
  0 <= a -> 0 <= kPageOverhead -> a + kPageOverhead < 2 ^ 64 ->
  exists w2,
    do_allocate_space flags r alloc_size w
    = (Return (mkPage a, a + kPageOverhead), w2)
    /\ raw_payload w2 = raw_payload w
    /\ record w2 = record w
    /\ device w2 = device w
    /\ (forall x, x <> a -> page_header w2 x = page_header w x)
    /\ get_num_pages (page_header w2 a) = u32 n
    /\ get_free_bytes (page_header w2 a) = u32 (free - alloc_size)
    /\ length (m_freelist (page_header w2 a))
       = length (m_freelist (page_header w a))
    /\ (n = 1 -> 0 < u32 (kPageOverhead + alloc_size) ->
        0 < u32 (free - alloc_size) ->
        m_freelist (page_header w2 a)
        = <[0%nat := (u32 (kPageOverhead + alloc_size),
                      u32 (free - alloc_size))]>
            (replicate (length (m_freelist (page_header w a))) (0, 0)))
    /\ page_manager w2
       = mkPageManager
           (if u32 (free - alloc_size) =? 0 then None else Some (mkPage a))
           ((a, n) :: m_allocated_runs (page_manager w))
           (m_deleted_runs (page_manager w)).
Proof.
  intros Hnone n a free Ha Hk Hak.
  unfold do_allocate_space.
  unfold bind at 1, do_allocate_from_freelist at 1.
  unfold bind at 1, get_last_blob_page at 1, gets at 1. rewrite Hnone.
  unfold ret at 1.
  destruct (do_allocate_new_run_header flags r alloc_size w Ha Hk Hak)
    as (w1 & Hrun1 & Hraw1 & Hrec1 & Hdev1 & Hpm1 & Hother1 & Hnp1 & Hfb1
        & Hlen1 & Hslot1).
  fold n a free in Hrun1, Hpm1, Hother1, Hnp1, Hfb1, Hlen1, Hslot1.
  unfold bind at 1. rewrite Hrun1.
  destruct (do_allocate_account_result (mkPage a) alloc_size w1)
    as (w2 & Hrun2 & Hraw2 & Hrec2 & Hdev2 & Hother2 & Hhere2 & Hpm2).
  cbn [get_address] in Hother2, Hhere2, Hpm2.
  unfold bind at 1. rewrite Hrun2. unfold ret.
  exists w2. split; [done|].
  split; [congruence|]. split; [congruence|]. split; [congruence|].
  split; [intros x Hx; rewrite Hother2, Hother1; done|].
  rewrite Hhere2, Hpm2, Hfb1, Hpm1.
  cbn [set_free_bytes get_num_pages get_free_bytes m_num_pages m_free_bytes
       m_freelist m_allocated_runs m_deleted_runs].
  split; [exact Hnp1|]. split; [done|]. split; [exact Hlen1|].
  split; [exact Hslot1 | done].
Qed.

(** [do_allocate], once the space is known: the blob-id is the address of
    the space, and the page headers and the page manager are as
    [do_allocate_space] left them. *)
Lemma do_allocate_at (flags : Z) (w : World) (page : Page) (address : Z)
    (w1 w2 : World) :
  let r := record w in
  let record_data := (stored_payload flags r).1 in
  let record_size := (stored_payload flags r).2 in
  let alloc_size := u32 (sizeof_PBlobHeader + record_size) in
  record_fits r ->
  do_allocate_compress flags r w = (Return (stored_payload flags r), w1) ->
  do_allocate_space flags r alloc_size w1 = (Return (page, address), w2) ->
  0 <= address < 2 ^ 63 ->
  exists w',
    do_allocate flags w = (Return address, w')
    /\ page_header w' = page_header w2
    /\ page_manager w' = page_manager w2
    /\ record w' = record w2
    /\ device w' = device w2
    /\ stored_header w' address
       = mkBlobHeader address (rec_size r) alloc_size
           (if negb (rec_size r =? record_size) then kIsCompressed else 0)
    /\ (forall x,
          x < address
          \/ address + sizeof_PBlobHeader
             + written_extent flags r record_size <= x ->
          raw_payload w' x = raw_payload w2 x)
    /\ (has_flag flags HAM_PARTIAL = false ->
        load_bytes (raw_payload w') (address + sizeof_PBlobHeader)
          (Z.to_nat record_size)
        = buffer_bytes record_size record_data).
Proof.
  intros r record_data record_size alloc_size
    (Hsize & Hpo & Hpsz & Hsum & Hpsum) Hrun1 Hrun2 Haddr.
  pose proof (stored_payload_size flags r Hsize) as Hrs.
  fold record_size in Hrs.
  unfold do_allocate.
  unfold bind at 1, get_record at 1, gets at 1. fold r.
  unfold bind at 1. rewrite Hrun1.
  rewrite (surjective_pairing (stored_payload flags r)).
  fold record_data record_size. fold alloc_size.
  unfold bind at 1. rewrite Hrun2.
  set (flag := if negb (rec_size r =? record_size) then kIsCompressed else 0).
  set (blob_header := mkBlobHeader address (rec_size r) alloc_size flag).
  assert (Hset :
    set_flags
      (set_self
         (set_size (set_alloc_size (mkBlobHeader 0 0 0 0) alloc_size)
            (rec_size r)) address) flag = blob_header).
  { unfold set_flags, set_alloc_size, set_size, set_self, blob_header.
    cbn [get_self get_size get_alloc_size get_flags].
    rewrite (u64_small address) by (unfold is_u64; lia).
    rewrite (u64_small (rec_size r)) by (unfold is_u32, is_u64 in *; lia).
    unfold alloc_size at 1. rewrite u32_idem. fold alloc_size.
    f_equal. unfold flag, kIsCompressed.
    destruct (negb (rec_size r =? record_size)); reflexivity. }
  rewrite Hset.
  assert (Hfits : blob_header_fits blob_header).
  { unfold blob_header_fits, blob_header.
    cbn [get_self get_size get_alloc_size get_flags].
    split; [unfold is_u64; lia|].
    split; [unfold is_u32, is_u64 in *; lia|].
    split; [apply u32_range|].
    unfold flag, kIsCompressed, is_u32.
    destruct (negb (rec_size r =? record_size)); lia. }
  assert (Hextent : 0 <= written_extent flags r record_size < 2 ^ 34).
  { unfold written_extent, is_u32 in *.
    pose proof (u32_range (rec_size r
                  - u32 (rec_partial_offset r + rec_partial_size r))) as Ht.
    unfold is_u32 in Ht.
    destruct (has_flag flags HAM_PARTIAL); cbn [andb];
      repeat match goal with |- context [if ?c then _ else _] =>
               destruct c end; lia. }
  destruct (do_allocate_write_spec Hpage_size flags r record_data record_size
              page address blob_header w2)
    as (w3 & Hrun3 & Hsame3 & Hstored3 & Hframe3 & Hcontent3);
    [done | lia | done | done | done
     | unfold is_u32 in *; lia
     | destruct (has_flag flags HAM_PARTIAL);
         unfold sizeof_PBlobHeader in *; lia
     | unfold sizeof_PBlobHeader; lia |].
  unfold bind at 1. rewrite Hrun3. unfold ret.
  destruct Hsame3 as (Hh3 & Hpm3 & Hdev3 & _ & _ & Hrec3).
  exists w3. cbn [get_self blob_header]. done.
Qed.

(** [do_allocate] when there is no last blob page: the blob lies at the
    start of a new run. *)
Lemma do_allocate_fresh (flags : Z) (w : World) :
  let r := record w in
  let record_size := (stored_payload flags r).2 in
  let alloc_size := u32 (sizeof_PBlobHeader + record_size) in
  let n := run_pages alloc_size in
  let a := place_run (page_manager w) n in
  let free := u32 (u32 (n * page_size_bytes) - kPageOverhead) in
  allocation_ready w alloc_size -> record_fits r ->
  m_last_blob_page (page_manager w) = None ->
  exists w',
    do_allocate flags w = (Return (a + kPageOverhead), w')
    /\ record w' = record w
    /\ stored_header w' (a + kPageOverhead)
       = mkBlobHeader (a + kPageOverhead) (rec_size r) alloc_size
           (if negb (rec_size r =? record_size) then kIsCompressed else 0)
    /\ (forall x, x <> a -> page_header w' x = page_header w x)
    /\ get_num_pages (page_header w' a) = n
    /\ get_free_bytes (page_header w' a) = u32 (free - alloc_size)
    /\ length (m_freelist (page_header w' a))
       = length (m_freelist (page_header w a))
    /\ (n = 1 -> 0 < u32 (kPageOverhead + alloc_size) ->
        0 < u32 (free - alloc_size) ->
        m_freelist (page_header w' a)
        = <[0%nat := (u32 (kPageOverhead + alloc_size),
                      u32 (free - alloc_size))]>
            (replicate (length (m_freelist (page_header w a))) (0, 0)))
    /\ page_manager w'
       = mkPageManager
           (if u32 (free - alloc_size) =? 0 then None else Some (mkPage a))
           ((a, n) :: m_allocated_runs (page_manager w))
           (m_deleted_runs (page_manager w))
    /\ (a + kPageOverhead) - (a + kPageOverhead) mod page_size_bytes = a.
Proof.
  intros r record_size alloc_size n a free (Hk & _ & Hrun) Hfits Hnone.
  cbv zeta in Hrun. fold n a in Hrun. destruct Hrun as (Ha & Haligned & Hcap).
  destruct (do_allocate_compress_spec flags r w)
    as (w1 & Hrun1 & Hraw1 & Hh1 & Hpm1 & Hdev1 & Hrec1).
  destruct (do_allocate_space_fresh flags r alloc_size w1)
    as (w2 & Hrun2 & Hraw2 & Hrec2 & Hdev2 & Hother2 & Hnp2 & Hfb2 & Hlen2
        & Hslot2 & Hpm2);
    rewrite ?Hpm1; fold n a; [done | lia | lia | unfold page_size_ok in *; lia|].
  rewrite Hpm1, Hh1 in *. fold n a free in Hrun2, Hother2, Hnp2, Hfb2, Hlen2,
    Hslot2, Hpm2.
  destruct (do_allocate_at flags w (mkPage a) (a + kPageOverhead) w1 w2
              Hfits Hrun1 Hrun2)
    as (w' & Hrun' & Hh' & Hpm' & Hrec' & _ & Hstored' & _);
    [unfold page_size_ok in *; lia|].
  exists w'. split; [exact Hrun'|].
  split; [congruence|]. split; [exact Hstored'|].
  rewrite Hh', Hpm'.
  split; [exact Hother2|].
  split; [rewrite Hnp2; apply u32_small, (run_pages_u32 Hpage_size)|].
  split; [exact Hfb2|]. split; [exact Hlen2|]. split; [exact Hslot2|].
  split; [exact Hpm2|].
  apply (page_of_offset Hpage_size); [done | lia].
Qed.

(** X18.  A blob that was allocated in a new page run and is erased again
    gives the run back: after [do_allocate] in a state without a last
    blob page, [do_erase] of the returned blob-id returns, clears the
    last-blob-page hint, hands the run with all its pages back to the
    page manager and leaves the header of the run zeroed. *)
Theorem erasing_the_only_blob_returns_the_run (flags : Z) (w : World) :
  let r := record w in
  let alloc_size := u32 (sizeof_PBlobHeader + (stored_payload flags r).2) in
  let n := run_pages alloc_size in
  let a := place_run (page_manager w) n in
  allocation_ready w alloc_size -> record_fits r ->
  m_last_blob_page (page_manager w) = None ->
  exists blobid w1 w2,
    do_allocate flags w = (Return blobid, w1)
    /\ blobid = a + kPageOverhead
    /\ m_allocated_runs (page_manager w1)
       = (a, n) :: m_allocated_runs (page_manager w)
    /\ do_erase blobid None 0 w1 = (Return tt, w2)
    /\ m_last_blob_page (page_manager w2) = None
    /\ m_deleted_runs (page_manager w2)
       = (a, n) :: m_deleted_runs (page_manager w)
    /\ m_allocated_runs (page_manager w2)
       = (a, n) :: m_allocated_runs (page_manager w)
    /\ page_header w2 a
       = mkPageHeader 0 0
           (replicate (length (m_freelist (page_header w a))) (0, 0))
    /\ (forall x, x <> a -> page_header w2 x = page_header w x).
Proof.
  intros r alloc_size n a Hready Hfits Hnone.
  destruct (do_allocate_fresh flags w Hready Hfits Hnone)
    as (w1 & Hrun1 & Hrec1 & Hstored1 & Hother1 & Hnp1 & Hfb1 & Hlen1 & _
        & Hpm1 & Hpage).
  fold r alloc_size n a in Hrun1, Hstored1, Hother1, Hnp1, Hfb1, Hlen1, Hpm1,
    Hpage.
  destruct Hready as (Hk & _ & Hrun). cbv zeta in Hrun. fold n a in Hrun.
  destruct Hrun as (Ha & _).
  set (blobid := a + kPageOverhead) in *.
  assert (Hb : is_u64 blobid).
  { unfold is_u64, blobid, page_size_ok in *. lia. }
  destruct (do_erase_result blobid 0 None w1 Hb)
    as (w2 & Hrun2 & _ & _ & Hother2 & Hfull & _).
  { rewrite Hstored1. done. }
  rewrite Hpage, Hstored1 in Hfull.
  cbn [get_alloc_size] in Hfull.
  destruct Hfull as (Hhint & Hdeleted & Hallocated & Hheader).
  { cbn [get_free_bytes set_free_bytes m_free_bytes].
    fold (get_free_bytes (page_header w1 a)). rewrite Hfb1.
    change (m_num_pages (page_header w1 a))
      with (get_num_pages (page_header w1 a)).
    rewrite Hnp1. rewrite u32_sub_add. apply u32_idem. }
  exists blobid, w1, w2. split; [exact Hrun1|]. split; [done|].
  split; [by rewrite Hpm1|]. rewrite Hpage in Hother2.
  split; [exact Hrun2|]. split; [exact Hhint|].
  split; [rewrite Hdeleted, Hnp1, Hpm1; done|].
  split; [rewrite Hallocated, Hpm1; done|].
  split.
  - rewrite Hheader. unfold initialize. cbn [set_free_bytes m_freelist].
    by rewrite Hlen1.
  - intros x Hx. rewrite Hother2, Hother1; done.
Qed.

End FreshRuns.

Lemma erasing_the_only_blob_returns_the_run_witness :
  exists blobid w1 w2,
    @do_allocate _ Sample.plain_env 0 (Sample.blank_world Sample.hello)
    = (Return blobid, w1)
    /\ blobid = 1305
    /\ @do_erase _ Sample.plain_env blobid None 0 w1 = (Return tt, w2)
    /\ m_deleted_runs (page_manager w2) = [(1024, 1)]
    /\ page_header w2 1024 = Sample.blank_header.
Proof.
  destruct (@erasing_the_only_blob_returns_the_run _ Sample.plain_env
              (sample_page_size_ok None 0) 0 (Sample.blank_world Sample.hello))
    as (blobid & w1 & w2 & Hrun1 & Hid & _ & Hrun2 & _ & Hdeleted & _
        & Hheader & _).
  - apply blank_world_allocation_ready.
  - unfold record_fits, is_u32, sizeof_PBlobHeader. cbn. lia.
  - reflexivity.
  - exists blobid, w1, w2. split; [exact Hrun1|].
    split; [rewrite Hid; vm_compute; reflexivity|].
    split; [exact Hrun2|].
    split; [rewrite Hdeleted; vm_compute; reflexivity|].
    refine (eq_trans Hheader _). vm_compute. reflexivity.
Defined.
(** * Blobs in the freelist of the last blob page *)

Section BackToBack.
Context {platform : DiskDevice.Platform} {environment : Environment}.
Hypothesis Hpage_size : page_size_ok.




End BackToBack.

(** * Overwriting in place and reading back *)

Section InPlace.
Context {platform : DiskDevice.Platform} {environment : Environment}.
Hypothesis Hpage_size : page_size_ok.

(** The in-place path of [do_overwrite], with the state after the writes
    and the page headers after the call. *)
Lemma do_overwrite_in_place_trace (old_blobid flags : Z) (w : World) :
  is_u64 old_blobid ->
  get_self (stored_header w old_blobid) = old_blobid ->
  let r := record w in
  let alloc_size := u32 (sizeof_PBlobHeader + rec_size r) in
  let extent :=
    if has_flag flags HAM_PARTIAL
    then rec_partial_offset r + rec_partial_size r else rec_size r in
  let page := old_blobid - old_blobid mod page_size_bytes in
  let new_blob_header := mkBlobHeader old_blobid (rec_size r) alloc_size 0 in
  let crc32 :=
    if negb (has_flag flags HAM_PARTIAL)
    then u32 (MurmurHash3_x86_32 (record_bytes r) 0) else 0 in
  alloc_size <= get_alloc_size (stored_header w old_blobid) ->
  is_u32 (rec_size r) -> is_u32 (rec_partial_offset r) ->
  is_u32 (rec_partial_size r) ->
  old_blobid + sizeof_PBlobHeader + extent < 2 ^ 64 ->
  exists w1 w',
    (if has_flag flags HAM_PARTIAL && negb (rec_partial_offset r =? 0)
     then
       bind (write_chunks (Some (mkPage page)) old_blobid
               [(blob_header_bytes new_blob_header, sizeof_PBlobHeader)])
         (fun _ =>
            write_chunks (Some (mkPage page))
              (u64 (old_blobid + sizeof_PBlobHeader + rec_partial_offset r))
              [(data_bytes (rec_data r), rec_partial_size r)])
     else
       write_chunks (Some (mkPage page)) old_blobid
         [(blob_header_bytes new_blob_header, sizeof_PBlobHeader);
          (data_bytes (rec_data r),
           if has_flag flags HAM_PARTIAL then rec_partial_size r
           else rec_size r)]) w
    = (Return tt, w1)
    /\ same_but_payload w w1
    /\ do_overwrite old_blobid flags w = (Return old_blobid, w')
    /\ raw_payload w' = raw_payload w1
    /\ stored_header w' old_blobid = new_blob_header
    /\ page_manager w' = page_manager w
    /\ record w' = record w
    /\ device w' = device w
    /\ forall x,
         page_header w' x
         = if (x =? page)
              && ((1 <? get_num_pages (page_header w page))
                  && has_flag env_flags HAM_ENABLE_CRC32)
           then set_freelist_offset (page_header w x) 0 crc32
           else page_header w x.
Proof.
  intros Hb Hself r alloc_size extent page new_blob_header crc32 Hfit Hsize
    Hpo Hpsz Hend.
  assert (Hfits : blob_header_fits new_blob_header).
  { unfold blob_header_fits, new_blob_header. cbn.
    repeat split; try apply Hb; try apply u32_range;
      unfold is_u32, is_u64 in *; lia. }
  assert (Hset :
    set_flags
      (set_alloc_size
         (set_size (set_self (mkBlobHeader 0 0 0 0) old_blobid) (rec_size r))
         alloc_size) 0 = new_blob_header).
  { unfold set_flags, set_alloc_size, set_size, set_self, new_blob_header.
    cbn [get_self get_size get_alloc_size get_flags].
    rewrite (u64_small old_blobid) by done.
    rewrite (u64_small (rec_size r)) by (unfold is_u32, is_u64 in *; lia).
    unfold alloc_size. rewrite u32_idem. done. }
  destruct (overwrite_writes Hpage_size (mkPage page)
              old_blobid flags new_blob_header r w)
    as (w1 & Hrun & Hsame & Hstored & Hframe);
    [done | apply Hb | done | done | done | done |].
  assert (Hover : exists w',
    do_overwrite old_blobid flags w = (Return old_blobid, w')
    /\ raw_payload w' = raw_payload w1
    /\ stored_header w' old_blobid = new_blob_header
    /\ page_manager w' = page_manager w
    /\ record w' = record w
    /\ device w' = device w
    /\ forall x,
         page_header w' x
         = if (x =? page)
              && ((1 <? get_num_pages (page_header w page))
                  && has_flag env_flags HAM_ENABLE_CRC32)
           then set_freelist_offset (page_header w x) 0 crc32
           else page_header w x);
    [|destruct Hover as (w' & Hover); exists w1, w'; done].
  unfold do_overwrite.
  unfold bind at 1, get_record at 1, gets at 1. fold r. fold alloc_size.
  unfold bind at 1. rewrite (read_chunk_pointer Hpage_size) by done.
  unfold bind at 1, deref at 1, gets at 1.
  fold (stored_header w old_blobid). rewrite Hself, Z.eqb_refl. cbn [negb].
  unfold bind at 1, deref at 1, gets at 1.
  fold (stored_header w old_blobid).
  destruct (Z.leb_spec alloc_size (get_alloc_size (stored_header w old_blobid)));
    [|lia].
  unfold bind at 1, deref at 1, gets at 1.
  fold (stored_header w old_blobid). rewrite Hself, Hset.
  change (get_self new_blob_header) with old_blobid.
  unfold bind at 1. fold page. rewrite Hrun.
  unfold bind at 1, deref at 1, gets at 1.
  fold (stored_header w1 old_blobid). rewrite Hstored.
  change (get_alloc_size new_blob_header) with alloc_size.
  rewrite Z.ltb_irrefl.
  unfold bind at 1, ret at 1.
  unfold bind at 1, header_get at 1, gets at 1.
  destruct Hsame as (Hh & Hpm & Hdev & Hm1 & Hm2 & Hrec).
  unfold bind at 1. unfold from_page. cbn [get_address]. rewrite Hh.
  fold (record_bytes r). fold crc32.
  destruct ((1 <? get_num_pages (page_header w page))
            && has_flag env_flags HAM_ENABLE_CRC32).
  - unfold header_update, modify, ret.
    eexists. split; [reflexivity|].
    unfold stored_header in *.
    cbn [raw_payload page_manager record device page_header].
    split; [done|]. split; [done|]. split; [done|]. split; [done|].
    split; [done|]. intros x. rewrite Hh. rewrite andb_true_r. done.
  - unfold ret. eexists. split; [reflexivity|].
    split; [done|]. split; [done|]. split; [done|]. split; [done|].
    split; [done|]. intros x. rewrite Hh.
    by rewrite andb_false_r.
Qed.


(** X21.  What [do_overwrite] writes in place, [do_read] reads back: after
    an in-place overwrite without the partial flag, a [do_read] of the
    blob-id without the partial flag returns, sets [record.size] to the
    size of the new record and delivers its bytes, whatever the blob held
    before (compressed or not) and also on a multi-page run with CRC
    enabled.  The device is one on which the zero-copy path stays inside
    a page buffer: when it reports the blob as mapped, the bytes of the
    record lie in the buffer of the page that holds the first of them. *)
Theorem overwritten_blob_is_read_back
    (old_blobid flags rflags : Z) (w : World) :
  is_u64 old_blobid /\ old_blobid + 2 ^ 34 < 2 ^ 64 ->
  get_self (stored_header w old_blobid) = old_blobid ->
  let r := record w in
  let alloc_size := u32 (sizeof_PBlobHeader + rec_size r) in
  let page := old_blobid - old_blobid mod page_size_bytes in
  alloc_size <= get_alloc_size (stored_header w old_blobid) ->
  is_u32 (rec_size r) -> is_u32 (rec_partial_offset r) ->
  is_u32 (rec_partial_size r) ->
  has_flag flags HAM_PARTIAL = false ->
  has_flag rflags HAM_PARTIAL = false ->
  (0 < length (m_freelist (page_header w page)))%nat ->
  zero_copy_in_bounds (device w) old_blobid
    (old_blobid + sizeof_PBlobHeader) (rec_size r) ->
  exists w',
    do_overwrite old_blobid flags w = (Return old_blobid, w')
    /\ forall reader : ham_record_t,
         let res := do_read old_blobid rflags (with_record w' reader) in
         res.1 = Return tt
         /\ rec_size (record res.2) = rec_size r
         /\ record_bytes (record res.2) = record_bytes r.
Proof.
  intros [Hb Hroom] Hself r alloc_size page Hfit Hsize Hpo Hpsz Hpartial
    Hwhole Hslots Hbounds.
  assert (Hend : old_blobid + sizeof_PBlobHeader
                 + (if has_flag flags HAM_PARTIAL
                    then rec_partial_offset r + rec_partial_size r
                    else rec_size r) < 2 ^ 64).
  { rewrite Hpartial. unfold is_u32, sizeof_PBlobHeader in *. lia. }
  destruct (do_overwrite_in_place_trace old_blobid flags w Hb Hself Hfit
              Hsize Hpo Hpsz Hend)
    as (w1 & w' & Hwrite & _ & Hrun & Hraw & Hstored & _ & _ & Hdev
        & Hheaders).
  fold r alloc_size page in Hwrite, Hrun, Hstored, Hheaders.
  rewrite Hpartial in Hwrite, Hheaders. cbn [andb negb] in Hwrite, Hheaders.
  (* the bytes of the record lie behind the header *)
  assert (Hdata : load_bytes (raw_payload w') (old_blobid + sizeof_PBlobHeader)
                    (Z.to_nat (rec_size r))
                  = record_bytes r).
  { set (hdr := mkBlobHeader old_blobid (rec_size r) alloc_size 0) in *.
    destruct (write_chunks_spec Hpage_size
                [(blob_header_bytes hdr, sizeof_PBlobHeader);
                 (data_bytes (rec_data r), rec_size r)]
                (Some (mkPage page)) old_blobid w)
      as (w1' & Hwrite' & _ & Hraw1);
      [apply Hb
      | repeat constructor; cbn; unfold is_u32, sizeof_PBlobHeader in *; lia
      | cbn; unfold is_u32, sizeof_PBlobHeader in *; lia |].
    rewrite Hwrite in Hwrite'. injection Hwrite' as <-.
    rewrite Hraw.
    rewrite (load_bytes_ext _ _ _ _ (fun x _ => Hraw1 x)).
    cbn [chunks_bytes flat_map fst snd]. fold (record_bytes r).
    rewrite (buffer_bytes_exact sizeof_PBlobHeader (blob_header_bytes hdr))
      by (pose proof (length_blob_header_bytes hdr); lia).
    apply load_stored_slice.
    - symmetry. apply length_blob_header_bytes.
    - symmetry. apply length_record_bytes. }
  exists w'. split; [exact Hrun|]. intros reader res.
  assert (Hhdr : stored_header (with_record w' reader) old_blobid
                 = mkBlobHeader old_blobid (rec_size r) alloc_size 0)
    by exact Hstored.
  pose proof (do_read_whole Hpage_size old_blobid rflags
                (with_record w' reader) (record_bytes r) (conj Hb Hroom)
                Hwhole) as Hread.
  cbv zeta in Hread. rewrite Hhdr in Hread.
  cbn [get_self get_size get_flags get_alloc_size] in Hread.
  apply Hread; clear Hread.
  - done.
  - exact Hsize.
  - apply length_record_bytes.
  - exact Hdata.
  - cbn [with_record device]. by rewrite Hdev.
  - cbn [with_record page_header]. fold page. rewrite !Hheaders.
    rewrite Z.eqb_refl. cbn [andb].
    destruct ((1 <? get_num_pages (page_header w page))
              && has_flag env_flags HAM_ENABLE_CRC32) eqn:Hcrc.
    + intros _. rewrite get_offset_set_offset by done.
      by rewrite !u32_idem.
    + rewrite Hcrc. done.
Qed.

End InPlace.


Lemma overwritten_blob_is_read_back_witness :
  let w := with_record Sample.hello_world Sample.one_byte_record in
  exists w',
    @do_overwrite _ Sample.plain_env 1305 0 w = (Return 1305, w')
    /\ let res := @do_read _ Sample.plain_env 1305 0
                    (with_record w' Sample.empty_record) in
       res.1 = Return tt
       /\ rec_size (record res.2) = 1
       /\ record_bytes (record res.2) = [x42].
Proof.
  intros w.
  destruct (@overwritten_blob_is_read_back _ Sample.plain_env
              (sample_page_size_ok None 0) 1305 0 0 w)
    as (w' & Hrun & Hread).
  - unfold is_u64. lia.
  - vm_compute. reflexivity.
  - vm_compute. discriminate.
  - unfold is_u32. simpl. lia.
  - unfold is_u32. simpl. lia.
  - unfold is_u32. simpl. lia.
  - reflexivity.
  - reflexivity.
  - vm_compute. lia.
  - intros _. vm_compute. discriminate.
  - exists w'. split; [exact Hrun|]. exact (Hread Sample.empty_record).
Defined.
(** ** The CRC check of [do_read] *)

Section CrcCheck.
Context {platform : DiskDevice.Platform} {environment : Environment}.
Hypothesis Hpage_size : page_size_ok.

(** X22.  [do_read] checks the CRC exactly for non-empty blobs on
    multi-page runs of a database with CRC enabled: a [do_read] without
    the partial flag of an intact blob whose content is [plain] throws
    [HAM_INTEGRITY_VIOLATED] if and only if the blob is not empty, its
    run has more than one page, CRC is enabled and the 32-bit value in
    the offset of the first freelist slot differs from the hash of
    [plain]; in every other case it returns.  Also when it throws, the
    record already holds the size and the bytes of the blob.  The device
    is one on which the zero-copy path stays inside a page buffer: when it
    reports the blob as mapped, the bytes of the blob lie in the buffer
    of the page that holds the first of them. *)
Theorem do_read_checks_the_crc_of_multi_page_blobs
    (blobid rflags : Z) (w : World) (plain : list byte) :
  is_u64 blobid /\ blobid + 2 ^ 34 < 2 ^ 64 ->
  has_flag rflags HAM_PARTIAL = false ->
  let hdr := stored_header w blobid in
  let page := blobid - blobid mod page_size_bytes in
  let S := get_size hdr in
  get_self hdr = blobid -> is_u32 S ->
  length plain = Z.to_nat S ->
  (if has_flag (get_flags hdr) kIsCompressed
   then exists c,
          get_record_compressor = Some c
          /\ decompress c
               (load_bytes (raw_payload w) (blobid + sizeof_PBlobHeader)
                  (Z.to_nat (u32 (get_alloc_size hdr - sizeof_PBlobHeader))))
               S = plain
   else load_bytes (raw_payload w) (blobid + sizeof_PBlobHeader) (Z.to_nat S)
        = plain) ->
  zero_copy_in_bounds (device w) blobid (blobid + sizeof_PBlobHeader) S ->
  let checked :=
    negb (S =? 0)
    && ((1 <? get_num_pages (page_header w page))
        && has_flag env_flags HAM_ENABLE_CRC32) in
  let matches :=
    u32 (get_freelist_offset (page_header w page) 0)
    =? u32 (MurmurHash3_x86_32 plain 0) in
  (do_read blobid rflags w).1
  = (if checked && negb matches then Throw HAM_INTEGRITY_VIOLATED
     else Return tt)
  /\ rec_size (record (do_read blobid rflags w).2) = S
  /\ record_bytes (record (do_read blobid rflags w).2) = plain.
Proof.
  intros [Hb Hroom] Hwhole hdr page S Hself HS Hlen Hdata Hbounds checked
    matches.
  pose proof (do_read_blobsize_spec Hpage_size blobid rflags w Hb) as Hfirst.
  cbv zeta in Hfirst. fold hdr in Hfirst.
  rewrite Hself, Z.eqb_refl, Hwhole in Hfirst. cbn [negb] in Hfirst.
  fold S page in Hfirst. rewrite (u32_small S HS) in Hfirst.
  destruct (Z.eq_dec S 0) as [Hz|Hnz].
  - (* an empty blob: the check is not reached *)
    unfold checked. rewrite Hz in Hfirst.
    rewrite (do_read_empty _ _ _ _ _ _ Hfirst).
    rewrite Hz. cbn. split; [done|]. split; [done|].
    rewrite Hz in Hlen. destruct plain; [done | simpl in Hlen; lia].
  - set (w1 := with_record w (set_rec_size S (record w))) in *.
    assert (Htransfer :
      do_read_data blobid rflags blobid (Some (mkPage page)) S w1
      = (Return tt,
         with_record w1
           (set_rec_data
              (if has_flag (rec_flags (record w1)) HAM_RECORD_USER_ALLOC
               then store_to_buffer plain (rec_data (record w1))
               else Some plain) (record w1)))).
    { destruct (has_flag (get_flags hdr) kIsCompressed) eqn:Hflag.
      - destruct Hdata as (c & Hc & Hplain).
        pose proof (do_read_data_compressed Hpage_size blobid rflags
                      (Some (mkPage page)) S c w1) as Hd.
        cbv zeta in Hd. rewrite <- Hplain. apply Hd; try done.
        + apply Hb.
        + pose proof (u32_range (get_alloc_size (stored_header w1 blobid)
                                 - sizeof_PBlobHeader)) as Hr.
          unfold is_u32, sizeof_PBlobHeader in *. lia.
      - pose proof (do_read_data_uncompressed Hpage_size blobid rflags
                      (Some (mkPage page)) S w1) as Hd.
        cbv zeta in Hd. rewrite Hwhole, Z.add_0_r in Hd.
        rewrite <- Hdata. apply Hd; try done.
        + unfold is_u64, sizeof_PBlobHeader in *. lia.
        + unfold is_u32, sizeof_PBlobHeader in *. lia. }
    set (w2 := with_record w1
                 (set_rec_data
                    (if has_flag (rec_flags (record w1)) HAM_RECORD_USER_ALLOC
                     then store_to_buffer plain (rec_data (record w1))
                     else Some plain) (record w1))) in *.
    assert (Hbytes : record_bytes (record w2) = plain).
    { unfold w2, w1, record_bytes.
      cbn [record with_record rec_size rec_data rec_flags set_rec_data
           set_rec_size].
      rewrite (u32_small S HS).
      destruct (has_flag _ HAM_RECORD_USER_ALLOC);
        cbn [data_bytes store_to_buffer].
      - by apply buffer_bytes_prefix.
      - by apply buffer_bytes_exact. }
    assert (Hverify : do_read_verify rflags (Some (mkPage page)) w2
                      = (if checked && negb matches
                         then Throw HAM_INTEGRITY_VIOLATED else Return tt,
                         w2)).
    { unfold do_read_verify, checked.
      destruct (Z.eqb_spec S 0) as [|_]; [done|]. cbn [negb andb].
      unfold bind at 1, header_get at 1, gets at 1.
      change (page_header w2 (from_page (mkPage page)))
        with (page_header w page).
      rewrite Hwhole. cbn [negb]. rewrite andb_true_r.
      destruct ((1 <? get_num_pages (page_header w page))
                && has_flag env_flags HAM_ENABLE_CRC32) eqn:Hcheck; [|done].
      unfold bind at 1, get_record at 1, gets at 1.
      fold (record_bytes (record w2)). rewrite Hbytes. fold matches.
      cbn [andb]. by destruct matches. }
    assert (Hrun : do_read blobid rflags w
                   = (if checked && negb matches
                      then Throw HAM_INTEGRITY_VIOLATED else Return tt, w2)).
    { unfold do_read. unfold bind at 1. rewrite Hfirst.
      destruct (Z.eqb_spec S 0); [done|].
      unfold bind at 1. rewrite Htransfer. exact Hverify. }
    rewrite Hrun. cbn [fst snd]. split; [done|]. split; [|done].
    unfold w2, w1.
    cbn [record with_record rec_size set_rec_data set_rec_size].
    by apply u32_small.
Qed.

End CrcCheck.

Lemma do_read_checks_the_crc_of_multi_page_blobs_witness :
  (@do_read _ Sample.packing_env 1305 0 Scenario.long_world).1 = Return tt
  /\ let res := @do_read _ Sample.packing_env 1305 0 Scenario.spoiled_world in
     res.1 = Throw HAM_INTEGRITY_VIOLATED
     /\ rec_size (record res.2) = 1500
     /\ record_bytes (record res.2) = record_bytes Sample.long_record.
Proof.
  split.
  - pose proof (@do_read_checks_the_crc_of_multi_page_blobs _
                  Sample.packing_env (sample_page_size_ok _ _) 1305 0
                  Scenario.long_world (record_bytes Sample.long_record)) as H.
    cbv zeta in H. destruct H as (Hout & _).
    + unfold is_u64. lia.
    + reflexivity.
    + vm_compute. reflexivity.
    + vm_compute. split; [discriminate | reflexivity].
    + vm_compute. reflexivity.
    + assert (Hflag : has_flag
                        (get_flags
                           (stored_header
                              Scenario.long_world 1305))
                        kIsCompressed = true) by (vm_compute; reflexivity).
      rewrite Hflag. exists Sample.zero_stripper. split; [reflexivity|].
      vm_compute. reflexivity.
    + intros _. vm_compute. discriminate.
    + rewrite Hout. vm_compute. reflexivity.
  - pose proof (@do_read_checks_the_crc_of_multi_page_blobs _
                  Sample.packing_env (sample_page_size_ok _ _) 1305 0
                  Scenario.spoiled_world (record_bytes Sample.long_record))
      as H.
    cbv zeta in H. destruct H as (Hout & Hsize & Hbytes).
    + unfold is_u64. lia.
    + reflexivity.
    + vm_compute. reflexivity.
    + vm_compute. split; [discriminate | reflexivity].
    + vm_compute. reflexivity.
    + assert (Hflag : has_flag
                        (get_flags
                           (stored_header
                              Scenario.spoiled_world 1305))
                        kIsCompressed = true) by (vm_compute; reflexivity).
      rewrite Hflag. exists Sample.zero_stripper. split; [reflexivity|].
      vm_compute. reflexivity.
    + intros _. vm_compute. discriminate.
    + cbv zeta. split; [rewrite Hout; vm_compute; reflexivity|].
      split; [rewrite Hsize; vm_compute; reflexivity | exact Hbytes].
Defined.

(** * Where the code leaves the specification *)

(** C1.  After [open] with a failed [mmap] the device has [mapped_size]
    set and a null [mmapptr].  A record of 1500 bytes that is allocated
    there takes a run of two pages of 1024 bytes; a [do_read] of its
    blob-id finds the blob mapped ([is_mapped] does not look at
    [mmapptr]) and takes the zero-copy path, although [read_page] gave
    the page a heap buffer of one page: the 1500 bytes behind the pointer
    run past the end of that buffer, and the read has no defined result.
    With [HAM_FORCE_DEEP_COPY] the same read returns the record. *)
Theorem do_read_runs_past_the_page_buffer :
  let allocated :=
    @do_allocate _ Sample.plain_env 0
      (Incident.unmapped_world Sample.long_record) in
  let w := with_record allocated.2 Sample.empty_record in
  let fetched :=
    DiskDevice.read_page Incident.small_page_config (device w)
      Sample.fresh_page 1024 in
  let copied := @do_read _ Sample.plain_env 1305 1048576 w in
  DiskDevice.open Incident.small_page_config
    (Sample.closed_device Sample.failing_mmap_platform Sample.two_pages)
  = inr Sample.unmapped_device
  /\ device w = Sample.unmapped_device
  /\ allocated.1 = Return 1305
  /\ get_num_pages (page_header w 1024) = 2
  /\ DiskDevice.is_mapped (device w) 1305 1500 = true
  /\ (exists buffer,
        DiskDevice.get_data fetched.1.2 = DiskDevice.Allocated buffer
        /\ length buffer = 1024%nat)
  /\ 1024 + 1024 < 1305 + sizeof_PBlobHeader + 1500
  /\ (@do_read _ Sample.plain_env 1305 0 w).1 = Diverge
  /\ copied.1 = Return tt
  /\ record_bytes (record copied.2) = record_bytes Sample.long_record.
Proof.
  cbv zeta.
  split; [vm_compute; reflexivity|].
  split; [vm_compute; reflexivity|].
  split; [vm_compute; reflexivity|].
  split; [vm_compute; reflexivity|].
  split; [vm_compute; reflexivity|].
  split; [eexists; split; vm_compute; reflexivity|].
  split; [vm_compute; reflexivity|].
  split; [vm_compute; reflexivity|].
  split; vm_compute; reflexivity.
Qed.

(** C3.  A partial read of two bytes offset and [2^32 - 1] bytes size from
    the blob of five bytes: the sum of offset and size exceeds the size
    of the blob, but in the 32 bits of the source it is 1, so [do_read]
    does not clamp: the effective read size that it hands to the transfer
    and [record.partial_size] stay [2^32 - 1], not [5 - 2]. *)
Theorem partial_read_sum_wraps_past_the_clamp :
  let w := with_record Sample.hello_world Incident.wrapping_request in
  let first := @do_read_blobsize _ Sample.plain_env 1305 128 w in
  get_self (stored_header w 1305) = 1305
  /\ get_size (stored_header w 1305) = 5
  /\ rec_partial_offset (record w) <= 5
  /\ 5 < rec_partial_offset (record w) + rec_partial_size (record w)
  /\ u32 (rec_partial_offset (record w) + rec_partial_size (record w)) = 1
  /\ first.1 = Return (1305, Some (mkPage 1024), 4294967295)
  /\ rec_partial_size (record first.2) = 4294967295
  /\ rec_size (record first.2) = 5.
Proof.
  cbv zeta.
  split; [vm_compute; reflexivity|].
  split; [vm_compute; reflexivity|].
  split; [vm_compute; discriminate|].
  split; [vm_compute; reflexivity|].
  split; [vm_compute; reflexivity|].
  split; [vm_compute; reflexivity|].
  split; vm_compute; reflexivity.
Qed.

(** C2.  An overwrite of the blob of five bytes, which takes 29 bytes, with
    a record of [2^32 - 1] bytes: the size of the blob header plus
    [record.size] is far above the 29 bytes of the old blob, but the
    32-bit sum of the source is 23, so [do_overwrite] takes the in-place
    path: it returns the old blob-id, allocates nothing, and leaves a blob
    header that gives the blob [2^32 - 1] bytes in an allocation of 23. *)
Theorem overwrite_in_place_despite_larger_record :
  let w := with_record Sample.hello_world Incident.huge_record in
  get_self (stored_header w 1305) = 1305
  /\ get_alloc_size (stored_header w 1305) = 29
  /\ 29 < sizeof_PBlobHeader + rec_size (record w)
  /\ u32 (sizeof_PBlobHeader + rec_size (record w)) = 23
  /\ exists w',
       @do_overwrite _ Sample.plain_env 1305 0 w = (Return 1305, w')
       /\ stored_header w' 1305 = mkBlobHeader 1305 4294967295 23 0
       /\ page_manager w' = page_manager w.
Proof.
  intros w.
  assert (Hself : get_self (stored_header w 1305) = 1305)
    by (vm_compute; reflexivity).
  assert (Hold : get_alloc_size (stored_header w 1305) = 29)
    by (vm_compute; reflexivity).
  split; [exact Hself|]. split; [exact Hold|].
  split; [vm_compute; reflexivity|]. split; [vm_compute; reflexivity|].
  destruct (@do_overwrite_in_place_trace _ Sample.plain_env
              (sample_page_size_ok None 0) 1305 0 w)
    as (w1 & w' & _ & _ & Hrun & _ & Hstored & Hpm & _).
  - unfold is_u64. lia.
  - exact Hself.
  - rewrite Hold. vm_compute. discriminate.
  - unfold is_u32. simpl. lia.
  - unfold is_u32. simpl. lia.
  - unfold is_u32. simpl. lia.
  - vm_compute. reflexivity.
  - exists w'. split; [exact Hrun|]. split; [exact Hstored | exact Hpm].
Qed.

(** [add_to_freelist] leaves the free-bytes counter to its caller. *)
Lemma add_to_freelist_free_bytes (header : PBlobPageHeader) (offset size : Z) :
  get_free_bytes (add_to_freelist header offset size) = get_free_bytes header.
Proof.
  destruct (Z.lt_ge_cases 1 (get_num_pages header)) as [Hgt|Hle].
  - unfold add_to_freelist.
    destruct (Z.ltb_spec 1 (get_num_pages header)); [done | lia].
  - destruct (add_to_freelist_cases header offset size ltac:(lia))
      as [(j & off & sz & _
           & [[_ ->]|[[_ ->]|[(_ & _ & ->)|[(_ & _ & _ & ->)
                                           |(_ & _ & _ & ->)]]]])
         |[_ ->]]; done.
Qed.

(** ** Erasing, slot by slot *)

Section ErasedFootprint.
Context {platform : DiskDevice.Platform} {environment : Environment}.


End ErasedFootprint.



(** ** Overwriting by relocation *)

Section RelocatingErases.
Context {platform : DiskDevice.Platform} {environment : Environment}.

(** X24.  [do_overwrite] with a record that does not fit the old blob (in
    the 32-bit sum of the source), for a record whose size plus the blob
    header stays below [2^32] and whose partial write, if it is one, stays
    inside the record, in a state that is ready for the allocation (the
    new blob and the page overhead stay below [2^32]) and whose old blob
    lies behind the page overhead of its page and outside the free space:
    the call is
    [do_allocate] followed by [do_erase] of the old id, and it returns the
    id of the new blob, which differs from the old id.  The allocation
    leaves the old blob header as it was, and the erase is visible
    afterwards: the header of the page of the old blob counts the old
    [alloc_size] as free, and either the run of the old blob is handed to
    [del] and its header reset, or the old footprint went through
    [add_to_freelist]. *)
Theorem overwrite_relocates_by_allocate_then_erase
    (old_blobid flags : Z) (w : World) :
  page_size_ok ->
  0 <= old_blobid < 2 ^ 62 ->
  kPageOverhead <= old_blobid mod page_size_bytes ->
  get_self (stored_header w old_blobid) = old_blobid ->
  let r := record w in
  let alloc_size := u32 (sizeof_PBlobHeader + rec_size r) in
  let old_alloc_size := get_alloc_size (stored_header w old_blobid) in
  let new_alloc_size := u32 (sizeof_PBlobHeader + (stored_payload flags r).2) in
  record_fits r -> partial_write_plain flags r ->
  allocation_ready w new_alloc_size ->
  new_alloc_size + kPageOverhead < 2 ^ 32 ->
  outside_free_space w old_blobid new_alloc_size ->
  old_alloc_size < alloc_size ->
  exists new_blobid w1 w2,
    do_allocate flags w = (Return new_blobid, w1)
    /\ do_erase old_blobid None 0 w1 = (Return tt, w2)
    /\ do_overwrite old_blobid flags w = (Return new_blobid, w2)
    /\ new_blobid <> old_blobid
    /\ stored_header w1 old_blobid = stored_header w old_blobid
    /\ raw_payload w2 = raw_payload w1
    /\ let address := old_blobid - old_blobid mod page_size_bytes in
       let h := page_header w1 address in
       let h1 := set_free_bytes h (get_free_bytes h + old_alloc_size) in
       let full :=
         u32 (u32 (get_num_pages h * page_size_bytes) - kPageOverhead) in
       (get_free_bytes h1 = full ->
        m_last_blob_page (page_manager w2) = None
        /\ m_deleted_runs (page_manager w2)
           = (address, get_num_pages h) :: m_deleted_runs (page_manager w1)
        /\ page_header w2 address = initialize h1)
       /\ (get_free_bytes h1 <> full ->
           page_manager w2 = page_manager w1
           /\ page_header w2 address
              = add_to_freelist h1 (old_blobid - address) old_alloc_size
           /\ get_free_bytes (page_header w2 address)
              = u32 (get_free_bytes h + old_alloc_size)).
Proof.
  intros Hps Hold _ Hself r alloc_size old_alloc_size new_alloc_size Hfits
    Hplain Hready Hrequired (Hslots & Hrunfree) Hlt.
  assert (Hb : is_u64 old_blobid) by (unfold is_u64; lia).
  pose proof (written_extent_le flags r Hfits Hplain) as Hextent.
  destruct (do_allocate_spec Hps flags w Hready Hfits)
    as (new_blobid & w1 & Hrun & Hnew & _ & _ & _ & Hframe & _ & _ & Hloc).
  fold r in Hframe, Hloc. fold new_alloc_size in Hloc.
  pose proof Hfits as (Hsize & _ & _ & Hsum & _).
  pose proof (stored_payload_size flags r Hsize) as Hrs.
  assert (Halloc : new_alloc_size
                   = sizeof_PBlobHeader + (stored_payload flags r).2).
  { apply u32_small. unfold is_u32, sizeof_PBlobHeader in *. lia. }
  (* the new blob keeps clear of the old header *)
  assert (Hclear : new_blobid + new_alloc_size <= old_blobid
                   \/ old_blobid + sizeof_PBlobHeader <= new_blobid).
  { destruct Hloc as [(p & i & off & sz & Hp & Hslot & Hfit & ->)| ->].
    - specialize (Hslots p Hp). rewrite Forall_lookup in Hslots.
      specialize (Hslots i (off, sz) Hslot). cbn [fst snd] in Hslots.
      destruct Hslots as [Hbefore|Hafter];
        unfold sizeof_PBlobHeader in *; lia.
    - cbv zeta in Hrunfree.
      destruct Hready as (Hk & _ & _).
      pose proof (run_pages_covers Hps new_alloc_size) as Hcover.
      unfold sizeof_PBlobHeader in *. lia. }
  assert (Hheader : stored_header w1 old_blobid = stored_header w old_blobid).
  { apply blob_header_at_ext. intros x Hx. apply Hframe.
    unfold sizeof_PBlobHeader in *. lia. }
  destruct (do_erase_result Hps old_blobid 0 None w1 Hb)
    as (w2 & Herase & Hraw2 & _ & _ & Hfull & Hpart).
  { by rewrite Hheader. }
  rewrite Hheader in Hfull, Hpart. fold old_alloc_size in Hfull, Hpart.
  exists new_blobid, w1, w2.
  split; [exact Hrun|]. split; [exact Herase|]. split; [|split; [|split]].
  - unfold do_overwrite.
    unfold bind at 1, get_record at 1, gets at 1. fold r. fold alloc_size.
    unfold bind at 1. rewrite (read_chunk_pointer Hps) by done.
    unfold bind at 1, deref at 1, gets at 1.
    fold (stored_header w old_blobid). rewrite Hself, Z.eqb_refl.
    cbn [negb].
    unfold bind at 1, deref at 1, gets at 1.
    fold (stored_header w old_blobid). fold old_alloc_size.
    destruct (Z.leb_spec alloc_size old_alloc_size); [lia|].
    unfold bind at 1, allocate. rewrite Hrun.
    unfold bind at 1, erase. rewrite Herase. done.
  - unfold sizeof_PBlobHeader in *. lia.
  - exact Hheader.
  - split; [exact Hraw2|]. cbv zeta. split.
    + intros Heq. destruct (Hfull Heq) as (? & ? & _ & ?). done.
    + intros Hne. destruct (Hpart Hne) as [Hh Hpm].
      split; [exact Hpm|]. split; [exact Hh|]. rewrite Hh.
      by rewrite add_to_freelist_free_bytes.
Qed.

End RelocatingErases.

Lemma overwrite_relocates_by_allocate_then_erase_witness :
  let w := with_record Sample.hello_world Sample.wide_record in
  exists new_blobid w2,
    @do_overwrite _ Sample.plain_env 1305 0 w = (Return new_blobid, w2)
    /\ new_blobid <> 1305
    /\ get_free_bytes (page_header w2 1024) = 219
    /\ m_freelist (page_header w2 1024) !! 1%nat = Some (281, 29).
Proof.
  intros w.
  assert (Hheader : page_header w 1024
                    = mkPageHeader 1 714 ((310, 714) :: replicate 31 (0, 0)))
    by (vm_compute; reflexivity).
  assert (Hlast : m_last_blob_page (page_manager w) = Some (mkPage 1024))
    by (vm_compute; reflexivity).
  assert (Hnew : u32 (sizeof_PBlobHeader
                      + (@stored_payload Sample.plain_env 0 (record w)).2)
                 = 524) by (vm_compute; reflexivity).
  assert (Hrun : @place_run Sample.plain_env (page_manager w)
                   (@run_pages Sample.plain_env 524) = 2048)
    by (vm_compute; reflexivity).
  assert (Hold : get_alloc_size (stored_header w 1305) = 29)
    by (vm_compute; reflexivity).
  pose proof (@overwrite_relocates_by_allocate_then_erase _ Sample.plain_env
                1305 0 w (sample_page_size_ok None 0)) as H.
  cbv zeta in H. rewrite Hnew, Hold in H.
  destruct H as (new_blobid & w1 & w2 & Hallocate & _ & Hres & Hne & _ & _
                 & _ & Hpart).
  - lia.
  - vm_compute. discriminate.
  - vm_compute. reflexivity.
  - unfold record_fits, is_u32, sizeof_PBlobHeader, w. cbn. lia.
  - intros Hpartial. vm_compute in Hpartial. discriminate Hpartial.
  - unfold allocation_ready. split; [simpl; lia|]. split.
    + intros p Hp. rewrite Hlast in Hp. injection Hp as <-.
      cbn [get_address]. rewrite Hheader.
      split; [lia|]. split; [reflexivity|].
      split; [apply sample_header_u32; unfold is_u32; simpl; lia|].
      cbn [m_freelist]. constructor; [simpl; lia|].
      apply Forall_replicate. simpl. lia.
    + cbv zeta. rewrite Hrun.
      split; [lia|]. split; [reflexivity|]. vm_compute. lia.
  - simpl. lia.
  - unfold outside_free_space. split.
    + intros p Hp. rewrite Hlast in Hp. injection Hp as <-.
      cbn [get_address]. rewrite Hheader. cbn [m_freelist].
      unfold sizeof_PBlobHeader.
      constructor; [simpl; lia|].
      apply Forall_replicate. simpl. lia.
    + cbv zeta. rewrite Hrun. right. unfold sizeof_PBlobHeader. lia.
  - vm_compute. reflexivity.
  - assert (Hh1 : page_header w1 (1305 - 1305 mod @page_size_bytes
                                               Sample.plain_env)
                  = mkPageHeader 1 190 ((834, 190) :: replicate 31 (0, 0))).
    { transitivity (page_header (@do_allocate _ Sample.plain_env 0 w).2 1024);
        [by rewrite Hallocate | vm_compute; reflexivity]. }
    rewrite Hh1 in Hpart.
    destruct Hpart as (_ & Hslot & Hfree); [vm_compute; discriminate|].
    exists new_blobid, w2. split; [exact Hres|]. split; [exact Hne|].
    change (1305 - 1305 mod @page_size_bytes Sample.plain_env) with 1024
      in Hslot, Hfree.
    split; [rewrite Hfree; vm_compute; reflexivity|].
    rewrite Hslot. vm_compute. reflexivity.
Defined.
